(** * The streaming relay of the chat and competitive-research endpoints

    A shallow embedding of the two route handlers

      - [src/app/api/chat/route.ts]
      - [src/app/api/competitive-research/route.ts]

    together with the telemetry wrappers of [lib/sentry-helpers] they call.
    Each handler parses a JSON body, validates it, folds the conversation
    into one prompt, iterates the agent SDK's message sequence and relays it
    as server-sent events on a [ReadableStream] controller.

    Conventions of the embedding.

    - JavaScript strings are [string]; [String.length] and [substring] stand
      for [.length] and [.substring], which agree on ASCII text.
    - A JavaScript number is carried by its canonical rendering (the result
      of [String(x)]): the handlers only print numbers and test them for
      truthiness, and both are functions of that rendering.
    - [undefined] is [None] in an [option Json].
    - The effects of a handler are explicit: a [World] holds the number of
      [Date.now()] readings consumed so far and the telemetry recorded so far;
      the host supplies the clock readings and the SDK's [query].
    - The SDK's asynchronous generator is a finite list of messages followed
      by a normal return or a raised value ([Run]).  The raised value is the
      SDK's choice: it may be one that [String] cannot convert.
    - [controller.enqueue] is an append to the controller's queue; chunks are
      kept structured ([Chunk]) and [wire] gives the text handed to the
      [TextEncoder].  The handlers close a controller once, after their last
      enqueue, so neither call raises.
    - The response of a request is taken with its stream run to the end:
      [StreamBody] holds the controller once the callback has finished, or
      once it has raised and left the stream errored. *)

From Stdlib Require Import String Ascii List ZArith Lia Bool Arith DecimalString.
From Stdlib Require QArith.
Import ListNotations.
Local Open Scope string_scope.
Set Warnings "-register-all".

(** ** Characters and text *)

Definition dq : string := String "034" EmptyString.
Definition bs : string := String "092" EmptyString.
Definition nl : string := String "010" EmptyString.

(** [Array.prototype.join] on an array of strings. *)
Definition join (sep : string) (parts : list string) : string :=
  String.concat sep parts.

(** [n.toString()] for a non-negative integer count. *)
Definition nat_to_string (n : nat) : string :=
  NilEmpty.string_of_uint (Nat.to_uint n).

(** ** Numbers *)

(** A number, carried by its canonical rendering. *)
Definition Number := string.

Definition number_to_string (x : Number) : string := x.

(** [JSON.stringify] prints the non-finite numbers as [null]. *)
Definition number_to_json (x : Number) : string :=
  if (x =? "Infinity") || (x =? "-Infinity") || (x =? "NaN") then "null" else x.

(** Both zeros render as [0]; zero and [NaN] are the falsy numbers. *)
Definition number_truthy (x : Number) : bool :=
  negb ((x =? "0") || (x =? "NaN")).

(** ** JSON text produced by [JSON.stringify] *)

Definition hex_digit (n : nat) : ascii :=
  nth n (list_ascii_of_string "0123456789abcdef") "0"%char.

Definition escape_char (c : ascii) : string :=
  let n := nat_of_ascii c in
  if Nat.eqb n 8 then bs ++ "b"
  else if Nat.eqb n 9 then bs ++ "t"
  else if Nat.eqb n 10 then bs ++ "n"
  else if Nat.eqb n 12 then bs ++ "f"
  else if Nat.eqb n 13 then bs ++ "r"
  else if Nat.eqb n 34 then bs ++ dq
  else if Nat.eqb n 92 then bs ++ bs
  else if Nat.ltb n 32 then
    bs ++ "u00" ++ String (hex_digit (n / 16)) (String (hex_digit (n mod 16)) EmptyString)
  else String c EmptyString.

Fixpoint escape (s : string) : string :=
  match s with
  | EmptyString => EmptyString
  | String c rest => escape_char c ++ escape rest
  end.

Definition json_string (s : string) : string := dq ++ escape s ++ dq.

(** An object literal whose member values are already rendered. *)
Definition json_object (members : list (string * string)) : string :=
  "{" ++ join "," (map (fun kv => json_string (fst kv) ++ ":" ++ snd kv) members) ++ "}".

(** ** JSON values, as [request.json()] returns them *)

Inductive Json :=
| JNull
| JBool (b : bool)
| JNum (x : Number)
| JStr (s : string)
| JArr (items : list Json)
| JObj (members : list (string * Json)).

(** Own property of a parsed object: the last member with that key wins. *)
Fixpoint own_property (key : string) (members : list (string * Json)) : option Json :=
  match members with
  | [] => None
  | (k, v) :: rest =>
      match own_property key rest with
      | Some later => Some later
      | None => if k =? key then Some v else None
      end
  end.

Definition has_own (key : string) (members : list (string * Json)) : bool :=
  match own_property key members with Some _ => true | None => false end.

(** ** Thrown values and outcomes *)

(** A raised value that [String] converts: an [Error], by its message, or
    another value, by its conversion.  What the handlers themselves raise
    (a rejected [request.json()], a [TypeError] of the engine) is of this
    kind; what the SDK raises need not be, see [Raise]. *)
Inductive Thrown :=
| ErrorObject (message : string)
| OtherValue (text : string).

(** [error instanceof Error ? error.message : 'Unknown error'] *)
Definition error_message (t : Thrown) : string :=
  match t with
  | ErrorObject message => message
  | OtherValue _ => "Unknown error"
  end.

(** [error instanceof Error ? error : new Error(String(error))], by
    message, on a value that [String] converts. *)
Definition as_error (t : Thrown) : string :=
  match t with
  | ErrorObject message => message
  | OtherValue text => text
  end.

Inductive Outcome (A : Type) :=
| Val (a : A)
| Exn (t : Thrown).
Arguments Val {A} a.
Arguments Exn {A} t.

(** The runtime's [TypeError]s; the wording is the engine's. *)
Definition type_error (message : string) : Thrown := ErrorObject message.

(** A value raised by code the handler does not control.  [Thrown] holds
    the values [String] converts: an [Error], by its message, and any other
    such value, by its conversion.  A raised value may also be one that is
    no [Error] and that [String] cannot convert ([Object.create(null)], an
    object whose [toString] raises). *)
Inductive Raise :=
| Convertible (t : Thrown)
| Inconvertible.

(** [error instanceof Error ? error.message : 'Unknown error'] *)
Definition raise_message (e : Raise) : string :=
  match e with
  | Convertible t => error_message t
  | Inconvertible => "Unknown error"
  end.

(** [error instanceof Error ? error : new Error(String(error))], by
    message.  On a value it cannot convert [String] raises. *)
Definition raise_as_error (e : Raise) : Outcome string :=
  match e with
  | Convertible t => Val (as_error t)
  | Inconvertible => Exn (type_error "Cannot convert object to primitive value")
  end.

(** ** JavaScript operations on JSON values *)

Definition truthy (v : option Json) : bool :=
  match v with
  | None => false
  | Some JNull => false
  | Some (JBool b) => b
  | Some (JNum x) => number_truthy x
  | Some (JStr s) => negb (s =? EmptyString)
  | Some (JArr _) => true
  | Some (JObj _) => true
  end.

Definition isArray (v : option Json) : bool :=
  match v with
  | Some (JArr _) => true
  | _ => false
  end.

(** [v.key], for a key that no built-in prototype defines ([messages],
    [model], [role] and [content] are such keys). *)
Definition member (v : Json) (key : string) : Outcome (option Json) :=
  match v with
  | JNull => Exn (type_error ("Cannot read properties of null (reading '" ++ key ++ "')"))
  | JObj members => Val (own_property key members)
  | _ => Val None
  end.

(** [const { key } = v] *)
Definition destructure (v : Json) (key : string) : Outcome (option Json) :=
  match v with
  | JNull =>
      Exn (type_error ("Cannot destructure property '" ++ key
                       ++ "' of '(intermediate value)' as it is null."))
  | JObj members => Val (own_property key members)
  | _ => Val None
  end.

(** String conversion inside a template literal.  A parsed object prints
    through [Object.prototype.toString] unless it has an own [toString]
    member, which is never callable; an array joins its items with commas,
    printing [null] items as nothing. *)
Fixpoint to_string (v : Json) : Outcome string :=
  match v with
  | JNull => Val "null"
  | JBool true => Val "true"
  | JBool false => Val "false"
  | JNum x => Val (number_to_string x)
  | JStr s => Val s
  | JArr items =>
      match
        (fix items_to_strings (l : list Json) : Outcome (list string) :=
           match l with
           | [] => Val []
           | item :: rest =>
               match (match item with JNull => Val EmptyString | _ => to_string item end) with
               | Exn t => Exn t
               | Val s =>
                   match items_to_strings rest with
                   | Exn t => Exn t
                   | Val ss => Val (s :: ss)
                   end
               end
           end) items
      with
      | Exn t => Exn t
      | Val ss => Val (join "," ss)
      end
  | JObj members =>
      if has_own "toString" members
      then Exn (type_error "Cannot convert object to primitive value")
      else Val "[object Object]"
  end.

Definition to_string_opt (v : option Json) : Outcome string :=
  match v with
  | None => Val "undefined"
  | Some j => to_string j
  end.

(** [v === 'user'] *)
Definition is_string (v : option Json) (s : string) : bool :=
  match v with
  | Some (JStr t) => t =? s
  | _ => false
  end.

(** [value || fallback] where the fallback is a string literal. *)
Definition or_else (v : option Json) (fallback : string) : Json :=
  match v with
  | Some j => if truthy v then j else JStr fallback
  | None => JStr fallback
  end.

(** [Array.prototype.pop]: the last item, or [undefined]. *)
Fixpoint pop (l : list Json) : option Json :=
  match l with
  | [] => None
  | [x] => Some x
  | _ :: rest => pop rest
  end.

(** The items of a value already known to be an array. *)
Definition items_of (v : option Json) : list Json :=
  match v with
  | Some (JArr items) => items
  | _ => []
  end.

(** A [Set<string>]: distinct names in insertion order, which is the order
    [Array.from] lists them in. *)
Definition set_add (name : string) (s : list string) : list string :=
  if existsb (String.eqb name) s then s else s ++ [name].

(** ** Telemetry, as the wrappers of [sentry-helpers] receive it *)

Inductive Level := Debug | Info | Warn | Severe.

Inductive Field :=
| FBool (b : bool)
| FCount (n : nat)
| FSeconds (q : QArith_base.Q)
| FText (s : string)
| FNames (names : list string)
| FJson (v : Json).

Inductive Measure :=
| Count (n : nat)
| Reading (x : Number).

Inductive Telemetry :=
| Increment (name : string) (value : nat) (tags : list (string * string))
| Gauge (name : string) (value : Measure) (tags : list (string * string))
| Timing (name : string) (seconds : QArith_base.Q) (tags : list (string * string))
| Log (level : Level) (message : string) (context : list (string * Field))
      (error : option string).

(** ** The agent SDK *)

Record Options := {
  maxTurns : nat;
  model : option Json;
  tools : string * string;
  permissionMode : string;
  allowDangerouslySkipPermissions : bool;
  includePartialMessages : bool;
  cwd : string
}.

Record QueryCall := { prompt : string; options : Options }.

Inductive Delta :=
| TextDeltaOf (text : string)
| OtherDelta.

Inductive RawEvent :=
| ContentBlockDelta (delta : option Delta)
| OtherEvent.

Inductive Block :=
| ToolUse (name : string)
| OtherBlock.

(** The messages [query] yields.  [SDKAssistantMessage None] is an assistant
    message whose content is not an array. *)
Inductive SDKMessage :=
| SDKPartialAssistantMessage (event : RawEvent)
| SDKAssistantMessage (content : option (list Block))
| SDKToolProgressMessage (tool_name : string) (elapsed_time_seconds : Number)
| SDKResultMessage (subtype : string)
| SDKOtherMessage.

(** How the iteration over [query] ends: it returns, or it raises a value,
    which the SDK chooses. *)
Inductive Ending :=
| Returned
| Raised (e : Raise).

Record Run := { yielded : list SDKMessage; ending : Ending }.

(** ** The host and the world *)

Record Host := {
  now : nat -> Z;
  process_cwd : string;
  query : QueryCall -> Run
}.

Record World := {
  ticks : nat;
  sink : list Telemetry;
  queries : list QueryCall
}.

Definition World0 : World := {| ticks := 0; sink := []; queries := [] |}.

Definition M (A : Type) : Type := World -> Outcome A * World.

Definition ret {A : Type} (a : A) : M A := fun w => (Val a, w).

Definition bind {A B : Type} (m : M A) (k : A -> M B) : M B :=
  fun w =>
    match m w with
    | (Val a, w') => k a w'
    | (Exn t, w') => (Exn t, w')
    end.

Definition lift {A : Type} (o : Outcome A) : M A := fun w => (o, w).

Definition try_catch {A : Type} (m : M A) (handler : Thrown -> M A) : M A :=
  fun w =>
    match m w with
    | (Val a, w') => (Val a, w')
    | (Exn t, w') => handler t w'
    end.

Notation "x <- m ;; k" := (bind m (fun x => k))
  (at level 61, m at next level, right associativity).
Notation "m ;;; k" := (bind m (fun _ => k))
  (at level 61, right associativity).

(** [Date.now()] *)
Definition read_clock (host : Host) (w : World) : Z * World :=
  (now host (ticks w),
   {| ticks := S (ticks w); sink := sink w; queries := queries w |}).

Definition date_now (host : Host) : M Z :=
  fun w => let (t, w') := read_clock host w in (Val t, w').

(** [(Date.now() - start) / 1000] *)
Definition seconds_since (start finish : Z) : QArith_base.Q :=
  QArith_base.Qmake (finish - start) 1000.

Definition tell (t : Telemetry) (w : World) : World :=
  {| ticks := ticks w; sink := sink w ++ [t]; queries := queries w |}.

Definition call_query (host : Host) (call : QueryCall) (w : World) : Run * World :=
  (query host call,
   {| ticks := ticks w; sink := sink w; queries := queries w ++ [call] |}).

(** The wrappers swallow every failure of the telemetry backend, so a call
    is its record in the sink. *)
Definition sentryMetrics_increment (name : string) (value : nat)
  (tags : list (string * string)) : M unit :=
  fun w => (Val tt, tell (Increment name value tags) w).

Definition sentryMetrics_gauge (name : string) (value : Measure)
  (tags : list (string * string)) : M unit :=
  fun w => (Val tt, tell (Gauge name value tags) w).

Definition sentryMetrics_timing (name : string) (seconds : QArith_base.Q)
  (tags : list (string * string)) : M unit :=
  fun w => (Val tt, tell (Timing name seconds tags) w).

Definition sentryLogger (level : Level) (message : string)
  (context : list (string * Field)) (error : option string) : M unit :=
  fun w => (Val tt, tell (Log level message context error) w).

(** ** The two endpoints *)

(** What differs between the two route files: the system prompt, the names
    of the metrics, the wording of the log entries and of the 500 body, and
    whether the body's [model] member is read. *)
Record Endpoint := {
  SYSTEM_PROMPT : string;
  reads_model : bool;
  default_model : string;
  m_validation_error : string;
  m_request : string;
  m_conversation_messages : string;
  m_conversation_user_messages : string;
  m_tool_used : string;
  m_tool_elapsed_time : string;
  m_stream_duration : string;
  m_stream_chunks : string;
  m_stream_tools_used : string;
  m_query_error : string;
  m_stream_error : string;
  m_api_error : string;
  m_api_duration : string;
  l_missing_messages : string;
  l_no_user_message : string;
  l_processing : string;
  l_starting : string;
  l_tool_started : string;
  l_completed : string;
  l_query_failed : string;
  l_stream_error : string;
  l_api_error : string;
  failed_to_process : string
}.

Definition chat_system_prompt : string :=
  join nl [
    "You are a helpful personal assistant designed to help with general research, questions, and tasks.";
    EmptyString;
    "Your role is to:";
    "- Answer questions on any topic accurately and thoroughly";
    "- Help with research by searching the web for current information";
    "- Assist with writing, editing, and brainstorming";
    "- Provide explanations and summaries of complex topics";
    "- Help solve problems and think through decisions";
    EmptyString;
    "Guidelines:";
    "- Be friendly, clear, and conversational";
    "- Use web search when you need current information, facts you're unsure about, or real-time data";
    "- Keep responses concise but complete - expand when the topic warrants depth";
    "- Use markdown formatting when it helps readability (bullet points, code blocks, etc.)";
    "- Be honest when you don't know something and offer to search for answers" ].

Definition research_system_prompt : string :=
  join nl [
    "You are a competitive research analyst specializing in application monitoring, error tracking, and observability platforms.";
    EmptyString;
    "Your role is to help analyze and compare Sentry against competitor products like:";
    "- Datadog APM";
    "- New Relic";
    "- Rollbar";
    "- Bugsnag";
    "- LogRocket";
    "- Raygun";
    "- Honeybadger";
    "- AppDynamics";
    "- Dynatrace";
    "- Elastic APM";
    EmptyString;
    "When conducting competitive research, you should:";
    "- Search the web for the latest information about competitor features, pricing, and capabilities";
    "- Compare features side-by-side with Sentry";
    "- Analyze market positioning, strengths, and weaknesses";
    "- Review recent product announcements, blog posts, and documentation";
    "- Examine user reviews, Reddit discussions, and community sentiment";
    "- Identify differentiators and competitive advantages";
    "- Provide data-driven insights with sources";
    EmptyString;
    "Guidelines:";
    "- Always cite your sources with URLs";
    "- Be objective and fair in your analysis";
    "- Focus on factual information, not speculation";
    "- Use web search extensively to get current, accurate data";
    "- Present findings in clear, structured markdown (tables, bullet points, etc.)";
    "- When comparing pricing, include free tier and enterprise options";
    "- Highlight unique features and capabilities on both sides";
    "- Consider different use cases (startup vs enterprise, web vs mobile, etc.)" ].

Definition chat : Endpoint := {|
  SYSTEM_PROMPT := chat_system_prompt;
  reads_model := false;
  default_model := EmptyString;
  m_validation_error := "chat.api.validation_error";
  m_request := "chat.api.request";
  m_conversation_messages := "chat.conversation.messages";
  m_conversation_user_messages := "chat.conversation.user_messages";
  m_tool_used := "chat.tool.used";
  m_tool_elapsed_time := "chat.tool.elapsed_time";
  m_stream_duration := "chat.stream.duration";
  m_stream_chunks := "chat.stream.chunks";
  m_stream_tools_used := "chat.stream.tools_used";
  m_query_error := "chat.api.query_error";
  m_stream_error := "chat.api.stream_error";
  m_api_error := "chat.api.error";
  m_api_duration := "chat.api.duration";
  l_missing_messages := "Chat API validation failed: missing messages array";
  l_no_user_message := "Chat API validation failed: no user message found";
  l_processing := "Processing chat request";
  l_starting := "Starting Claude Agent SDK query";
  l_tool_started := "Tool execution started";
  l_completed := "Chat request completed successfully";
  l_query_failed := "Claude query failed";
  l_stream_error := "Stream error occurred";
  l_api_error := "Chat API error";
  failed_to_process := "Failed to process chat request. Check server logs for details."
|}.

Definition competitive_research : Endpoint := {|
  SYSTEM_PROMPT := research_system_prompt;
  reads_model := true;
  default_model := "claude-sonnet-4-5-20250929";
  m_validation_error := "competitive_research.api.validation_error";
  m_request := "competitive_research.api.request";
  m_conversation_messages := "competitive_research.conversation.messages";
  m_conversation_user_messages := "competitive_research.conversation.user_messages";
  m_tool_used := "competitive_research.tool.used";
  m_tool_elapsed_time := "competitive_research.tool.elapsed_time";
  m_stream_duration := "competitive_research.stream.duration";
  m_stream_chunks := "competitive_research.stream.chunks";
  m_stream_tools_used := "competitive_research.stream.tools_used";
  m_query_error := "competitive_research.api.query_error";
  m_stream_error := "competitive_research.api.stream_error";
  m_api_error := "competitive_research.api.error";
  m_api_duration := "competitive_research.api.duration";
  l_missing_messages :=
    "Competitive Research API validation failed: missing messages array";
  l_no_user_message :=
    "Competitive Research API validation failed: no user message found";
  l_processing := "Processing competitive research request";
  l_starting := "Starting Claude Agent SDK query for competitive research";
  l_tool_started := "Tool execution started in competitive research";
  l_completed := "Competitive research request completed successfully";
  l_query_failed := "Claude query failed in competitive research";
  l_stream_error := "Stream error occurred in competitive research";
  l_api_error := "Competitive Research API error";
  failed_to_process :=
    "Failed to process competitive research request. Check server logs for details."
|}.

(** The handlers of the repository. *)
Inductive Route := ChatRoute | CompetitiveResearchRoute.

Definition endpoint (r : Route) : Endpoint :=
  match r with
  | ChatRoute => chat
  | CompetitiveResearchRoute => competitive_research
  end.

(** ** Outbound frames and the stream controller *)

Inductive Frame :=
| TextDelta (text : string)
| ToolStart (tool : string)
| ToolProgress (tool : string) (elapsed : Number)
| Done
| Error (message : string).

(** [JSON.stringify] of the object literal of each frame. *)
Definition frame_json (f : Frame) : string :=
  match f with
  | TextDelta text =>
      json_object [("type", json_string "text_delta"); ("text", json_string text)]
  | ToolStart tool =>
      json_object [("type", json_string "tool_start"); ("tool", json_string tool)]
  | ToolProgress tool elapsed =>
      json_object [("type", json_string "tool_progress"); ("tool", json_string tool);
                   ("elapsed", number_to_json elapsed)]
  | Done => json_object [("type", json_string "done")]
  | Error message =>
      json_object [("type", json_string "error"); ("message", json_string message)]
  end.

Inductive Chunk :=
| FrameChunk (f : Frame)
| Sentinel.

(** The text of a chunk, as given to [encoder.encode]. *)
Definition wire (c : Chunk) : string :=
  match c with
  | FrameChunk f => "data: " ++ frame_json f ++ nl ++ nl
  | Sentinel => "data: [DONE]" ++ nl ++ nl
  end.

(** The stream, seen from its controller: the chunks enqueued, in order,
    whether [close] was called, and whether the stream is errored, which it
    is when the promise of [start] rejects.  An errored stream drops the
    chunks its consumer has not read yet. *)
Record Controller := { queue : list Chunk; closed : bool; errored : bool }.

Definition enqueue (c : Chunk) (ctl : Controller) : Controller :=
  {| queue := queue ctl ++ [c]; closed := closed ctl; errored := errored ctl |}.

Definition close (ctl : Controller) : Controller :=
  {| queue := queue ctl; closed := true; errored := errored ctl |}.

(** The promise of [start] rejects. *)
Definition reject (ctl : Controller) : Controller :=
  {| queue := queue ctl; closed := closed ctl; errored := true |}.


(** ** The relay: the [start] callback of the stream *)

(** The variables the callback closes over, with the world. *)
Record Relay := {
  controller : Controller;
  toolsUsed : list string;
  textChunksStreamed : nat;
  world : World
}.

Definition send (f : Frame) (r : Relay) : Relay :=
  {| controller := enqueue (FrameChunk f) (controller r);
     toolsUsed := toolsUsed r;
     textChunksStreamed := textChunksStreamed r;
     world := world r |}.

Definition note (t : Telemetry) (r : Relay) : Relay :=
  {| controller := controller r;
     toolsUsed := toolsUsed r;
     textChunksStreamed := textChunksStreamed r;
     world := tell t (world r) |}.

Definition with_world (w : World) (r : Relay) : Relay :=
  {| controller := controller r;
     toolsUsed := toolsUsed r;
     textChunksStreamed := textChunksStreamed r;
     world := w |}.

(** [if (message.type === 'stream_event' && 'event' in message) ...] *)
Definition on_stream_event (message : SDKMessage) (r : Relay) : Relay :=
  match message with
  | SDKPartialAssistantMessage (ContentBlockDelta (Some (TextDeltaOf text))) =>
      send (TextDelta text)
        {| controller := controller r;
           toolsUsed := toolsUsed r;
           textChunksStreamed := S (textChunksStreamed r);
           world := world r |}
  | _ => r
  end.

(** The body of [for (const block of content)]. *)
Definition on_block (ep : Endpoint) (r : Relay) (block : Block) : Relay :=
  match block with
  | ToolUse name =>
      let r1 := {| controller := controller r;
                   toolsUsed := set_add name (toolsUsed r);
                   textChunksStreamed := textChunksStreamed r;
                   world := world r |} in
      let r2 := note (Increment (m_tool_used ep) 1 [("tool_name", name)]) r1 in
      let r3 := note (Log Info (l_tool_started ep) [("toolName", FText name)] None) r2 in
      send (ToolStart name) r3
  | OtherBlock => r
  end.

(** [if (message.type === 'assistant' && 'message' in message) ...] *)
Definition on_assistant (ep : Endpoint) (message : SDKMessage) (r : Relay) : Relay :=
  match message with
  | SDKAssistantMessage (Some content) => fold_left (on_block ep) content r
  | _ => r
  end.

(** [if (message.type === 'tool_progress') ...] *)
Definition on_tool_progress (ep : Endpoint) (message : SDKMessage) (r : Relay) : Relay :=
  match message with
  | SDKToolProgressMessage tool_name elapsed_time_seconds =>
      let r1 := note (Gauge (m_tool_elapsed_time ep) (Reading elapsed_time_seconds)
                        [("tool_name", tool_name)]) r in
      send (ToolProgress tool_name elapsed_time_seconds) r1
  | _ => r
  end.

(** [if (message.type === 'result' && message.subtype === 'success') ...] *)
Definition on_success (ep : Endpoint) (host : Host) (streamStartTime : Z)
  (message : SDKMessage) (r : Relay) : Relay :=
  match message with
  | SDKResultMessage subtype =>
      if subtype =? "success" then
        let (t, w) := read_clock host (world r) in
        let streamDuration := seconds_since streamStartTime t in
        let r1 := with_world w r in
        let r2 := note (Timing (m_stream_duration ep) streamDuration
                          [("status", "success")]) r1 in
        let r3 := note (Gauge (m_stream_chunks ep) (Count (textChunksStreamed r2)) []) r2 in
        let r4 := note (Gauge (m_stream_tools_used ep) (Count (length (toolsUsed r3))) []) r3 in
        let r5 := note (Log Info (l_completed ep)
                          [("streamDuration", FSeconds streamDuration);
                           ("textChunksStreamed", FCount (textChunksStreamed r4));
                           ("toolsUsed", FNames (toolsUsed r4));
                           ("toolCount", FCount (length (toolsUsed r4)))] None) r4 in
        send Done r5
      else r
  | _ => r
  end.

(** [if (message.type === 'result' && message.subtype !== 'success') ...] *)
Definition on_failure (ep : Endpoint) (message : SDKMessage) (r : Relay) : Relay :=
  match message with
  | SDKResultMessage subtype =>
      if negb (subtype =? "success") then
        let r1 := note (Increment (m_query_error ep) 1 [("subtype", subtype)]) r in
        let r2 := note (Log Severe (l_query_failed ep)
                          [("subtype", FText subtype);
                           ("toolsUsed", FNames (toolsUsed r1))] None) r1 in
        send (Error "Query did not complete successfully") r2
      else r
  | _ => r
  end.

(** One turn of the [for await] loop: the five [if]s in order. *)
Definition on_message (ep : Endpoint) (host : Host) (streamStartTime : Z)
  (r : Relay) (message : SDKMessage) : Relay :=
  let r1 := on_stream_event message r in
  let r2 := on_assistant ep message r1 in
  let r3 := on_tool_progress ep message r2 in
  let r4 := on_success ep host streamStartTime message r3 in
  on_failure ep message r4.

Definition relay_all (ep : Endpoint) (host : Host) (streamStartTime : Z)
  (messages : list SDKMessage) (r : Relay) : Relay :=
  fold_left (on_message ep host streamStartTime) messages r.

(** After the loop: the sentinel and the close. *)
Definition finish (r : Relay) : Relay :=
  {| controller := close (enqueue Sentinel (controller r));
     toolsUsed := toolsUsed r;
     textChunksStreamed := textChunksStreamed r;
     world := world r |}.

(** The [catch] block of the callback.  The argument of the logger is an
    object literal, evaluated before the call and outside the [try] of the
    wrapper: when [new Error(String(error))] raises, the [catch] block ends
    there, before the log, the error frame and the close, and the promise
    of [start] rejects. *)
Definition on_stream_exception (ep : Endpoint) (host : Host) (streamStartTime : Z)
  (error : Raise) (r : Relay) : Relay :=
  let (t, w) := read_clock host (world r) in
  let streamDuration := seconds_since streamStartTime t in
  let r1 := with_world w r in
  let r2 := note (Increment (m_stream_error ep) 1 []) r1 in
  let r3 := note (Timing (m_stream_duration ep) streamDuration [("status", "error")]) r2 in
  match raise_as_error error with
  | Val as_an_error =>
      let r4 := note (Log Severe (l_stream_error ep)
                        [("error", FText (raise_message error));
                         ("streamDuration", FSeconds streamDuration);
                         ("textChunksStreamed", FCount (textChunksStreamed r3));
                         ("toolsUsed", FNames (toolsUsed r3))]
                        (Some as_an_error)) r3 in
      let r5 := send (Error "Stream error occurred") r4 in
      {| controller := close (controller r5);
         toolsUsed := toolsUsed r5;
         textChunksStreamed := textChunksStreamed r5;
         world := world r5 |}
  | Exn _ =>
      {| controller := reject (controller r3);
         toolsUsed := toolsUsed r3;
         textChunksStreamed := textChunksStreamed r3;
         world := world r3 |}
  end.

(** The options literal passed to [query]. *)
Definition query_options (ep : Endpoint) (host : Host) (requested : option Json) : Options :=
  {| maxTurns := 10;
     model := if reads_model ep then Some (or_else requested (default_model ep)) else None;
     tools := ("preset", "claude_code");
     permissionMode := "bypassPermissions";
     allowDangerouslySkipPermissions := true;
     includePartialMessages := true;
     cwd := process_cwd host |}.

(** [async start(controller)], run to the end of the upstream sequence. *)
Definition start (ep : Endpoint) (host : Host) (streamStartTime : Z)
  (fullPrompt : string) (requested : option Json) (w : World) : Relay :=
  let r0 := {| controller := {| queue := []; closed := false; errored := false |};
               toolsUsed := [];
               textChunksStreamed := 0;
               world := w |} in
  let r1 := note (Log Debug (l_starting ep)
                    (("promptLength", FCount (String.length fullPrompt))
                     :: (if reads_model ep
                         then [("model", FJson (or_else requested "default"))]
                         else []))
                    None) r0 in
  let (run, w2) :=
    call_query host {| prompt := fullPrompt; options := query_options ep host requested |}
      (world r1) in
  let r2 := relay_all ep host streamStartTime (yielded run) (with_world w2 r1) in
  match ending run with
  | Returned => finish r2
  | Raised error => on_stream_exception ep host streamStartTime error r2
  end.

(** ** The handler *)

Record Request := { json : Outcome Json }.

Inductive Body :=
| JsonBody (text : string)
| StreamBody (stream : Controller).

Record Response := {
  status : nat;
  headers : list (string * string);
  body : Body
}.

(** [new Response(JSON.stringify({ error }), { status, headers })] *)
Definition error_response (code : nat) (error : string) : Response :=
  {| status := code;
     headers := [("Content-Type", "application/json")];
     body := JsonBody (json_object [("error", json_string error)]) |}.

(** [new Response(stream, { headers })] *)
Definition stream_response (stream : Controller) : Response :=
  {| status := 200;
     headers := [("Content-Type", "text/event-stream");
                 ("Cache-Control", "no-cache");
                 ("Connection", "keep-alive")];
     body := StreamBody stream |}.

(** [messages.filter(m => m.role === 'user')] *)
Fixpoint filter_user (items : list Json) : Outcome (list Json) :=
  match items with
  | [] => Val []
  | m :: rest =>
      match member m "role" with
      | Exn t => Exn t
      | Val role =>
          match filter_user rest with
          | Exn t => Exn t
          | Val users => Val (if is_string role "user" then m :: users else users)
          end
      end
  end.

(** [lastUserMessage.content.substring(0, 100)] *)
Definition messagePreview (content : option Json) : Outcome string :=
  match content with
  | Some (JStr s) => Val (substring 0 100 s)
  | None => Exn (type_error "Cannot read properties of undefined (reading 'substring')")
  | Some JNull => Exn (type_error "Cannot read properties of null (reading 'substring')")
  | Some _ => Exn (type_error "lastUserMessage.content.substring is not a function")
  end.

(** The template of one history line. *)
Definition render_turn (m : Json) : Outcome string :=
  match member m "role" with
  | Exn t => Exn t
  | Val role =>
      match member m "content" with
      | Exn t => Exn t
      | Val content =>
          match to_string_opt content with
          | Exn t => Exn t
          | Val text =>
              Val ((if is_string role "user" then "User" else "Assistant") ++ ": " ++ text)
          end
      end
  end.

Fixpoint render_turns (items : list Json) : Outcome (list string) :=
  match items with
  | [] => Val []
  | m :: rest =>
      match render_turn m with
      | Exn t => Exn t
      | Val line =>
          match render_turns rest with
          | Exn t => Exn t
          | Val lines => Val (line :: lines)
          end
      end
  end.

(** [messages.slice(0, -1).map(...).join('\n\n')] *)
Definition conversationContext (items : list Json) : Outcome string :=
  match render_turns (removelast items) with
  | Exn t => Exn t
  | Val lines => Val (join (nl ++ nl) lines)
  end.

(** The two templates of [fullPrompt]. *)
Definition fullPrompt (ep : Endpoint) (context content : string) : string :=
  if negb (context =? EmptyString)
  then SYSTEM_PROMPT ep ++ nl ++ nl ++ "Previous conversation:" ++ nl ++ context
       ++ nl ++ nl ++ "User: " ++ content
  else SYSTEM_PROMPT ep ++ nl ++ nl ++ "User: " ++ content.

(** The handler from the validated array on. *)
Definition converse (ep : Endpoint) (host : Host) (items : list Json)
  (requested : option Json) : M Response :=
  users <- lift (filter_user items) ;;
  let userMessageCount := length users in
  let conversationLength := length items in
  sentryMetrics_increment (m_request ep) 1
    [("conversation_length", nat_to_string conversationLength)] ;;;
  sentryMetrics_gauge (m_conversation_messages ep) (Count conversationLength)
    [("type", "total")] ;;;
  sentryMetrics_gauge (m_conversation_user_messages ep) (Count userMessageCount)
    [("type", "user")] ;;;
  users' <- lift (filter_user items) ;;
  match pop users' with
  | None =>
      sentryMetrics_increment (m_validation_error ep) 1
        [("error_type", "no_user_message")] ;;;
      sentryLogger Warn (l_no_user_message ep)
        [("messageCount", FCount (length items));
         ("userMessageCount", FCount userMessageCount)] None ;;;
      ret (error_response 400 "No user message found")
  | Some lastUserMessage =>
      content <- lift (member lastUserMessage "content") ;;
      preview <- lift (messagePreview content) ;;
      sentryLogger Info (l_processing ep)
        ([("conversationLength", FCount conversationLength);
          ("userMessageCount", FCount userMessageCount);
          ("messagePreview", FText preview);
          ("hasContext", FBool (Nat.ltb 1 conversationLength))]
         ++ (if reads_model ep
             then [("modelRequested", FJson (or_else requested "default"))]
             else [])) None ;;;
      context <- lift (conversationContext items) ;;
      text <- lift (to_string_opt content) ;;
      let prompt := fullPrompt ep context text in
      streamStartTime <- date_now host ;;
      fun w =>
        let r := start ep host streamStartTime prompt requested w in
        (Val (stream_response (controller r)), world r)
  end.

(** The handler from the destructured body on. *)
Definition validate (ep : Endpoint) (host : Host) (messages requested : option Json)
  : M Response :=
  if negb (truthy messages) || negb (isArray messages) then
    sentryMetrics_increment (m_validation_error ep) 1
      [("error_type", "missing_messages")] ;;;
    sentryLogger Warn (l_missing_messages ep)
      [("hasMessages", FBool (truthy messages));
       ("isArray", FBool (isArray messages))] None ;;;
    ret (error_response 400 "Messages array is required")
  else converse ep host (items_of messages) requested.

(** The body of the outer [try]. *)
Definition attempt (ep : Endpoint) (host : Host) (request : Request) : M Response :=
  parsed <- lift (json request) ;;
  messages <- lift (destructure parsed "messages") ;;
  requested <- (if reads_model ep then lift (destructure parsed "model") else ret None) ;;
  validate ep host messages requested.

(** The outer [catch]. *)
Definition on_exception (ep : Endpoint) (host : Host) (requestStartTime : Z)
  (error : Thrown) : M Response :=
  t <- date_now host ;;
  let requestDuration := seconds_since requestStartTime t in
  sentryMetrics_increment (m_api_error ep) 1 [] ;;;
  sentryMetrics_timing (m_api_duration ep) requestDuration [("status", "error")] ;;;
  sentryLogger Severe (l_api_error ep)
    [("error", FText (error_message error));
     ("requestDuration", FSeconds requestDuration)]
    (Some (as_error error)) ;;;
  ret (error_response 500 (failed_to_process ep)).

Definition POST (ep : Endpoint) (host : Host) (request : Request) : M Response :=
  requestStartTime <- date_now host ;;
  try_catch (attempt ep host request) (on_exception ep host requestStartTime).

(** The response of a handler to a request, from a fresh world. *)
Definition respond (ep : Endpoint) (host : Host) (request : Request) : Outcome Response :=
  fst (POST ep host request World0).

Definition aftermath (ep : Endpoint) (host : Host) (request : Request) : World :=
  snd (POST ep host request World0).

(** ** Well-typed requests *)

(** [interface MessageInput { role: 'user' | 'assistant'; content: string }] *)
Inductive Role := user | assistant.

Record MessageInput := { role : Role; content : string }.

Definition role_name (r : Role) : string :=
  match r with
  | user => "user"
  | assistant => "assistant"
  end.

Definition message_json (m : MessageInput) : Json :=
  JObj [("role", JStr (role_name (role m))); ("content", JStr (content m))].

(** A body of the declared type: [{ messages }] for the chat endpoint and
    [{ messages, model }] when a model is selected. *)
Definition body_json (messages : list MessageInput) (selected : option string) : Json :=
  JObj (("messages", JArr (map message_json messages))
        :: match selected with
           | Some name => [("model", JStr name)]
           | None => []
           end).

Definition typed_request (messages : list MessageInput) (selected : option string) : Request :=
  {| json := Val (body_json messages selected) |}.

(** A parsed value that has the declared type of a turn. *)
Definition typed_as (j : Json) (m : MessageInput) : Prop :=
  member j "role" = Val (Some (JStr (role_name (role m))))
  /\ member j "content" = Val (Some (JStr (content m))).

(** The line a turn contributes to the transcript. *)
Definition turn_line (m : MessageInput) : string :=
  (match role m with user => "User" | assistant => "Assistant" end) ++ ": " ++ content m.

(** The content of the last turn of role user, if there is one. *)
Fixpoint last_user_content (messages : list MessageInput) : option string :=
  match messages with
  | [] => None
  | m :: rest =>
      match last_user_content rest with
      | Some c => Some c
      | None => match role m with user => Some (content m) | assistant => None end
      end
  end.

(** The turns of role user. *)
Definition is_user (m : MessageInput) : bool :=
  match role m with user => true | assistant => false end.

(** The prompt of a well-typed conversation whose last user turn says
    [active]: the transcript holds every turn but the last one. *)
Definition transcript (messages : list MessageInput) : list string :=
  map turn_line (removelast messages).

Definition prompt_of (ep : Endpoint) (messages : list MessageInput) (active : string)
  : string :=
  fullPrompt ep (join (nl ++ nl) (transcript messages)) active.

(** The [model] member a handler reads off a well-typed body. *)
Definition requested_model (ep : Endpoint) (selected : option string) : option Json :=
  if reads_model ep then option_map JStr selected else None.

(** ** Observations *)

(** The upstream events a message stands for. *)
Definition stream_delta (m : SDKMessage) : list string :=
  match m with
  | SDKPartialAssistantMessage (ContentBlockDelta (Some (TextDeltaOf text))) => [text]
  | _ => []
  end.

Definition tool_use_names (blocks : list Block) : list string :=
  flat_map (fun b => match b with ToolUse name => [name] | OtherBlock => [] end) blocks.

Definition tool_invocation (m : SDKMessage) : list string :=
  match m with
  | SDKAssistantMessage (Some blocks) => tool_use_names blocks
  | _ => []
  end.


Definition completion_failure (m : SDKMessage) : bool :=
  match m with
  | SDKResultMessage subtype => negb (subtype =? "success")
  | _ => false
  end.


(** The frames one upstream message is relayed as. *)
Definition emitted (m : SDKMessage) : list Frame :=
  match m with
  | SDKPartialAssistantMessage (ContentBlockDelta (Some (TextDeltaOf text))) => [TextDelta text]
  | SDKAssistantMessage (Some blocks) => map ToolStart (tool_use_names blocks)
  | SDKToolProgressMessage tool_name elapsed => [ToolProgress tool_name elapsed]
  | SDKResultMessage subtype =>
      if subtype =? "success" then [Done] else [Error "Query did not complete successfully"]
  | _ => []
  end.

(** Distinct names in order of first occurrence. *)
Definition distinct (names : list string) : list string :=
  fold_left (fun s name => set_add name s) names [].

(** What a client reads off the outbound chunks. *)
Definition text_deltas (q : list Chunk) : list string :=
  flat_map (fun c => match c with FrameChunk (TextDelta text) => [text] | _ => [] end) q.

Definition tool_starts (q : list Chunk) : list string :=
  flat_map (fun c => match c with FrameChunk (ToolStart tool) => [tool] | _ => [] end) q.



Definition is_sentinel (c : Chunk) : bool :=
  match c with Sentinel => true | _ => false end.

Definition is_tool_start (name : string) (c : Chunk) : bool :=
  match c with FrameChunk (ToolStart tool) => tool =? name | _ => false end.

Definition count {A : Type} (p : A -> bool) (l : list A) : nat := length (filter p l).


(** The last telemetry record. *)
Definition last_record (w : World) : option Telemetry :=
  match rev (sink w) with
  | [] => None
  | t :: _ => Some t
  end.

(** The upstream run a request was relayed from: what [query] returned on
    the one call the handler made. *)
Definition upstream_of (ep : Endpoint) (host : Host) (request : Request) : option Run :=
  match queries (aftermath ep host request) with
  | [call] => Some (query host call)
  | _ => None
  end.

(** The stream of a response, if it has one. *)
Definition stream_of (o : Outcome Response) : option Controller :=
  match o with
  | Val {| body := StreamBody c |} => Some c
  | _ => None
  end.

(** The text of an error body. *)
Definition error_body (message : string) : string :=
  "{" ++ dq ++ "error" ++ dq ++ ":" ++ dq ++ message ++ dq ++ "}".

(** A host for examples: a clock that advances one second per reading and
    an SDK that answers every call with the given run. *)
Definition example_host (run : Run) : Host :=
  {| now := fun n => Z.of_nat (1000 * n);
     process_cwd := "/app";
     query := fun _ => run |}.

(** What a step of the relay may change, relative to the state before it. *)
Record Advance (r r' : Relay) (frames : list Frame) (names : list string)
  (fragments : nat) : Prop := {
  adv_queue : queue (controller r') = (queue (controller r) ++ map FrameChunk frames)%list;
  adv_closed : closed (controller r') = closed (controller r);
  adv_errored : errored (controller r') = errored (controller r);
  adv_tools : toolsUsed r' = fold_left (fun s name => set_add name s) names (toolsUsed r);
  adv_chunks : textChunksStreamed r' = textChunksStreamed r + fragments;
  adv_queries : queries (world r') = queries (world r)
}.


(** ** What the specification asks of a stream *)



(** ** Example requests and runs *)

Definition hello : list MessageInput := [{| role := user; content := "Hello" |}].

Definition run_success : Run :=
  {| yielded := [SDKPartialAssistantMessage (ContentBlockDelta (Some (TextDeltaOf "Hi")));
                 SDKPartialAssistantMessage (ContentBlockDelta (Some (TextDeltaOf " there")));
                 SDKResultMessage "success"];
     ending := Returned |}.

Definition run_raised : Run :=
  {| yielded := [SDKPartialAssistantMessage (ContentBlockDelta (Some (TextDeltaOf "Hi")));
                 SDKAssistantMessage (Some [ToolUse "WebSearch"])];
     ending := Raised (Convertible (ErrorObject "socket hang up")) |}.

Definition run_unprintable : Run :=
  {| yielded := [SDKPartialAssistantMessage (ContentBlockDelta (Some (TextDeltaOf "Hi")));
                 SDKAssistantMessage (Some [ToolUse "WebSearch"])];
     ending := Raised Inconvertible |}.


Definition run_websearch_thrice : Run :=
  {| yielded := [SDKAssistantMessage (Some [ToolUse "WebSearch"]);
                 SDKAssistantMessage (Some [ToolUse "WebSearch"]);
                 SDKAssistantMessage (Some [ToolUse "WebSearch"]);
                 SDKResultMessage "success"];
     ending := Returned |}.

(** The streams these runs are relayed as. *)
Definition stream_success : Controller :=
  {| queue := [FrameChunk (TextDelta "Hi"); FrameChunk (TextDelta " there");
               FrameChunk Done; Sentinel];
     closed := true; errored := false |}.

Definition stream_raised : Controller :=
  {| queue := [FrameChunk (TextDelta "Hi"); FrameChunk (ToolStart "WebSearch");
               FrameChunk (Error "Stream error occurred")];
     closed := true; errored := false |}.

Definition stream_errored : Controller :=
  {| queue := [FrameChunk (TextDelta "Hi"); FrameChunk (ToolStart "WebSearch")];
     closed := false; errored := true |}.

Definition stream_raised_after_success : Controller :=
  {| queue := [FrameChunk (TextDelta "Hi"); FrameChunk Done;
               FrameChunk (Error "Stream error occurred")];
     closed := true; errored := false |}.

Definition stream_websearch_thrice : Controller :=
  {| queue := [FrameChunk (ToolStart "WebSearch"); FrameChunk (ToolStart "WebSearch");
               FrameChunk (ToolStart "WebSearch"); FrameChunk Done; Sentinel];
     closed := true; errored := false |}.

(** The outer [try] raises [t]: the setup fails before any response. *)
Definition setup_raises (ep : Endpoint) (host : Host) (request : Request) (t : Thrown)
  : Prop :=
  fst (attempt ep host request (snd (read_clock host World0))) = Exn t.

(** Bodies used as examples. *)
Definition empty_body : Request := {| json := Val (JObj []) |}.

Definition turns_body : Request :=
  {| json := Val (JObj [("turns",
                         JArr [JObj [("role", JStr "assistant");
                                     ("content", JStr "hi")]])]) |}.

Definition assistant_only_body : Request :=
  {| json := Val (JObj [("messages",
                         JArr [JObj [("role", JStr "assistant");
                                     ("content", JStr "hi")]])]) |}.

Definition empty_array_body : Request :=
  {| json := Val (JObj [("messages", JArr [])]) |}.

Definition malformed_body : Request :=
  {| json := Exn (ErrorObject "Unexpected end of JSON input") |}.

(** Ill-typed bodies. *)
Definition null_body : Request := {| json := Val JNull |}.

Definition null_turn_body : Request :=
  {| json := Val (JObj [("messages", JArr [JNull])]) |}.

Definition numeric_content_body : Request :=
  {| json := Val (JObj [("messages",
                         JArr [JObj [("role", JStr "user"); ("content", JNum "42")]])]) |}.

Definition mixed_history_body : Request :=
  {| json := Val (JObj [("messages",
                         JArr [JObj [("role", JStr "system");
                                     ("content", JArr [JStr "a"; JNull; JNum "1"])];
                               JObj [("role", JStr "user"); ("content", JStr "C")]])]) |}.

(** The ways a handler can settle a request, from a world [w]: the four
    responses and, inside the outer [try], a raised value. *)
Inductive Verdict (ep : Endpoint) (host : Host) (w : World) :
  Outcome Response -> World -> Prop :=
| MissingMessages w' :
    queries w' = queries w ->
    Verdict ep host w (Val (error_response 400 "Messages array is required")) w'
| NoUserMessage w' :
    queries w' = queries w ->
    Verdict ep host w (Val (error_response 400 "No user message found")) w'
| SetupFailed w' :
    queries w' = queries w ->
    Verdict ep host w (Val (error_response 500 (failed_to_process ep))) w'
| Raises t w' :
    queries w' = queries w ->
    Verdict ep host w (Exn t) w'
| Streaming streamStartTime fullPrompt requested w1 :
    queries w1 = queries w ->
    Verdict ep host w
      (Val (stream_response
              (controller (start ep host streamStartTime fullPrompt requested w1))))
      (world (start ep host streamStartTime fullPrompt requested w1)).

(** ** Further observations on requests *)

(** [m.role === 'user'], for a turn that can be read. *)
Definition role_is_user (m : Json) : bool :=
  match member m "role" with
  | Val role => is_string role "user"
  | Exn _ => false
  end.

(** The [model] member as the handler of an endpoint takes it. *)
Definition requested_of (ep : Endpoint) (parsed : Json) : option Json :=
  if reads_model ep
  then match destructure parsed "model" with
       | Val v => v
       | Exn _ => None
       end
  else None.

(** What the callback enqueues after the frames of the messages: the
    sentinel when the iteration returned, the stream-error frame when it
    raised a value [String] converts, nothing when it raised another. *)
Definition closing (e : Ending) : list Chunk :=
  match e with
  | Returned => [Sentinel]
  | Raised (Convertible _) => [FrameChunk (Error "Stream error occurred")]
  | Raised Inconvertible => []
  end.

(** The iteration raised a value that has no string conversion. *)
Definition unprintable (e : Ending) : bool :=
  match e with
  | Raised Inconvertible => true
  | _ => false
  end.

(** Further example bodies. *)
Definition string_messages_body : Request :=
  {| json := Val (JObj [("messages", JStr "hello")]) |}.

Definition capitalised_role_body : Request :=
  {| json := Val (JObj [("messages",
                         JArr [JObj [("role", JStr "User"); ("content", JStr "hi")]])]) |}.

Definition missing_content_body : Request :=
  {| json := Val (JObj [("messages",
                         JArr [JObj [("role", JStr "user")];
                               JObj [("role", JStr "assistant");
                                     ("content", JStr "hi")]])]) |}.

Definition run_mixed : Run :=
  {| yielded := [SDKOtherMessage;
                 SDKPartialAssistantMessage OtherEvent;
                 SDKPartialAssistantMessage (ContentBlockDelta (Some (TextDeltaOf "Hi")));
                 SDKAssistantMessage (Some [OtherBlock; ToolUse "WebSearch"; ToolUse "Read";
                                            ToolUse "WebSearch"]);
                 SDKToolProgressMessage "WebSearch" "1.5";
                 SDKResultMessage "error_max_turns"];
     ending := Returned |}.

Definition stream_mixed : Controller :=
  {| queue := [FrameChunk (TextDelta "Hi");
               FrameChunk (ToolStart "WebSearch"); FrameChunk (ToolStart "Read");
               FrameChunk (ToolStart "WebSearch");
               FrameChunk (ToolProgress "WebSearch" "1.5");
               FrameChunk (Error "Query did not complete successfully");
               Sentinel];
     closed := true; errored := false |}.

(** * The client of the competitive-research endpoint

    [src/components/desktop/apps/CompetitiveResearch.tsx]: [sendMessage],
    with the state of the component it reads and sets.  The browser is a
    parameter: the clock, [crypto.randomUUID], [String.prototype.trim],
    [JSON.parse] and [fetch].  A response body is the list of the texts its
    reader yields, decoded, followed by the end of the body or a failure of
    the read.  The state setters are applied at once. *)

(** [s.split('\n')] *)
Fixpoint split_lines (s : string) : list string :=
  match s with
  | EmptyString => [EmptyString]
  | String c rest =>
      if Ascii.eqb c "010" then EmptyString :: split_lines rest
      else match split_lines rest with
           | [] => [String c EmptyString]
           | line :: lines => String c line :: lines
           end
  end.

(** The text has a line feed in it. *)
Fixpoint has_newline (s : string) : bool :=
  match s with
  | EmptyString => false
  | String c rest => Ascii.eqb c "010" || has_newline rest
  end.

(** [s.slice(n)] *)
Definition slice (n : nat) (s : string) : string :=
  substring n (String.length s - n) s.

(** The value [JSON.parse] gives back for the text of a number. *)
Definition number_value (x : Number) : Json :=
  if (x =? "Infinity") || (x =? "-Infinity") || (x =? "NaN") then JNull else JNum x.

(** The object literal of a frame, as a value. *)
Definition frame_value (f : Frame) : Json :=
  match f with
  | TextDelta text => JObj [("type", JStr "text_delta"); ("text", JStr text)]
  | ToolStart tool => JObj [("type", JStr "tool_start"); ("tool", JStr tool)]
  | ToolProgress tool elapsed =>
      JObj [("type", JStr "tool_progress"); ("tool", JStr tool);
            ("elapsed", number_value elapsed)]
  | Done => JObj [("type", JStr "done")]
  | Error message => JObj [("type", JStr "error"); ("message", JStr message)]
  end.

(** A frame whose number, if it has one, is printed on one line. *)
Definition printable (f : Frame) : bool :=
  match f with
  | ToolProgress _ elapsed => negb (has_newline (number_to_json elapsed))
  | _ => true
  end.

(** The frames of a queue of chunks, and the text of a group of chunks that
    one read of the body delivers together. *)
Definition frames_of (q : list Chunk) : list Frame :=
  flat_map (fun c => match c with FrameChunk f => [f] | Sentinel => [] end) q.

Definition delivered (group : list Chunk) : string :=
  String.concat EmptyString (map wire group).

(** The line of a chunk. *)
Definition data_line (c : Chunk) : string :=
  match c with
  | FrameChunk f => "data: " ++ frame_json f
  | Sentinel => "data: [DONE]"
  end.

Module Client.

Definition to_input (r : Role) (c : string) : MessageInput :=
  {| role := r; content := c |}.

Record Message := {
  id : string;
  role : Role;
  content : string;
  timestamp : Z
}.

(** [{ role: m.role, content: m.content }] *)
Definition as_input (m : Message) : MessageInput := to_input (role m) (content m).

(** [ToolStatus]; the name is whatever the frame carried. *)
Record ToolStatus := {
  name : option Json;
  status : string;
  elapsed : option Json
}.

Inductive Model := sonnet | opus | haiku.

Definition model_name (m : Model) : string :=
  match m with
  | sonnet => "sonnet"
  | opus => "opus"
  | haiku => "haiku"
  end.

Definition modelIds (m : Model) : string :=
  match m with
  | sonnet => "claude-sonnet-4-5-20250929"
  | opus => "claude-opus-4-6"
  | haiku => "claude-haiku-4-5-20251001"
  end.

(** The state of the component. *)
Record State := {
  messages : list Message;
  input : string;
  isLoading : bool;
  currentTool : option ToolStatus;
  selectedModel : Model
}.

(** How the reads of a body end: the body is over, or a read rejects.  A
    read rejects with an [Error] of the browser. *)
Inductive Ending :=
| Returned
| Raised (t : Thrown).

(** What a response body yields. *)
Record Reads := { chunks : list string; ended : Ending }.

Inductive FetchResult :=
| NetworkError (t : Thrown)
| Responded (code : nat) (statusText : string) (body : option Reads).

Record Browser := {
  now : nat -> Z;
  randomUUID : nat -> string;
  trim : string -> string;
  parse : string -> Outcome Json;
  fetch : Json -> FetchResult
}.

(** Telemetry of the component. *)
Inductive Datum :=
| DCount (n : nat)
| DSeconds (q : QArith_base.Q)
| DText (s : string)
| DValue (v : option Json)
| DValues (vs : list (option Json)).

Inductive Record_ :=
| UiIncrement (metric : string) (value : nat) (tags : list (string * Datum))
| UiGauge (metric : string) (value : nat)
| UiTiming (metric : string) (seconds : QArith_base.Q)
| UiLog (level : Level) (message : string) (context : list (string * Datum))
        (error : option string).

Record World := {
  ticks : nat;
  uuids : nat;
  sink : list Record_;
  fetched : list Json
}.

Definition World0 : World := {| ticks := 0; uuids := 0; sink := []; fetched := [] |}.

(** [Date.now()] and [new Date()] *)
Definition read_clock (b : Browser) (w : World) : Z * World :=
  (now b (ticks w),
   {| ticks := S (ticks w); uuids := uuids w; sink := sink w; fetched := fetched w |}).

(** [crypto.randomUUID()] *)
Definition fresh_uuid (b : Browser) (w : World) : string * World :=
  (randomUUID b (uuids w),
   {| ticks := ticks w; uuids := S (uuids w); sink := sink w; fetched := fetched w |}).

Definition tell (t : Record_) (w : World) : World :=
  {| ticks := ticks w; uuids := uuids w; sink := (sink w ++ [t])%list;
     fetched := fetched w |}.

Definition tell_all (ts : list Record_) (w : World) : World :=
  fold_left (fun w t => tell t w) ts w.

Definition call_fetch (b : Browser) (body : Json) (w : World) : FetchResult * World :=
  (fetch b body,
   {| ticks := ticks w; uuids := uuids w; sink := sink w;
      fetched := (fetched w ++ [body])%list |}).

(** The setters. *)
Definition setMessages (f : list Message -> list Message) (s : State) : State :=
  {| messages := f (messages s); input := input s; isLoading := isLoading s;
     currentTool := currentTool s; selectedModel := selectedModel s |}.

Definition setInput (text : string) (s : State) : State :=
  {| messages := messages s; input := text; isLoading := isLoading s;
     currentTool := currentTool s; selectedModel := selectedModel s |}.

Definition setIsLoading (flag : bool) (s : State) : State :=
  {| messages := messages s; input := input s; isLoading := flag;
     currentTool := currentTool s; selectedModel := selectedModel s |}.

Definition setCurrentTool (f : option ToolStatus -> option ToolStatus) (s : State)
  : State :=
  {| messages := messages s; input := input s; isLoading := isLoading s;
     currentTool := f (currentTool s); selectedModel := selectedModel s |}.

(** [{ ...msg, content }] for the message with the id, in [prev.map]. *)
Definition with_content (target text : string) (prev : list Message) : list Message :=
  map (fun msg => if id msg =? target
                  then {| id := id msg; role := role msg; content := text;
                          timestamp := timestamp msg |}
                  else msg) prev.

(** Equality of two values as a [Set] sees it: primitives by value, and an
    object or an array, fresh from [JSON.parse], equal to nothing before
    it. *)
Definition same_value (a b : option Json) : bool :=
  match a, b with
  | None, None => true
  | Some JNull, Some JNull => true
  | Some (JBool p), Some (JBool q) => Bool.eqb p q
  | Some (JNum p), Some (JNum q) => p =? q
  | Some (JStr p), Some (JStr q) => p =? q
  | _, _ => false
  end.

Definition set_add_value (v : option Json) (s : list (option Json))
  : list (option Json) :=
  if existsb (same_value v) s then s else (s ++ [v])%list.

(** The variables of the reading loop, with the state and the world. *)
Record Reading := {
  streamingContent : string;
  toolsEncountered : list (option Json);
  chunksReceived : nat;
  state : State;
  world : World
}.

Definition apology : string := "Sorry, I encountered an error processing your request.".

Definition credentials_hint : string :=
  "Sorry, I encountered an error. Please check your Claude credentials are configured correctly.".

(** The body of the inner [try], from the parsed value on.  A raise ends it
    where it stands; the [catch] is empty. *)
Definition on_parsed (b : Browser) (messageStartTime : Z) (streamingMessageId : string)
  (parsed : Json) (r : Reading) : Reading :=
  match member parsed "type" with
  | Exn _ => r
  | Val type =>
      if is_string type "text_delta" then
        match member parsed "text" with
        | Exn _ => r
        | Val text =>
            match to_string_opt text with
            | Exn _ =>
                {| streamingContent := streamingContent r;
                   toolsEncountered := toolsEncountered r;
                   chunksReceived := S (chunksReceived r);
                   state := state r;
                   world := world r |}
            | Val fragment =>
                let shown := streamingContent r ++ fragment in
                {| streamingContent := shown;
                   toolsEncountered := toolsEncountered r;
                   chunksReceived := S (chunksReceived r);
                   state := setMessages (with_content streamingMessageId shown)
                              (setCurrentTool (fun _ => None) (state r));
                   world := world r |}
            end
        end
      else if is_string type "tool_start" then
        match member parsed "tool" with
        | Exn _ => r
        | Val tool =>
            {| streamingContent := streamingContent r;
               toolsEncountered := set_add_value tool (toolsEncountered r);
               chunksReceived := chunksReceived r;
               state := setCurrentTool
                          (fun _ => Some {| name := tool; status := "running";
                                            elapsed := None |})
                          (state r);
               world := tell_all
                          [UiIncrement "competitive_research.ui.tool_start" 1
                             [("tool", DValue tool)];
                           UiLog Debug "Tool started in competitive research UI"
                             [("toolName", DValue tool)] None]
                          (world r) |}
        end
      else if is_string type "tool_progress" then
        match member parsed "elapsed" with
        | Exn _ => r
        | Val seconds =>
            {| streamingContent := streamingContent r;
               toolsEncountered := toolsEncountered r;
               chunksReceived := chunksReceived r;
               state := setCurrentTool
                          (fun prev =>
                             match prev with
                             | Some tool =>
                                 Some {| name := name tool; status := status tool;
                                         elapsed := seconds |}
                             | None => None
                             end)
                          (state r);
               world := world r |}
        end
      else if is_string type "done" then
        let (t, w) := read_clock b (world r) in
        let responseDuration := seconds_since messageStartTime t in
        {| streamingContent := streamingContent r;
           toolsEncountered := toolsEncountered r;
           chunksReceived := chunksReceived r;
           state := setCurrentTool (fun _ => None) (state r);
           world := tell_all
                      [UiTiming "competitive_research.ui.response_time" responseDuration;
                       UiGauge "competitive_research.ui.response_length"
                         (String.length (streamingContent r));
                       UiGauge "competitive_research.ui.stream_chunks" (chunksReceived r);
                       UiGauge "competitive_research.ui.tools_used"
                         (length (toolsEncountered r));
                       UiLog Info "Competitive research response completed"
                         [("responseDuration", DSeconds responseDuration);
                          ("responseLength", DCount (String.length (streamingContent r)));
                          ("chunksReceived", DCount (chunksReceived r));
                          ("toolsUsed", DValues (toolsEncountered r));
                          ("toolCount", DCount (length (toolsEncountered r)));
                          ("model", DText (model_name (selectedModel (state r))))]
                         None]
                      w |}
      else if is_string type "error" then
        match member parsed "message" with
        | Exn _ => r
        | Val message =>
            {| streamingContent := apology;
               toolsEncountered := toolsEncountered r;
               chunksReceived := chunksReceived r;
               state := setCurrentTool (fun _ => None)
                          (setMessages (with_content streamingMessageId apology)
                             (state r));
               world := tell_all
                          [UiIncrement "competitive_research.ui.response_error" 1 [];
                           UiLog Severe
                             "Error in competitive research streaming response"
                             [("error", DValue message);
                              ("chunksReceived", DCount (chunksReceived r));
                              ("partialResponseLength",
                               DCount (String.length (streamingContent r)))]
                             None]
                          (world r) |}
        end
      else r
  end.

(** The body of [for (const line of lines)]. *)
Definition on_line (b : Browser) (messageStartTime : Z) (streamingMessageId : string)
  (r : Reading) (line : string) : Reading :=
  if prefix "data: " line then
    let data := slice 6 line in
    if data =? "[DONE]" then r
    else match parse b data with
         | Exn _ => r
         | Val parsed => on_parsed b messageStartTime streamingMessageId parsed r
         end
  else r.

(** One turn of the [while]: a chunk, split in lines. *)
Definition on_chunk (b : Browser) (messageStartTime : Z) (streamingMessageId : string)
  (r : Reading) (chunk : string) : Reading :=
  fold_left (on_line b messageStartTime streamingMessageId) (split_lines chunk) r.

Definition read_all (b : Browser) (messageStartTime : Z) (streamingMessageId : string)
  (reads : list string) (r : Reading) : Reading :=
  fold_left (on_chunk b messageStartTime streamingMessageId) reads r.

(** [response.ok] *)
Definition ok (code : nat) : bool := Nat.leb 200 code && Nat.leb code 299.

(** The body of the outer [try], after the state was set for the request.
    It ends normally or with a raised value. *)
Definition exchange (b : Browser) (messageStartTime : Z) (closure : list Message)
  (userMessage : Message) (s : State) (w : World) : Outcome unit * State * World :=
  let body := body_json (map as_input (closure ++ [userMessage])%list)
                (Some (modelIds (selectedModel s))) in
  let (result, w1) := call_fetch b body w in
  match result with
  | NetworkError t => (Exn t, s, w1)
  | Responded code statusText stream =>
      if negb (ok code) then
        (Exn (ErrorObject "Failed to get response"), s,
         tell_all
           [UiIncrement "competitive_research.ui.api_error" 1
              [("status", DText (nat_to_string code))];
            UiLog Severe "Competitive Research API request failed"
              [("status", DCount code); ("statusText", DText statusText)] None]
           w1)
      else
        let w2 := tell (UiLog Debug "Competitive Research API request successful"
                          [("status", DCount code)] None) w1 in
        match stream with
        | None => (Exn (ErrorObject "No response body"), s, w2)
        | Some reads =>
            let (streamingMessageId, w3) := fresh_uuid b w2 in
            let (stamp, w4) := read_clock b w3 in
            let s1 := setMessages
                        (fun prev =>
                           (prev ++ [{| id := streamingMessageId; role := assistant;
                                        content := EmptyString;
                                        timestamp := stamp |}])%list) s in
            let r := read_all b messageStartTime streamingMessageId (chunks reads)
                       {| streamingContent := EmptyString;
                          toolsEncountered := [];
                          chunksReceived := 0;
                          state := s1;
                          world := w4 |} in
            match ended reads with
            | Raised t => (Exn t, state r, world r)
            | Returned =>
                (Val tt,
                 (if streamingContent r =? EmptyString
                  then setMessages
                         (filter (fun msg => negb (id msg =? streamingMessageId)))
                         (state r)
                  else state r),
                 world r)
            end
        end
  end.

(** The [catch] of [sendMessage]. *)
Definition on_failure (b : Browser) (messageStartTime : Z) (closure : list Message)
  (error : Thrown) (s : State) (w : World) : State * World :=
  let (t, w1) := read_clock b w in
  let errorDuration := seconds_since messageStartTime t in
  let w2 := tell_all
              [UiIncrement "competitive_research.ui.error" 1 [];
               UiTiming "competitive_research.ui.error_duration" errorDuration;
               UiLog Severe "Competitive Research UI error"
                 [("error", DText (error_message error));
                  ("errorDuration", DSeconds errorDuration);
                  ("conversationSize", DCount (length closure))]
                 (Some (as_error error))] w1 in
  let (errorId, w3) := fresh_uuid b w2 in
  let (stamp, w4) := read_clock b w3 in
  (setMessages
     (fun prev => (prev ++ [{| id := errorId; role := assistant;
                               content := credentials_hint;
                               timestamp := stamp |}])%list) s,
   w4).

Definition sendMessage (b : Browser) (text : string) (s : State) (w : World)
  : State * World :=
  if (trim b text =? EmptyString) || isLoading s then (s, w)
  else
    let closure := messages s in
    let (messageStartTime, w1) := read_clock b w in
    let (userId, w2) := fresh_uuid b w1 in
    let (stamp, w3) := read_clock b w2 in
    let userMessage := {| id := userId; role := user; content := trim b text;
                          timestamp := stamp |} in
    let w4 := tell_all
                [UiIncrement "competitive_research.ui.message_sent" 1 [];
                 UiGauge "competitive_research.ui.message_length"
                   (String.length (trim b text));
                 UiGauge "competitive_research.ui.conversation_size"
                   (length closure + 1);
                 UiLog Info "User sent competitive research query"
                   [("messageLength", DCount (String.length (trim b text)));
                    ("conversationSize", DCount (length closure + 1));
                    ("messagePreview", DText (substring 0 50 (trim b text)));
                    ("model", DText (model_name (selectedModel s)))] None] w3 in
    let s1 := setCurrentTool (fun _ => None)
                (setIsLoading true
                   (setInput EmptyString
                      (setMessages (fun prev => (prev ++ [userMessage])%list) s))) in
    let '(outcome, s2, w5) := exchange b messageStartTime closure userMessage s1 w4 in
    let (s3, w6) :=
      match outcome with
      | Val _ => (s2, w5)
      | Exn error => on_failure b messageStartTime closure error s2 w5
      end in
    (setCurrentTool (fun _ => None) (setIsLoading false s3), w6).

(** [handleSubmit] and [handleQuickPrompt] *)
Definition handleSubmit (b : Browser) (s : State) (w : World) : State * World :=
  sendMessage b (input s) s w.

Definition handleQuickPrompt (b : Browser) (prompt : string) (s : State) (w : World)
  : State * World :=
  sendMessage b prompt s w.

(** What reading one frame does to the content of the message, and what
    reading a list of frames leaves. *)
Definition step_shown (text : string) (f : Frame) : string :=
  match f with
  | TextDelta fragment => text ++ fragment
  | Error _ => apology
  | _ => text
  end.

Definition shown (frames : list Frame) : string :=
  fold_left step_shown frames EmptyString.

(** One frame read from the parsed value [JSON.parse] gives for it. *)
Definition on_frame (b : Browser) (messageStartTime : Z) (streamingMessageId : string)
  (r : Reading) (c : Chunk) : Reading :=
  match c with
  | FrameChunk f => on_parsed b messageStartTime streamingMessageId (frame_value f) r
  | Sentinel => r
  end.

(** The placeholder of the stream is the last message and holds the content
    read so far. *)
Definition placeholder (streamingMessageId : string) (stamp : Z) (text : string)
  : Message :=
  {| id := streamingMessageId; role := assistant; content := text; timestamp := stamp |}.

Definition Tracks (base : list Message) (streamingMessageId : string) (stamp : Z)
  (r : Reading) : Prop :=
  messages (state r)
  = (base ++ [placeholder streamingMessageId stamp (streamingContent r)])%list.

(** [JSON.parse] gives back the object of each of the frames. *)
Definition parses (b : Browser) (frames : list Frame) : Prop :=
  Forall (fun f => parse b (frame_json f) = Val (frame_value f)) frames.

(** What the reading loop leaves alone: the input, the loading flag and
    the selected model, and the requests and identifiers of the world. *)
Record Stable (r r' : Reading) : Prop := {
  st_input : input (state r') = input (state r);
  st_loading : isLoading (state r') = isLoading (state r);
  st_model : selectedModel (state r') = selectedModel (state r);
  st_fetched : fetched (world r') = fetched (world r);
  st_uuids : uuids (world r') = uuids (world r)
}.

(** The message of the user, the body of the request, and the message
    that reports a failure met before any stream was read. *)
Definition sent (b : Browser) (text : string) (w : World) : Message :=
  {| id := randomUUID b (uuids w); role := user; content := trim b text;
     timestamp := now b (S (ticks w)) |}.

Definition request_body (s : State) (m : Message) : Json :=
  body_json (map as_input (messages s ++ [m])%list) (Some (modelIds (selectedModel s))).

Definition hint (b : Browser) (w : World) : Message :=
  {| id := randomUUID b (S (uuids w)); role := assistant; content := credentials_hint;
     timestamp := now b (S (S (S (ticks w)))) |}.

(** The message of the assistant after a stream that showed [text]: the
    placeholder is removed when nothing was shown. *)
Definition answer (b : Browser) (w : World) (text : string) : list Message :=
  if text =? EmptyString then []
  else [placeholder (randomUUID b (S (uuids w))) (now b (S (S (ticks w)))) text].

(** The messages of the assistant after a stream whose reads ended with a
    rejection: the placeholder, with what was shown until then, and the
    message about the credentials. *)
Definition cut_short (b : Browser) (w : World) (text : string) (stamp : Z)
  : list Message :=
  [placeholder (randomUUID b (S (uuids w))) (now b (S (S (ticks w)))) text;
   {| id := randomUUID b (S (S (uuids w))); role := assistant;
      content := credentials_hint; timestamp := stamp |}].

(** The request got no stream to read: the network failed, the status is
    not a success, or the response has no body. *)
Definition no_stream (result : FetchResult) : bool :=
  match result with
  | NetworkError _ => true
  | Responded code _ stream =>
      negb (ok code) || match stream with None => true | Some _ => false end
  end.

End Client.

(** ** The client against the handler *)

(** What the network does with a response: the reason phrase of a status,
    the groups of whole chunks the reads of the body deliver, and, for a
    stream that is errored, the chunks that were read from it before and so
    reach the client, and the message of the error the read of the
    truncated body rejects with. *)
Record Network := {
  reason : nat -> string;
  regroup : list Chunk -> list (list Chunk);
  arrived : list Chunk -> list Chunk;
  aborted : string
}.

(** The body of a streamed response, as the client reads it. *)
Definition reads_of (net : Network) (c : Controller) : Client.Reads :=
  if errored c
  then {| Client.chunks := map delivered (regroup net (arrived net (queue c)));
          Client.ended := Client.Raised (ErrorObject (aborted net)) |}
  else {| Client.chunks := map delivered (regroup net (queue c));
          Client.ended := Client.Returned |}.

(** [fetch('/api/competitive-research', ...)] against the handler on a host.
    The body holds strings only, so [request.json()] gives back the value
    that was serialised. *)
Definition served (host : Host) (net : Network) (payload : Json) : Client.FetchResult :=
  match respond competitive_research host {| json := Val payload |} with
  | Val response =>
      Client.Responded (status response) (reason net (status response))
        (Some match body response with
              | StreamBody c => reads_of net c
              | JsonBody text =>
                  {| Client.chunks := [text]; Client.ended := Client.Returned |}
              end)
  | Exn _ =>
      Client.Responded 500 (reason net 500)
        (Some {| Client.chunks := []; Client.ended := Client.Returned |})
  end.

(** The frames an upstream run is relayed as. *)
Definition relayed (run : Run) : list Frame :=
  frames_of (map FrameChunk (flat_map emitted (yielded run)) ++ closing (ending run)).

(** A browser for examples: the clock of [example_host], identifiers that
    count up, [trim] on ASCII white space, [JSON.parse] restricted to the
    texts of the given frames, and [fetch] answered by the handler. *)
Definition is_space (c : ascii) : bool :=
  existsb (Ascii.eqb c) ["009"; "010"; "011"; "012"; "013"; " "]%char.

Fixpoint trim_start (s : string) : string :=
  match s with
  | EmptyString => EmptyString
  | String c rest => if is_space c then trim_start rest else s
  end.

Definition reversed (s : string) : string :=
  string_of_list_ascii (rev (list_ascii_of_string s)).

Definition ascii_trim (s : string) : string :=
  reversed (trim_start (reversed (trim_start s))).

Definition parse_among (frames : list Frame) (text : string) : Outcome Json :=
  match find (fun f => frame_json f =? text) frames with
  | Some f => Val (frame_value f)
  | None => Exn (ErrorObject "Unexpected end of JSON input")
  end.

Definition one_by_one : Network :=
  {| reason := fun _ => "OK"; regroup := map (fun c => [c]);
     arrived := fun q => q; aborted := "network error" |}.

Definition all_at_once : Network :=
  {| reason := fun _ => "OK"; regroup := fun q => [q];
     arrived := fun q => removelast q; aborted := "network error" |}.

Definition example_browser (frames : list Frame) (fetch : Json -> Client.FetchResult)
  : Client.Browser :=
  {| Client.now := fun n => Z.of_nat (1000 * n);
     Client.randomUUID := fun n => "uuid-" ++ nat_to_string n;
     Client.trim := ascii_trim;
     Client.parse := parse_among frames;
     Client.fetch := fetch |}.

(** A response that streams the given groups of chunks. *)
Definition streams (groups : list (list Chunk)) (payload : Json) : Client.FetchResult :=
  Client.Responded 200 "OK"
    (Some {| Client.chunks := map delivered groups; Client.ended := Client.Returned |}).

Definition example_groups : list (list Chunk) :=
  [[FrameChunk (TextDelta "Hi"); FrameChunk (ToolStart "WebSearch")];
   [];
   [FrameChunk (ToolProgress "WebSearch" "1.5"); FrameChunk (TextDelta " there");
    FrameChunk Done; Sentinel]].

(** Browsers for examples: one whose request is refused with the 500 of
    the handler, one that is answered with the example groups. *)
Definition refused_browser : Client.Browser :=
  example_browser []
    (fun _ => Client.Responded 500 "Internal Server Error"
                (Some {| Client.chunks :=
                           [error_body "Failed to process competitive research request"];
                         Client.ended := Client.Returned |})).

Definition streaming_browser : Client.Browser :=
  example_browser (frames_of (concat example_groups)) (streams example_groups).

Definition served_browser (run : Run) (net : Network) : Client.Browser :=
  example_browser (relayed run) (served (example_host run) net).

Definition example_state : Client.State :=
  {| Client.messages := [{| Client.id := "welcome"; Client.role := assistant;
                            Client.content := "Welcome"; Client.timestamp := 0 |}];
     Client.input := "  Who competes with Sentry? ";
     Client.isLoading := false;
     Client.currentTool := None;
     Client.selectedModel := Client.sonnet |}.

(** * The window manager

    [src/components/desktop/WindowManager.tsx]: the state updaters of
    [WindowManagerProvider].  The provider holds two pieces of state, the
    list of windows and the top z-index, and every operation hands React an
    updater.  A desktop below is that state after the updaters of one
    operation have run once, in the order the operation calls them: the
    updater of the top z-index first, where the operation has one, then the
    updater of the windows, which is called inside it.  Operations called
    together, before React has rendered, are outside this model: React then
    runs the queued updaters of the two states in an order of its own.

    Four updaters call [Sentry.metrics] and [Sentry.logger], directly and
    with no [try] around the calls.  The SDK is a parameter: it says what
    each call raises, if anything; a release without
    [Sentry.metrics.increment] raises a [TypeError] there.  An updater that
    raises gives React no new state.  The calls of an updater that returns
    are recorded in a journal. *)

Module WindowManager.

Section Windows.

(** The declaration of [WindowState] in [./types] is not among the sources.
    The record has the fields the manager reads or writes; [Extra] stands
    for the others, which the spreads carry along. *)
Context {Extra : Type}.

Record WindowState := {
  id : string;
  title : string;
  x : Number;
  y : Number;
  width : Number;
  height : Number;
  isMinimized : bool;
  isMaximized : bool;
  isFocused : bool;
  zIndex : Z;
  extra : Extra
}.

(** [Omit<WindowState, 'zIndex' | 'isFocused'>] *)
Record Descriptor := {
  d_id : string;
  d_title : string;
  d_x : Number;
  d_y : Number;
  d_width : Number;
  d_height : Number;
  d_isMinimized : bool;
  d_isMaximized : bool;
  d_extra : Extra
}.

Record Desktop := {
  windows : list WindowState;
  topZIndex : Z;
  journal : list Telemetry
}.

(** [useState([])] and [useState(100)] *)
Definition initial : Desktop :=
  {| windows := []; topZIndex := 100; journal := [] |}.

(** [{ ...w, isFocused: false }] *)
Definition unfocused (w : WindowState) : WindowState :=
  {| id := id w; title := title w; x := x w; y := y w;
     width := width w; height := height w;
     isMinimized := isMinimized w; isMaximized := isMaximized w;
     isFocused := false; zIndex := zIndex w; extra := extra w |}.

(** [{ ...w, isFocused: true, zIndex: newZ }] *)
Definition focused (newZ : Z) (w : WindowState) : WindowState :=
  {| id := id w; title := title w; x := x w; y := y w;
     width := width w; height := height w;
     isMinimized := isMinimized w; isMaximized := isMaximized w;
     isFocused := true; zIndex := newZ; extra := extra w |}.

(** [{ ...w, isMinimized: false, isFocused: true, zIndex: newZ }] *)
Definition restored (newZ : Z) (w : WindowState) : WindowState :=
  {| id := id w; title := title w; x := x w; y := y w;
     width := width w; height := height w;
     isMinimized := false; isMaximized := isMaximized w;
     isFocused := true; zIndex := newZ; extra := extra w |}.

(** [{ ...w, isMinimized: true, isFocused: false }] *)
Definition minimized (w : WindowState) : WindowState :=
  {| id := id w; title := title w; x := x w; y := y w;
     width := width w; height := height w;
     isMinimized := true; isMaximized := isMaximized w;
     isFocused := false; zIndex := zIndex w; extra := extra w |}.

(** [{ ...w, isMaximized: !w.isMaximized }] *)
Definition toggled (w : WindowState) : WindowState :=
  {| id := id w; title := title w; x := x w; y := y w;
     width := width w; height := height w;
     isMinimized := isMinimized w; isMaximized := negb (isMaximized w);
     isFocused := isFocused w; zIndex := zIndex w; extra := extra w |}.

(** [{ ...w, x, y }] *)
Definition moved (nx ny : Number) (w : WindowState) : WindowState :=
  {| id := id w; title := title w; x := nx; y := ny;
     width := width w; height := height w;
     isMinimized := isMinimized w; isMaximized := isMaximized w;
     isFocused := isFocused w; zIndex := zIndex w; extra := extra w |}.

(** [{ ...w, width, height }] *)
Definition resized (nwidth nheight : Number) (w : WindowState) : WindowState :=
  {| id := id w; title := title w; x := x w; y := y w;
     width := nwidth; height := nheight;
     isMinimized := isMinimized w; isMaximized := isMaximized w;
     isFocused := isFocused w; zIndex := zIndex w; extra := extra w |}.

(** [{ ...window, zIndex: newZ, isFocused: true }] *)
Definition created (newZ : Z) (window : Descriptor) : WindowState :=
  {| id := d_id window; title := d_title window; x := d_x window; y := d_y window;
     width := d_width window; height := d_height window;
     isMinimized := d_isMinimized window; isMaximized := d_isMaximized window;
     isFocused := true; zIndex := newZ; extra := d_extra window |}.

(** [prev.find(w => w.id === id)] *)
Definition lookup (name : string) (prev : list WindowState) : option WindowState :=
  find (fun w => id w =? name) prev.

(** The SDK, as far as the manager uses it: what a call raises, if it
    raises. *)
Record Sdk := { raised_by : Telemetry -> option Thrown }.

(** The first of the calls, in order, that raises. *)
Fixpoint first_raise (sentry : Sdk) (calls : list Telemetry) : option Thrown :=
  match calls with
  | [] => None
  | call :: rest =>
      match raised_by sentry call with
      | Some t => Some t
      | None => first_raise sentry rest
      end
  end.

(** An updater that makes the calls and then returns the new state. *)
Definition reporting (sentry : Sdk) (calls : list Telemetry) (after : Desktop)
  : Outcome Desktop :=
  match first_raise sentry calls with
  | Some t => Exn t
  | None =>
      Val {| windows := windows after; topZIndex := topZIndex after;
             journal := (journal after ++ calls)%list |}
  end.

Definition openWindow (sentry : Sdk) (window : Descriptor) (d : Desktop)
  : Outcome Desktop :=
  let newZ := (topZIndex d + 1)%Z in
  let prev := windows d in
  match lookup (d_id window) prev with
  | Some existing =>
      if isMinimized existing then
        reporting sentry
          [Increment "window.restored" 1 [("window_type", d_id window)];
           Log Debug "Window restored from minimized"
             [("windowId", FText (d_id window));
              ("windowTitle", FText (d_title window))] None]
          {| windows := map (fun w => if id w =? d_id window
                                      then restored newZ w else unfocused w) prev;
             topZIndex := newZ;
             journal := journal d |}
      else
        reporting sentry
          [Log Debug "Window focused"
             [("windowId", FText (d_id window));
              ("windowTitle", FText (d_title window))] None]
          {| windows := map (fun w => if id w =? d_id window
                                      then focused newZ w else unfocused w) prev;
             topZIndex := newZ;
             journal := journal d |}
  | None =>
      reporting sentry
        [Increment "window.opened" 1 [("window_type", d_id window)];
         Gauge "window.total_count" (Count (length prev + 1)) [];
         Log Info "New window opened"
           [("windowId", FText (d_id window));
            ("windowTitle", FText (d_title window));
            ("totalWindows", FCount (length prev + 1))] None]
        {| windows := (map unfocused prev ++ [created newZ window])%list;
           topZIndex := newZ;
           journal := journal d |}
  end.

Definition closeWindow (sentry : Sdk) (name : string) (d : Desktop) : Outcome Desktop :=
  let prev := windows d in
  reporting sentry
    match lookup name prev with
    | Some window =>
        [Increment "window.closed" 1 [("window_type", name)];
         Gauge "window.total_count" (Count (length prev - 1)) [];
         Log Info "Window closed"
           [("windowId", FText name);
            ("windowTitle", FText (title window));
            ("totalWindows", FCount (length prev - 1))] None]
    | None => []
    end
    {| windows := filter (fun w => negb (id w =? name)) prev;
       topZIndex := topZIndex d;
       journal := journal d |}.

Definition minimizeWindow (sentry : Sdk) (name : string) (d : Desktop)
  : Outcome Desktop :=
  let prev := windows d in
  reporting sentry
    match lookup name prev with
    | Some window =>
        [Increment "window.minimized" 1 [("window_type", name)];
         Log Debug "Window minimized"
           [("windowId", FText name);
            ("windowTitle", FText (title window))] None]
    | None => []
    end
    {| windows := map (fun w => if id w =? name then minimized w else w) prev;
       topZIndex := topZIndex d;
       journal := journal d |}.

Definition maximizeWindow (sentry : Sdk) (name : string) (d : Desktop)
  : Outcome Desktop :=
  let prev := windows d in
  reporting sentry
    match lookup name prev with
    | Some window =>
        let isMaximizing := negb (isMaximized window) in
        [Increment "window.maximize_toggled" 1
           [("window_type", name);
            ("action", if isMaximizing then "maximize" else "restore")];
         Log Debug "Window maximize toggled"
           [("windowId", FText name);
            ("windowTitle", FText (title window));
            ("isMaximizing", FBool isMaximizing)] None]
    | None => []
    end
    {| windows := map (fun w => if id w =? name then toggled w else w) prev;
       topZIndex := topZIndex d;
       journal := journal d |}.

Definition restoreWindow (name : string) (d : Desktop) : Desktop :=
  let newZ := (topZIndex d + 1)%Z in
  {| windows := map (fun w => if id w =? name then restored newZ w else unfocused w)
                  (windows d);
     topZIndex := newZ;
     journal := journal d |}.

Definition focusWindow (name : string) (d : Desktop) : Desktop :=
  let newZ := (topZIndex d + 1)%Z in
  {| windows := map (fun w => if id w =? name then focused newZ w else unfocused w)
                  (windows d);
     topZIndex := newZ;
     journal := journal d |}.

Definition updateWindowPosition (name : string) (nx ny : Number) (d : Desktop) : Desktop :=
  {| windows := map (fun w => if id w =? name then moved nx ny w else w) (windows d);
     topZIndex := topZIndex d;
     journal := journal d |}.

Definition updateWindowSize (name : string) (nwidth nheight : Number) (d : Desktop)
  : Desktop :=
  {| windows := map (fun w => if id w =? name then resized nwidth nheight w else w)
                  (windows d);
     topZIndex := topZIndex d;
     journal := journal d |}.

(** The operations the context offers. *)
Inductive Action :=
| Open (window : Descriptor)
| Close (name : string)
| Minimize (name : string)
| Maximize (name : string)
| Restore (name : string)
| Focus (name : string)
| Move (name : string) (nx ny : Number)
| Resize (name : string) (nwidth nheight : Number).

Definition perform (sentry : Sdk) (d : Desktop) (a : Action) : Outcome Desktop :=
  match a with
  | Open window => openWindow sentry window d
  | Close name => closeWindow sentry name d
  | Minimize name => minimizeWindow sentry name d
  | Maximize name => maximizeWindow sentry name d
  | Restore name => Val (restoreWindow name d)
  | Focus name => Val (focusWindow name d)
  | Move name nx ny => Val (updateWindowPosition name nx ny d)
  | Resize name nwidth nheight => Val (updateWindowSize name nwidth nheight d)
  end.

(** No call of the SDK raises. *)
Definition quiet (sentry : Sdk) : Prop := forall call, raised_by sentry call = None.

(** What the operations keep of a desktop. *)
Record Consistent (d : Desktop) : Prop := {
  ids_distinct : NoDup (map id (windows d));
  z_distinct : NoDup (map zIndex (windows d));
  z_bounded : Forall (fun w => (zIndex w <= topZIndex d)%Z) (windows d);
  focus_on_top : Forall (fun w => isFocused w = true -> zIndex w = topZIndex d)
                   (windows d)
}.

(** The invariant, on the list of windows and the top z-index. *)
Definition Good (top : Z) (l : list WindowState) : Prop :=
  NoDup (map id l)
  /\ NoDup (map zIndex l)
  /\ Forall (fun w => (zIndex w <= top)%Z) l
  /\ Forall (fun w => isFocused w = true -> zIndex w = top) l.

(** The map of [focusWindow], [restoreWindow] and of [openWindow] on a
    window that exists: the target is rewritten by [up], every other window
    loses the focus. *)
Definition raise (up : WindowState -> WindowState) (name : string)
  (l : list WindowState) : list WindowState :=
  map (fun w => if id w =? name then up w else unfocused w) l.

(** The window called [name] has the focus and the top z-index; every other
    window is without focus and strictly below. *)
Definition OnTop (name : string) (d : Desktop) : Prop :=
  Forall (fun w => if id w =? name
                   then isFocused w = true /\ zIndex w = topZIndex d
                   else isFocused w = false /\ (zIndex w < topZIndex d)%Z)
    (windows d).

End Windows.

Arguments WindowState : clear implicits.
Arguments Descriptor : clear implicits.
Arguments Desktop : clear implicits.
Arguments Action : clear implicits.

(** Example windows. *)
Definition notes : Descriptor unit :=
  {| d_id := "notes"; d_title := "Notes"; d_x := "40"; d_y := "40";
     d_width := "400"; d_height := "300";
     d_isMinimized := false; d_isMaximized := false; d_extra := tt |}.

Definition chat_window : Descriptor unit :=
  {| d_id := "chat"; d_title := "Chat"; d_x := "80"; d_y := "60";
     d_width := "500"; d_height := "600";
     d_isMinimized := false; d_isMaximized := false; d_extra := tt |}.

(** A desktop with the two windows, the chat window on top, and the same
    with the notes minimized. *)
Definition two_windows : Desktop unit :=
  {| windows := [unfocused (created 101 notes); created 102 chat_window];
     topZIndex := 102;
     journal := [] |}.

Definition notes_minimized : Desktop unit :=
  {| windows := [minimized (created 101 notes); created 102 chat_window];
     topZIndex := 102;
     journal := [] |}.

(** Example SDKs: one whose calls all return, and a release without the
    metrics functions. *)
Definition working : Sdk := {| raised_by := fun _ => None |}.

Definition without_metrics : Sdk :=
  {| raised_by := fun call =>
       match call with
       | Log _ _ _ _ => None
       | _ => Some (type_error "Sentry.metrics.increment is not a function")
       end |}.

End WindowManager.

(** * The telemetry wrappers

    [lib/sentry-helpers]: [sentryMetrics] and [sentryLogger].  Every wrapper
    is one call of the Sentry SDK inside a [try], with a [console.debug] in
    the [catch].  The SDK is a parameter: which metric functions it has, and
    what each call raises, if anything.  An object of tags is the list of
    its members; it is read through [tag] only. *)

Module SentryHelpers.

Definition Tags := list (string * string).

Definition Context := list (string * Field).

(** The first member with the key. *)
Fixpoint tag (key : string) (o : Tags) : option string :=
  match o with
  | [] => None
  | (k, v) :: rest => if k =? key then Some v else tag key rest
  end.

(** The last member with the key: what an assignment of the members in
    order leaves. *)
Fixpoint given (key : string) (o : Tags) : option string :=
  match o with
  | [] => None
  | (k, v) :: rest =>
      match given key rest with
      | Some later => Some later
      | None => if k =? key then Some v else None
      end
  end.

(** Setting one member: in place when the key is there, at the end when it
    is not. *)
Fixpoint assign (key value : string) (o : Tags) : Tags :=
  match o with
  | [] => [(key, value)]
  | (k, v) :: rest =>
      if k =? key then (key, value) :: rest else (k, v) :: assign key value rest
  end.

(** [{ ...o, ...more }] *)
Definition spread (o more : Tags) : Tags :=
  fold_left (fun acc kv => assign (fst kv) (snd kv) acc) more o.

(** The optional third argument [{ tags?: Record<string, string> }]. *)
Definition TagsArgument := option (option Tags).

(** [tags?.tags], spread into an object literal. *)
Definition spread_argument (o : Tags) (tags : TagsArgument) : Tags :=
  match tags with
  | Some (Some members) => spread o members
  | _ => o
  end.

(** The optional second argument of the logger. *)
Record LogData := {
  context : option Context;
  error : option string
}.

Inductive Metric := Counter | GaugeMetric | TimingMetric.

Definition metric_type (m : Metric) : string :=
  match m with
  | Counter => "counter"
  | GaugeMetric => "gauge"
  | TimingMetric => "timing"
  end.

(** The calls the wrappers make of the SDK. *)
Inductive SentryCall :=
| MetricsCall (m : Metric) (metricName : string) (value : Number) (tags : TagsArgument)
| CaptureEvent (message level : string) (tags : Tags)
| AddBreadcrumb (message level : string) (data : option Context)
| CaptureException (error custom_message : string) (details : Context)
| CaptureMessage (message level : string) (details : Context).

Record Sentry := {
  has_metric : Metric -> bool;
  raises : SentryCall -> option Thrown
}.

Inductive Effect :=
| Called (c : SentryCall)
| ConsoleDebug (label : string) (error : Thrown).

Definition call (sentry : Sentry) (c : SentryCall) : Outcome unit * list Effect :=
  match raises sentry c with
  | Some t => (Exn t, [Called c])
  | None => (Val tt, [Called c])
  end.

(** [try { ... } catch (error) { console.debug(label, error) }] *)
Definition guarded (label : string) (body : Outcome unit * list Effect)
  : Outcome unit * list Effect :=
  match body with
  | (Val _, effects) => (Val tt, effects)
  | (Exn t, effects) => (Val tt, (effects ++ [ConsoleDebug label t])%list)
  end.

(** The body shared by [increment], [gauge] and [timing]. *)
Definition metric (sentry : Sentry) (m : Metric) (metricName : string) (value : Number)
  (tags : TagsArgument) : Outcome unit * list Effect :=
  guarded "Sentry metrics error:"
    (if has_metric sentry m
     then call sentry (MetricsCall m metricName value tags)
     else call sentry
            (CaptureEvent metricName "info"
               (spread_argument
                  [("metric_type", metric_type m);
                   ("metric_value", number_to_string value)]
                  tags))).

(** [increment: (metricName, value = 1, tags?) => ...] *)
Definition increment (sentry : Sentry) (metricName : string) (value : option Number)
  (tags : TagsArgument) : Outcome unit * list Effect :=
  metric sentry Counter metricName
    (match value with Some v => v | None => "1" end) tags.

Definition gauge (sentry : Sentry) (metricName : string) (value : Number)
  (tags : TagsArgument) : Outcome unit * list Effect :=
  metric sentry GaugeMetric metricName value tags.

Definition timing (sentry : Sentry) (metricName : string) (value : Number)
  (tags : TagsArgument) : Outcome unit * list Effect :=
  metric sentry TimingMetric metricName value tags.

(** [data?.context] *)
Definition context_of (data : option LogData) : option Context :=
  match data with
  | Some d => context d
  | None => None
  end.

(** [data?.context || {}] *)
Definition details_of (data : option LogData) : Context :=
  match context_of data with
  | Some c => c
  | None => []
  end.

Definition breadcrumb (sentry : Sentry) (level message : string) (data : option LogData)
  : Outcome unit * list Effect :=
  guarded "Sentry logger error:"
    (call sentry (AddBreadcrumb message level (context_of data))).

Definition info (sentry : Sentry) (message : string) (data : option LogData) :=
  breadcrumb sentry "info" message data.

Definition warn (sentry : Sentry) (message : string) (data : option LogData) :=
  breadcrumb sentry "warning" message data.

Definition debug (sentry : Sentry) (message : string) (data : option LogData) :=
  breadcrumb sentry "debug" message data.

Definition error_ (sentry : Sentry) (message : string) (data : option LogData)
  : Outcome unit * list Effect :=
  guarded "Sentry logger error:"
    (match data with
     | Some {| context := _; error := Some e |} =>
         call sentry (CaptureException e message (details_of data))
     | _ => call sentry (CaptureMessage message "error" (details_of data))
     end).

(** A use of a wrapper. *)
Inductive Use :=
| UseIncrement (metricName : string) (value : option Number) (tags : TagsArgument)
| UseGauge (metricName : string) (value : Number) (tags : TagsArgument)
| UseTiming (metricName : string) (value : Number) (tags : TagsArgument)
| UseInfo (message : string) (data : option LogData)
| UseWarn (message : string) (data : option LogData)
| UseError (message : string) (data : option LogData)
| UseDebug (message : string) (data : option LogData).

Definition run (sentry : Sentry) (u : Use) : Outcome unit * list Effect :=
  match u with
  | UseIncrement metricName value tags => increment sentry metricName value tags
  | UseGauge metricName value tags => gauge sentry metricName value tags
  | UseTiming metricName value tags => timing sentry metricName value tags
  | UseInfo message data => info sentry message data
  | UseWarn message data => warn sentry message data
  | UseError message data => error_ sentry message data
  | UseDebug message data => debug sentry message data
  end.

Definition label (u : Use) : string :=
  match u with
  | UseIncrement _ _ _ | UseGauge _ _ _ | UseTiming _ _ _ => "Sentry metrics error:"
  | _ => "Sentry logger error:"
  end.

(** An SDK without the metrics API, whose every call fails. *)
Definition broken : Sentry :=
  {| has_metric := fun _ => false;
     raises := fun _ => Some (ErrorObject "Sentry is not initialised") |}.

End SentryHelpers.

(** * Properties *)

(** ** The relay, one message at a time *)

Section RelayFacts.

Variable ep : Endpoint.
Variable host : Host.
Variable streamStartTime : Z.

Lemma advance_refl r : Advance r r [] [] 0.
Proof.
  constructor; simpl; auto using app_nil_r.
Qed.

Lemma advance_trans r1 r2 r3 f1 f2 n1 n2 k1 k2 :
  Advance r1 r2 f1 n1 k1 -> Advance r2 r3 f2 n2 k2 ->
  Advance r1 r3 (f1 ++ f2)%list (n1 ++ n2)%list (k1 + k2).
Proof.
  intros [q1 c1 e1 t1 x1 w1] [q2 c2 e2 t2 x2 w2]; constructor.
  - rewrite q2, q1, map_app, app_assoc; reflexivity.
  - congruence.
  - congruence.
  - rewrite t2, t1, fold_left_app; reflexivity.
  - lia.
  - congruence.
Qed.

Lemma on_block_advance r name :
  Advance r (on_block ep r (ToolUse name)) [ToolStart name] [name] 0.
Proof.
  constructor; simpl; auto.
Qed.

Lemma on_blocks_advance blocks : forall r,
  Advance r (fold_left (on_block ep) blocks r)
    (map ToolStart (tool_use_names blocks)) (tool_use_names blocks) 0.
Proof.
  induction blocks as [|[name|] blocks IH]; intro r.
  - apply advance_refl.
  - change 0 with (0 + 0).
    exact (advance_trans _ _ _ _ _ _ _ _ _ (on_block_advance r name) (IH _)).
  - apply IH.
Qed.

Lemma on_message_advance r m :
  Advance r (on_message ep host streamStartTime r m)
    (emitted m) (tool_invocation m) (length (stream_delta m)).
Proof.
  unfold on_message.
  destruct m as [[[[text|]|]|]|[blocks|]|tool elapsed|subtype|]; simpl;
    try apply advance_refl.
  - constructor; simpl; auto; lia.
  - apply on_blocks_advance.
  - constructor; simpl; auto.
  - destruct (subtype =? "success"); simpl; constructor; simpl; auto.
Qed.

Lemma relay_all_advance messages : forall r,
  Advance r (relay_all ep host streamStartTime messages r)
    (flat_map emitted messages) (flat_map tool_invocation messages)
    (length (flat_map stream_delta messages)).
Proof.
  unfold relay_all.
  induction messages as [|m messages IH]; intro r.
  - apply advance_refl.
  - simpl fold_left. simpl flat_map. rewrite length_app.
    eapply advance_trans; [apply on_message_advance | apply IH].
Qed.

End RelayFacts.

(** ** The whole callback *)

Lemma start_advance ep host t0 fullPrompt requested w :
  let call := {| prompt := fullPrompt; options := query_options ep host requested |} in
  let run := query host call in
  let r := start ep host t0 fullPrompt requested w in
  queue (controller r)
  = (map FrameChunk (flat_map emitted (yielded run)) ++ closing (ending run))%list
  /\ (closed (controller r) = negb (unprintable (ending run))
      /\ errored (controller r) = unprintable (ending run))
  /\ toolsUsed r = distinct (flat_map tool_invocation (yielded run))
  /\ textChunksStreamed r = length (flat_map stream_delta (yielded run))
  /\ queries (world r) = (queries w ++ [call])%list.
Proof.
  intros call run r. subst r. unfold start, call_query.
  cbv beta iota zeta. fold call. fold run.
  match goal with
  | |- context [relay_all ep host t0 (yielded run) ?r0] =>
      destruct (relay_all_advance ep host t0 (yielded run) r0) as [Hq Hc He Ht Hn Hw];
      set (r2 := relay_all ep host t0 (yielded run) r0) in *
  end.
  simpl in Hq, Hc, He, Ht, Hn, Hw.
  destruct (ending run) as [|[error|]]; simpl.
  - rewrite Hq. repeat split; auto.
  - rewrite Hq. repeat split; auto.
  - rewrite Hq, app_nil_r. repeat split; auto.
Qed.

Lemma last_record_tell t w : last_record (tell t w) = Some t.
Proof.
  unfold last_record, tell; simpl. rewrite rev_app_distr. reflexivity.
Qed.

(** The last record of a callback whose iteration raised: the error log
    with the counters, or, when the raised value has no string conversion,
    the timing that comes before the log. *)
Lemma start_raised_record ep host t0 fullPrompt requested w :
  let call := {| prompt := fullPrompt; options := query_options ep host requested |} in
  let run := query host call in
  (forall error, ending run = Raised (Convertible error) ->
   exists seconds,
     last_record (world (start ep host t0 fullPrompt requested w))
     = Some (Log Severe (l_stream_error ep)
               [("error", FText (error_message error));
                ("streamDuration", FSeconds seconds);
                ("textChunksStreamed",
                 FCount (length (flat_map stream_delta (yielded run))));
                ("toolsUsed",
                 FNames (distinct (flat_map tool_invocation (yielded run))))]
               (Some (as_error error))))
  /\ (ending run = Raised Inconvertible ->
      exists seconds,
        last_record (world (start ep host t0 fullPrompt requested w))
        = Some (Timing (m_stream_duration ep) seconds [("status", "error")])).
Proof.
  intros call run.
  split; [intros error Hend|intro Hend];
    unfold start, call_query; cbv beta iota zeta; fold call; fold run; rewrite Hend;
    match goal with
    | |- context [relay_all ep host t0 (yielded run) ?r0] =>
        destruct (relay_all_advance ep host t0 (yielded run) r0) as [_ _ _ Ht Hn _];
        set (r2 := relay_all ep host t0 (yielded run) r0) in *
    end;
    simpl in Ht, Hn;
    unfold on_stream_exception, read_clock; cbv beta iota zeta; simpl world;
    eexists; rewrite last_record_tell.
  - simpl. rewrite Ht, Hn. reflexivity.
  - reflexivity.
Qed.

(** ** The handler, case by case *)

Ltac run_step :=
  match goal with
  | H : (_, _) = (_, _) |- _ => inversion H; subst; clear H
  | H : context [match ?x with _ => _ end] |- _ => destruct x eqn:?
  end.

Lemma converse_cases ep host items requested w o w' :
  converse ep host items requested w = (o, w') -> Verdict ep host w o w'.
Proof.
  unfold converse, bind, lift, ret, date_now, read_clock,
    sentryMetrics_increment, sentryMetrics_gauge, sentryLogger.
  intro H.
  repeat run_step; simpl in *; try (constructor; reflexivity).
Qed.

Lemma validate_cases ep host messages requested w o w' :
  validate ep host messages requested w = (o, w') -> Verdict ep host w o w'.
Proof.
  unfold validate, bind, ret, sentryMetrics_increment, sentryLogger.
  destruct (negb (truthy messages) || negb (isArray messages)); intro H.
  - inversion H; subst. constructor; reflexivity.
  - apply converse_cases in H. exact H.
Qed.

Lemma attempt_cases ep host request w o w' :
  attempt ep host request w = (o, w') -> Verdict ep host w o w'.
Proof.
  unfold attempt, bind, lift, ret.
  intro H.
  destruct (json request) as [parsed|t];
    [|inversion H; subst; constructor; reflexivity].
  destruct parsed; simpl in H;
    try (inversion H; subst; constructor; reflexivity);
    destruct (reads_model ep); eauto using validate_cases.
Qed.

Lemma POST_cases ep host request w o w' :
  POST ep host request w = (o, w') ->
  Verdict ep host w o w' /\ exists response, o = Val response.
Proof.
  unfold POST, bind, try_catch, date_now, read_clock. simpl.
  intro H.
  destruct (attempt ep host request _) as [[response|t] w1] eqn:Hattempt.
  - inversion H; subst. apply attempt_cases in Hattempt.
    split; [|eauto].
    inversion Hattempt; subst; constructor; simpl in *; congruence.
  - apply attempt_cases in Hattempt.
    inversion Hattempt; subst.
    unfold on_exception, bind, ret, date_now, read_clock,
      sentryMetrics_increment, sentryMetrics_timing, sentryLogger in H.
    simpl in H. inversion H; subst.
    split; [|eauto]. constructor. simpl in *. congruence.
Qed.

(** ** Counting chunks *)

Lemma count_app {A : Type} (p : A -> bool) (l1 l2 : list A) :
  count p (l1 ++ l2)%list = count p l1 + count p l2.
Proof.
  unfold count. rewrite filter_app, length_app. reflexivity.
Qed.










(** ** Reading the frames back *)

Lemma text_deltas_app q1 q2 :
  text_deltas (q1 ++ q2)%list = (text_deltas q1 ++ text_deltas q2)%list.
Proof.
  unfold text_deltas. apply flat_map_app.
Qed.

Lemma tool_starts_app q1 q2 :
  tool_starts (q1 ++ q2)%list = (tool_starts q1 ++ tool_starts q2)%list.
Proof.
  unfold tool_starts. apply flat_map_app.
Qed.

Lemma text_deltas_of_tool_starts names :
  text_deltas (map FrameChunk (map ToolStart names)) = [].
Proof.
  induction names; simpl; auto.
Qed.

Lemma tool_starts_of_tool_starts names :
  tool_starts (map FrameChunk (map ToolStart names)) = names.
Proof.
  induction names; simpl; congruence.
Qed.

Lemma text_deltas_emitted messages :
  text_deltas (map FrameChunk (flat_map emitted messages))
  = flat_map stream_delta messages.
Proof.
  induction messages as [|m messages IH]; [reflexivity|].
  simpl flat_map. rewrite map_app, text_deltas_app, IH. f_equal.
  destruct m as [[[[text|]|]|]|[blocks|]|tool elapsed|subtype|]; try reflexivity.
  - apply text_deltas_of_tool_starts.
  - simpl. destruct (subtype =? "success"); reflexivity.
Qed.

Lemma tool_starts_emitted messages :
  tool_starts (map FrameChunk (flat_map emitted messages))
  = flat_map tool_invocation messages.
Proof.
  induction messages as [|m messages IH]; [reflexivity|].
  simpl flat_map. rewrite map_app, tool_starts_app, IH. f_equal.
  destruct m as [[[[text|]|]|]|[blocks|]|tool elapsed|subtype|]; try reflexivity.
  - apply tool_starts_of_tool_starts.
  - simpl. destruct (subtype =? "success"); reflexivity.
Qed.

Lemma count_tool_start_names name q :
  count (is_tool_start name) q = count (fun tool => tool =? name) (tool_starts q).
Proof.
  unfold count, tool_starts.
  induction q as [|c q IH]; [reflexivity|].
  destruct c as [[text|tool|tool elapsed| |message]|]; simpl; auto.
  destruct (tool =? name); simpl; auto.
Qed.

(** ** The sentinel on the wire *)



(** ** The stream of a response *)

(** A response that streams relays the run of the one [query] call, frame
    by frame, then ends with the sentinel or with the stream-error frame,
    the controller closed; or, when the raised value has no string
    conversion, with neither, the stream errored. *)
Lemma stream_shape ep host request c :
  stream_of (respond ep host request) = Some c ->
  exists run,
    upstream_of ep host request = Some run
    /\ queue c
       = (map FrameChunk (flat_map emitted (yielded run)) ++ closing (ending run))%list
    /\ (closed c = negb (unprintable (ending run))
        /\ errored c = unprintable (ending run))
    /\ (forall error, ending run = Raised (Convertible error) ->
        exists seconds,
          last_record (aftermath ep host request)
          = Some (Log Severe (l_stream_error ep)
                    [("error", FText (error_message error));
                     ("streamDuration", FSeconds seconds);
                     ("textChunksStreamed",
                      FCount (length (flat_map stream_delta (yielded run))));
                     ("toolsUsed",
                      FNames (distinct (flat_map tool_invocation (yielded run))))]
                    (Some (as_error error))))
    /\ (ending run = Raised Inconvertible ->
        exists seconds,
          last_record (aftermath ep host request)
          = Some (Timing (m_stream_duration ep) seconds [("status", "error")])).
Proof.
  unfold respond, upstream_of, aftermath.
  destruct (POST ep host request World0) as [o w'] eqn:HPOST.
  apply POST_cases in HPOST. destruct HPOST as [HV _].
  inversion HV as [w1 Hq|w1 Hq|w1 Hq|t w1 Hq|t0 prompt requested w1 Hq];
    subst; simpl; try discriminate.
  intro Hc. inversion Hc; subst; clear Hc.
  destruct (start_advance ep host t0 prompt requested w1)
    as (Hqueue & Hclosed & _ & _ & Hqueries).
  rewrite Hqueries, Hq. simpl.
  eexists. split; [reflexivity|].
  split; [exact Hqueue|]. split; [exact Hclosed|].
  exact (start_raised_record ep host t0 prompt requested w1).
Qed.

(** A response streams exactly when the handler called [query]. *)
Lemma streams_iff_queried ep host request :
  (exists c, stream_of (respond ep host request) = Some c)
  <-> (exists run, upstream_of ep host request = Some run).
Proof.
  split.
  - intros [c Hc]. destruct (stream_shape _ _ _ _ Hc) as (run & Hrun & _). eauto.
  - unfold respond, upstream_of, aftermath.
    destruct (POST ep host request World0) as [o w'] eqn:HPOST.
    apply POST_cases in HPOST. destruct HPOST as [HV _].
    inversion HV as [w1 Hq|w1 Hq|w1 Hq|t w1 Hq|t0 prompt requested w1 Hq];
      subst; simpl; try (rewrite Hq; simpl; intros [run Hrun]; discriminate).
    intros _. eauto.
Qed.

(** The handler always answers: no request makes it raise. *)
Lemma POST_total ep host request :
  exists response, respond ep host request = Val response.
Proof.
  unfold respond.
  destruct (POST ep host request World0) as [o w'] eqn:HPOST.
  apply POST_cases in HPOST. destruct HPOST as [_ H]. exact H.
Qed.

(** ** The sentinel *)




(** ** An upstream iteration that raises *)




(** ** Tool starts *)

(** C3 (as amended).  For every request that streams, one [tool_start]
    frame is emitted for each tool invocation, in upstream order, so a name
    invoked [k] times yields [k] frames; a repeat invocation of a name
    already in [toolsUsed] leaves [toolsUsed] and [textChunksStreamed] as
    they were but still enqueues its frame. *)
Theorem C3_tool_start_per_invocation ep host request c run :
  stream_of (respond ep host request) = Some c ->
  upstream_of ep host request = Some run ->
  tool_starts (queue c) = flat_map tool_invocation (yielded run)
  /\ (forall name,
        count (is_tool_start name) (queue c)
        = count (fun tool => tool =? name) (flat_map tool_invocation (yielded run)))
  /\ (forall r name,
        existsb (String.eqb name) (toolsUsed r) = true ->
        toolsUsed (on_block ep r (ToolUse name)) = toolsUsed r
        /\ textChunksStreamed (on_block ep r (ToolUse name)) = textChunksStreamed r
        /\ queue (controller (on_block ep r (ToolUse name)))
           = (queue (controller r) ++ [FrameChunk (ToolStart name)])%list).
Proof.
  intros Hc Hrun.
  destruct (stream_shape _ _ _ _ Hc) as (run' & Hrun' & Hqueue & _).
  rewrite Hrun in Hrun'. inversion Hrun'; subst run'; clear Hrun'.
  assert (Hstarts : tool_starts (queue c) = flat_map tool_invocation (yielded run)).
  { rewrite Hqueue, tool_starts_app, tool_starts_emitted.
    destruct (ending run) as [|[error|]]; simpl; apply app_nil_r. }
  split; [exact Hstarts|]. split.
  - intro name. rewrite count_tool_start_names, Hstarts. reflexivity.
  - intros r name Hseen. simpl. unfold set_add. rewrite Hseen. auto.
Qed.

(** C3, as stated, fails: three invocations of [WebSearch] in a row are
    relayed as three [tool_start] frames. *)
Lemma C3_three_invocations_three_frames :
  exists c,
    stream_of (respond chat (example_host run_websearch_thrice) (typed_request hello None))
    = Some c
    /\ upstream_of chat (example_host run_websearch_thrice) (typed_request hello None)
       = Some run_websearch_thrice
    /\ count (is_tool_start "WebSearch") (queue c) = 3
    /\ count (is_tool_start "WebSearch") (queue c) <> 1.
Proof.
  eexists. split; [vm_compute; reflexivity|].
  split; [vm_compute; reflexivity|].
  split; [reflexivity|].
  vm_compute. discriminate.
Qed.

Lemma C3_witness :
  stream_of (respond chat (example_host run_websearch_thrice) (typed_request hello None))
  = Some stream_websearch_thrice
  /\ upstream_of chat (example_host run_websearch_thrice) (typed_request hello None)
     = Some run_websearch_thrice
  /\ tool_starts (queue stream_websearch_thrice)
     = flat_map tool_invocation (yielded run_websearch_thrice).
Proof.
  split; [vm_compute; reflexivity|].
  split; [vm_compute; reflexivity|].
  apply (C3_tool_start_per_invocation chat (example_host run_websearch_thrice)
           (typed_request hello None) stream_websearch_thrice run_websearch_thrice);
    vm_compute; reflexivity.
Defined.

(** ** Successful completion *)




(** ** Text *)

(** C5.  For every request that streams, the texts of the [text_delta]
    frames are, in order, the text fragments of the upstream deltas: none is
    missing, repeated or moved, and so their concatenations agree. *)
Theorem C5_text_deltas_in_order ep host request c run :
  stream_of (respond ep host request) = Some c ->
  upstream_of ep host request = Some run ->
  text_deltas (queue c) = flat_map stream_delta (yielded run)
  /\ String.concat EmptyString (text_deltas (queue c))
     = String.concat EmptyString (flat_map stream_delta (yielded run)).
Proof.
  intros Hc Hrun.
  destruct (stream_shape _ _ _ _ Hc) as (run' & Hrun' & Hqueue & _).
  rewrite Hrun in Hrun'. inversion Hrun'; subst run'; clear Hrun'.
  assert (Htexts : text_deltas (queue c) = flat_map stream_delta (yielded run)).
  { rewrite Hqueue, text_deltas_app, text_deltas_emitted.
    destruct (ending run) as [|[error|]]; simpl; apply app_nil_r. }
  split; [exact Htexts|]. rewrite Htexts. reflexivity.
Qed.

Lemma C5_witness :
  stream_of (respond chat (example_host run_success) (typed_request hello None))
  = Some stream_success
  /\ upstream_of chat (example_host run_success) (typed_request hello None)
     = Some run_success
  /\ String.concat EmptyString (text_deltas (queue stream_success)) = "Hi there".
Proof.
  split; [vm_compute; reflexivity|].
  split; [vm_compute; reflexivity|].
  destruct (C5_text_deltas_in_order chat (example_host run_success)
              (typed_request hello None) stream_success run_success) as [_ H];
    [vm_compute; reflexivity | vm_compute; reflexivity |].
  exact H.
Defined.

(** ** From the body to the validated array *)

Lemma destructure_model_total parsed messages :
  destructure parsed "messages" = Val messages ->
  exists requested, destructure parsed "model" = Val requested.
Proof.
  destruct parsed; simpl; try discriminate; eauto.
Qed.

Lemma attempt_validates ep host request parsed messages w :
  json request = Val parsed ->
  destructure parsed "messages" = Val messages ->
  exists requested,
    attempt ep host request w = validate ep host messages requested w.
Proof.
  intros Hparsed Hmessages.
  destruct (destructure_model_total _ _ Hmessages) as [requested Hmodel].
  unfold attempt, bind, lift, ret. rewrite Hparsed, Hmessages, Hmodel.
  destruct (reads_model ep); eauto.
Qed.

Lemma respond_of_attempt ep host request response w :
  attempt ep host request (snd (read_clock host World0)) = (Val response, w) ->
  respond ep host request = Val response.
Proof.
  intro H. unfold respond, POST, bind, try_catch, date_now.
  destruct (read_clock host World0) as [t w0] eqn:Hclock.
  simpl in H. rewrite H. reflexivity.
Qed.

(** ** Well-typed conversations *)

Lemma message_json_typed m : typed_as (message_json m) m.
Proof.
  split; reflexivity.
Qed.

Lemma messages_json_typed messages :
  Forall2 typed_as (map message_json messages) messages.
Proof.
  induction messages; constructor; auto using message_json_typed.
Qed.

Lemma filter_user_typed items messages :
  Forall2 typed_as items messages ->
  exists users,
    filter_user items = Val users
    /\ Forall2 typed_as users (filter is_user messages).
Proof.
  induction 1 as [|j m items messages Htyped Hrest IH].
  - exists []. split; [reflexivity|constructor].
  - destruct IH as (users & Husers & Husers_typed).
    assert (Hrole := proj1 Htyped).
    simpl filter_user. rewrite Hrole, Husers.
    simpl filter. unfold is_user at 1.
    destruct (role m) eqn:Hm; simpl.
    + exists (j :: users). split; [reflexivity|].
      constructor; assumption.
    + exists users. split; [reflexivity|assumption].
Qed.

Lemma pop_snoc l j : pop (l ++ [j])%list = Some j.
Proof.
  induction l as [|x l IH]; [reflexivity|].
  simpl app. simpl pop. destruct (l ++ [j])%list eqn:E.
  - destruct l; discriminate.
  - exact IH.
Qed.

Lemma last_user_content_snoc_user messages :
  forall active,
    last_user_content messages = Some active ->
    exists earlier m,
      filter is_user messages = (earlier ++ [m])%list /\ content m = active.
Proof.
  induction messages as [|m messages IH]; simpl; [discriminate|].
  intros active Hactive.
  destruct (last_user_content messages) as [c|] eqn:Hrest.
  - inversion Hactive; subst c; clear Hactive.
    destruct (IH active eq_refl) as (earlier & m' & Hfilter & Hcontent).
    rewrite Hfilter. destruct (is_user m).
    + exists (m :: earlier), m'. split; [reflexivity|assumption].
    + exists earlier, m'. split; [reflexivity|assumption].
  - assert (Hnone : filter is_user messages = []).
    { clear IH Hactive. induction messages as [|m' messages IH']; [reflexivity|].
      simpl in Hrest. destruct (last_user_content messages); [discriminate|].
      simpl. unfold is_user at 1. destruct (role m'); [discriminate|].
      apply IH'. reflexivity. }
    rewrite Hnone. unfold is_user. destruct (role m); [|discriminate].
    inversion Hactive; subst. exists [], m. split; reflexivity.
Qed.

Lemma render_turn_typed j m : typed_as j m -> render_turn j = Val (turn_line m).
Proof.
  intros [Hrole Hcontent]. unfold render_turn, turn_line.
  rewrite Hrole, Hcontent. destruct (role m); reflexivity.
Qed.

Lemma render_turns_typed items messages :
  Forall2 typed_as items messages ->
  render_turns items = Val (map turn_line messages).
Proof.
  induction 1 as [|j m items messages Htyped Hrest IH]; [reflexivity|].
  simpl. rewrite (render_turn_typed j m Htyped), IH. reflexivity.
Qed.

Lemma removelast_typed items messages :
  Forall2 typed_as items messages ->
  Forall2 typed_as (removelast items) (removelast messages).
Proof.
  induction 1 as [|j m items messages Htyped Hrest IH]; [constructor|].
  simpl. destruct Hrest; [constructor|].
  constructor; assumption.
Qed.

Lemma conversationContext_typed items messages :
  Forall2 typed_as items messages ->
  conversationContext items = Val (join (nl ++ nl) (transcript messages)).
Proof.
  intro Htyped. unfold conversationContext, transcript.
  rewrite (render_turns_typed _ _ (removelast_typed _ _ Htyped)). reflexivity.
Qed.

Lemma converse_typed ep host items messages requested active w :
  Forall2 typed_as items messages ->
  last_user_content messages = Some active ->
  exists t0 w1,
    queries w1 = queries w
    /\ converse ep host items requested w
       = (Val (stream_response
                 (controller (start ep host t0 (prompt_of ep messages active) requested w1))),
          world (start ep host t0 (prompt_of ep messages active) requested w1)).
Proof.
  intros Htyped Hactive.
  destruct (filter_user_typed _ _ Htyped) as (users & Husers & Husers_typed).
  destruct (last_user_content_snoc_user _ _ Hactive)
    as (earlier & m & Hfilter & Hcontent).
  rewrite Hfilter in Husers_typed.
  apply Forall2_app_inv_r in Husers_typed.
  destruct Husers_typed as (before & final & _ & Hfinal & Hsplit).
  inversion Hfinal as [|j m' rest rest' [_ Hj] Hnil]; subst.
  inversion Hnil; subst.
  unfold converse, bind, lift, ret, date_now, read_clock,
    sentryMetrics_increment, sentryMetrics_gauge, sentryLogger.
  rewrite Husers, pop_snoc, Hj.
  simpl messagePreview. cbv beta iota.
  rewrite (conversationContext_typed _ _ Htyped). simpl to_string_opt. cbv beta iota.
  do 2 eexists. split; [|reflexivity]. reflexivity.
Qed.

(** Every well-typed conversation with a user turn is answered with a
    stream, after one [query] call whose prompt is [prompt_of]. *)
Lemma typed_conversation_streams ep host request parsed items messages active :
  json request = Val parsed ->
  destructure parsed "messages" = Val (Some (JArr items)) ->
  Forall2 typed_as items messages ->
  last_user_content messages = Some active ->
  (exists c, stream_of (respond ep host request) = Some c)
  /\ exists requested,
       queries (aftermath ep host request)
       = [{| prompt := prompt_of ep messages active;
             options := query_options ep host requested |}].
Proof.
  intros Hparsed Hmessages Htyped Hactive.
  unfold respond, aftermath, POST, bind, try_catch, date_now, read_clock.
  cbv beta iota zeta.
  match goal with
  | |- context [attempt ep host request ?w] =>
      destruct (attempt_validates ep host request parsed (Some (JArr items)) w
                  Hparsed Hmessages) as [requested Hattempt];
      rewrite Hattempt;
      change (validate ep host (Some (JArr items)) requested w)
        with (converse ep host items requested w);
      destruct (converse_typed ep host items messages requested active w
                  Htyped Hactive) as (t0 & w1 & Hq & Hconverse)
  end.
  rewrite Hconverse. cbv beta iota. simpl fst. simpl snd.
  split; [simpl; eauto|].
  exists requested.
  destruct (start_advance ep host t0 (prompt_of ep messages active) requested w1)
    as (_ & _ & _ & _ & Hqueries).
  rewrite Hqueries, Hq. reflexivity.
Qed.

(** ** Joined text *)

Lemma append_assoc (a b c : string) : (a ++ b) ++ c = a ++ b ++ c.
Proof.
  induction a as [|ch a IH]; simpl; congruence.
Qed.

Lemma append_nil_r (a : string) : a ++ EmptyString = a.
Proof.
  induction a as [|ch a IH]; simpl; congruence.
Qed.




(** ** The prompt *)



(** C7.  For every request whose messages are the turns user [a],
    assistant [b], user [c], the prompt handed to [query] is the system
    prompt, then the transcript with [User: a] before [Assistant: b], then
    [User: c].  The prompt is the same for every host: it is a function of
    the endpoint and the request alone. *)
Theorem C7_prompt_keeps_the_order_of_turns ep host request parsed items a b c :
  json request = Val parsed ->
  destructure parsed "messages" = Val (Some (JArr items)) ->
  Forall2 typed_as items
    [{| role := user; content := a |};
     {| role := assistant; content := b |};
     {| role := user; content := c |}] ->
  exists call,
    queries (aftermath ep host request) = [call]
    /\ prompt call
       = SYSTEM_PROMPT ep ++ (nl ++ nl ++ "Previous conversation:" ++ nl)
         ++ ("User: " ++ a) ++ (nl ++ nl) ++ ("Assistant: " ++ b) ++ (nl ++ nl)
         ++ ("User: " ++ c).
Proof.
  intros Hparsed Hmessages Htyped.
  destruct (typed_conversation_streams ep host request parsed items _ c
              Hparsed Hmessages Htyped eq_refl)
    as [_ [requested Hcall]].
  eexists. split; [exact Hcall|].
  simpl prompt. unfold prompt_of, fullPrompt, transcript. simpl.
  rewrite !append_assoc. reflexivity.
Qed.

Lemma C7_witness :
  json (typed_request [{| role := user; content := "A" |};
                       {| role := assistant; content := "B" |};
                       {| role := user; content := "C" |}] None)
  = Val (body_json [{| role := user; content := "A" |};
                    {| role := assistant; content := "B" |};
                    {| role := user; content := "C" |}] None)
  /\ exists call,
       queries (aftermath chat (example_host run_success)
                  (typed_request [{| role := user; content := "A" |};
                                  {| role := assistant; content := "B" |};
                                  {| role := user; content := "C" |}] None))
       = [call]
       /\ prompt call
          = SYSTEM_PROMPT chat ++ (nl ++ nl ++ "Previous conversation:" ++ nl)
            ++ "User: A" ++ (nl ++ nl) ++ "Assistant: B" ++ (nl ++ nl) ++ "User: C".
Proof.
  split; [reflexivity|].
  apply (C7_prompt_keeps_the_order_of_turns chat (example_host run_success)
           (typed_request [{| role := user; content := "A" |};
                           {| role := assistant; content := "B" |};
                           {| role := user; content := "C" |}] None)
           (body_json [{| role := user; content := "A" |};
                       {| role := assistant; content := "B" |};
                       {| role := user; content := "C" |}] None)
           (map message_json [{| role := user; content := "A" |};
                              {| role := assistant; content := "B" |};
                              {| role := user; content := "C" |}])
           "A" "B" "C");
    [reflexivity | reflexivity | repeat constructor].
Defined.



(** ** Validation *)

(** A body whose [messages] member is not an array is rejected. *)
Lemma rejected_without_array ep host request parsed messages :
  json request = Val parsed ->
  destructure parsed "messages" = Val messages ->
  isArray messages = false ->
  respond ep host request = Val (error_response 400 "Messages array is required").
Proof.
  intros Hparsed Hmessages Harray.
  destruct (attempt_validates ep host request parsed messages
              (snd (read_clock host World0)) Hparsed Hmessages) as [requested Hattempt].
  eapply respond_of_attempt. rewrite Hattempt.
  unfold validate. rewrite Harray, orb_true_r. reflexivity.
Qed.

(** An array without a turn of role user is rejected. *)
Lemma rejected_without_user ep host request parsed items :
  json request = Val parsed ->
  destructure parsed "messages" = Val (Some (JArr items)) ->
  filter_user items = Val [] ->
  respond ep host request = Val (error_response 400 "No user message found").
Proof.
  intros Hparsed Hmessages Husers.
  destruct (attempt_validates ep host request parsed (Some (JArr items))
              (snd (read_clock host World0)) Hparsed Hmessages) as [requested Hattempt].
  eapply respond_of_attempt. rewrite Hattempt.
  unfold validate, converse, bind, lift. simpl. rewrite Husers. reflexivity.
Qed.

(** C6 (as amended).  On either endpoint the body [{}] is answered 400 with
    the message that the messages array is required, and the body whose
    [messages] member holds one assistant turn and no user turn is answered
    400 with the message that no user message was found.  The handlers read
    the member [messages]: a body that carries its turns under [turns],
    whatever they are, is answered 400 with the message that the messages
    array is required. *)
Theorem C6_validation_messages ep host :
  respond ep host empty_body = Val (error_response 400 "Messages array is required")
  /\ body (error_response 400 "Messages array is required")
     = JsonBody (error_body "Messages array is required")
  /\ respond ep host assistant_only_body
     = Val (error_response 400 "No user message found")
  /\ body (error_response 400 "No user message found")
     = JsonBody (error_body "No user message found")
  /\ respond ep host turns_body = Val (error_response 400 "Messages array is required")
  /\ forall turns,
       respond ep host {| json := Val (JObj [("turns", turns)]) |}
       = Val (error_response 400 "Messages array is required").
Proof.
  assert (Hturns : forall turns,
            respond ep host {| json := Val (JObj [("turns", turns)]) |}
            = Val (error_response 400 "Messages array is required")).
  { intro turns.
    apply (rejected_without_array ep host {| json := Val (JObj [("turns", turns)]) |}
             (JObj [("turns", turns)]) None); reflexivity. }
  split; [|split; [reflexivity|split; [|split; [reflexivity|split]]]].
  - apply (rejected_without_array ep host empty_body (JObj []) None); reflexivity.
  - eapply (rejected_without_user ep host assistant_only_body); reflexivity.
  - apply Hturns.
  - exact Hturns.
Qed.

(** C6, as stated, fails: the handlers read the member [messages], so a
    body that carries its turns under [turns] is answered as one without a
    messages array. *)
Lemma C6_turns_member_is_not_read :
  respond chat (example_host run_success) turns_body
  = Val (error_response 400 "Messages array is required")
  /\ body (error_response 400 "Messages array is required")
     <> JsonBody (error_body "No user message found").
Proof.
  split; [vm_compute; reflexivity|].
  vm_compute. discriminate.
Qed.

(** C10.  A body whose [messages] member is the empty array passes the
    array check and fails the user-turn check: the answer is 400 with the
    message that no user message was found. *)
Theorem C10_empty_array_has_no_user ep host request parsed :
  json request = Val parsed ->
  destructure parsed "messages" = Val (Some (JArr [])) ->
  negb (truthy (Some (JArr []))) || negb (isArray (Some (JArr []))) = false
  /\ respond ep host request = Val (error_response 400 "No user message found")
  /\ status (error_response 400 "No user message found") = 400
  /\ body (error_response 400 "No user message found")
     = JsonBody (error_body "No user message found")
  /\ body (error_response 400 "No user message found")
     <> JsonBody (error_body "Messages array is required").
Proof.
  intros Hparsed Hmessages.
  split; [reflexivity|]. split.
  - eapply rejected_without_user; eauto.
  - split; [reflexivity|]. split; [reflexivity|]. vm_compute. discriminate.
Qed.

Lemma C10_witness :
  json empty_array_body = Val (JObj [("messages", JArr [])])
  /\ destructure (JObj [("messages", JArr [])]) "messages" = Val (Some (JArr []))
  /\ respond competitive_research (example_host run_success) empty_array_body
     = Val (error_response 400 "No user message found").
Proof.
  split; [reflexivity|]. split; [reflexivity|].
  apply (C10_empty_array_has_no_user competitive_research (example_host run_success)
           empty_array_body (JObj [("messages", JArr [])])); reflexivity.
Defined.

(** ** Failures of the setup *)

Lemma malformed_body_raises ep host request t :
  json request = Exn t -> setup_raises ep host request t.
Proof.
  intro H. unfold setup_raises, attempt, bind, lift. rewrite H. reflexivity.
Qed.

(** C8 (as amended).  For every request whose setup raises, the endpoint
    answers 500 with its own message: the chat endpoint says it failed to
    process the chat request, the competitive-research endpoint that it
    failed to process the competitive research request. *)
Theorem C8_setup_failure_answers_500 route host request t :
  setup_raises (endpoint route) host request t ->
  respond (endpoint route) host request
  = Val (error_response 500 (failed_to_process (endpoint route)))
  /\ status (error_response 500 (failed_to_process (endpoint route))) = 500
  /\ body (error_response 500 (failed_to_process (endpoint route)))
     = JsonBody
         (error_body
            match route with
            | ChatRoute =>
                "Failed to process chat request. Check server logs for details."
            | CompetitiveResearchRoute =>
                "Failed to process competitive research request. Check server logs for details."
            end).
Proof.
  unfold setup_raises. intro H.
  split; [|split; [reflexivity|destruct route; reflexivity]].
  unfold respond, POST, bind, try_catch, date_now.
  destruct (read_clock host World0) as [t0 w0] eqn:Hclock. simpl in H.
  destruct (attempt (endpoint route) host request w0) as [o w1]. simpl in H. subst o.
  reflexivity.
Qed.

(** C8, as stated, fails: on a malformed body the two endpoints answer with
    different bodies, and neither is the text of the specification. *)
Lemma C8_bodies_differ_by_endpoint :
  setup_raises chat (example_host run_success) malformed_body
    (ErrorObject "Unexpected end of JSON input")
  /\ respond chat (example_host run_success) malformed_body
     = Val (error_response 500
              "Failed to process chat request. Check server logs for details.")
  /\ respond competitive_research (example_host run_success) malformed_body
     = Val (error_response 500
              "Failed to process competitive research request. Check server logs for details.")
  /\ body (error_response 500
             "Failed to process chat request. Check server logs for details.")
     <> body (error_response 500
                "Failed to process competitive research request. Check server logs for details.")
  /\ body (error_response 500
             "Failed to process chat request. Check server logs for details.")
     <> JsonBody
          (error_body "Failed to process request. Check server logs for details.").
Proof.
  split; [reflexivity|].
  split; [vm_compute; reflexivity|].
  split; [vm_compute; reflexivity|].
  split; vm_compute; discriminate.
Qed.

Lemma C8_witness :
  setup_raises (endpoint ChatRoute) (example_host run_success) malformed_body
    (ErrorObject "Unexpected end of JSON input")
  /\ respond (endpoint ChatRoute) (example_host run_success) malformed_body
     = Val (error_response 500 (failed_to_process (endpoint ChatRoute))).
Proof.
  split; [reflexivity|].
  apply (C8_setup_failure_answers_500 ChatRoute (example_host run_success)
           malformed_body (ErrorObject "Unexpected end of JSON input")).
  reflexivity.
Defined.

(** ** Ill-typed bodies *)

(** Destructuring [null] raises, so a [null] body is a setup failure. *)
Example null_body_fails :
  respond chat (example_host run_success) null_body
  = Val (error_response 500 (failed_to_process chat)).
Proof. vm_compute. reflexivity. Qed.

(** Reading the role of a [null] turn raises. *)
Example null_turn_fails :
  respond chat (example_host run_success) null_turn_body
  = Val (error_response 500 (failed_to_process chat)).
Proof. vm_compute. reflexivity. Qed.

(** The preview of the last user turn needs a string. *)
Example numeric_content_fails :
  respond chat (example_host run_success) numeric_content_body
  = Val (error_response 500 (failed_to_process chat)).
Proof. vm_compute. reflexivity. Qed.

(** In the transcript, any role but [user] is rendered as the assistant's
    and any content is printed as a template literal prints it. *)
Example mixed_history_prompt :
  map prompt (queries (aftermath chat (example_host run_success) mixed_history_body))
  = [SYSTEM_PROMPT chat ++ (nl ++ nl ++ "Previous conversation:" ++ nl)
     ++ "Assistant: a,,1" ++ (nl ++ nl) ++ "User: C"].
Proof. vm_compute. reflexivity. Qed.

(** * Further properties of the handlers *)

(** ** Responses *)

Lemma respond_of_raise ep host request t w :
  attempt ep host request (snd (read_clock host World0)) = (Exn t, w) ->
  respond ep host request = Val (error_response 500 (failed_to_process ep)).
Proof.
  intro H. unfold respond, POST, bind, try_catch, date_now.
  destruct (read_clock host World0) as [t0 w0] eqn:Hclock.
  simpl in H. rewrite H. reflexivity.
Qed.

Lemma response_classes ep host request :
  exists response,
    respond ep host request = Val response
    /\ (response = error_response 400 "Messages array is required"
        \/ response = error_response 400 "No user message found"
        \/ response = error_response 500 (failed_to_process ep)
        \/ exists c, response = stream_response c).
Proof.
  unfold respond.
  destruct (POST ep host request World0) as [o w'] eqn:HPOST.
  apply POST_cases in HPOST. destruct HPOST as [HV [response Hresponse]].
  subst o. exists response. split; [reflexivity|].
  inversion HV as [w1 Hq|w1 Hq|w1 Hq|t w1 Hq|t0 fullPrompt requested w1 Hq];
    subst; eauto 6.
Qed.

(** X1.  A handler never lets an exception escape: every request, whatever
    its body and whatever the SDK does, gets one of four responses, the two
    400 rejections, the endpoint's 500, or a 200 stream.  By the end of its
    callback the stream is closed, with one exception: when the iteration
    over the SDK raises a value that has no string conversion, the [catch]
    block of the callback raises in its turn, after the response was
    returned, and the stream is errored instead of closed. *)
Theorem handler_always_answers ep host request :
  exists response,
    respond ep host request = Val response
    /\ (response = error_response 400 "Messages array is required"
        \/ response = error_response 400 "No user message found"
        \/ response = error_response 500 (failed_to_process ep)
        \/ exists c run,
             response = stream_response c
             /\ upstream_of ep host request = Some run
             /\ closed c = negb (unprintable (ending run))
             /\ errored c = unprintable (ending run)).
Proof.
  destruct (response_classes ep host request)
    as (response & Hresponse & [H|[H|[H|[c H]]]]);
    exists response; (split; [exact Hresponse|]); auto.
  right; right; right. subst response.
  assert (Hc : stream_of (respond ep host request) = Some c)
    by (rewrite Hresponse; reflexivity).
  destruct (stream_shape _ _ _ _ Hc) as (run & Hrun & _ & [Hclosed Herrored] & _).
  exists c, run. auto.
Qed.

Lemma queries_of_response ep host request :
  match stream_of (respond ep host request) with
  | Some _ => exists call, queries (aftermath ep host request) = [call]
  | None => queries (aftermath ep host request) = []
  end.
Proof.
  unfold respond, aftermath.
  destruct (POST ep host request World0) as [o w'] eqn:HPOST.
  apply POST_cases in HPOST. destruct HPOST as [HV _].
  inversion HV as [w1 Hq|w1 Hq|w1 Hq|t w1 Hq|t0 fullPrompt requested w1 Hq];
    subst; simpl; try exact Hq.
  destruct (start_advance ep host t0 fullPrompt requested w1)
    as (_ & _ & _ & _ & Hqueries).
  rewrite Hqueries, Hq. simpl. eauto.
Qed.

(** X2.  The SDK is queried exactly once for a request that is answered
    with a stream, and never for a request that is rejected or fails. *)
Theorem query_only_for_a_stream ep host request :
  match stream_of (respond ep host request) with
  | Some _ => exists call, queries (aftermath ep host request) = [call]
  | None => queries (aftermath ep host request) = []
  end.
Proof.
  apply queries_of_response.
Qed.

(** ** The stream as a translation *)

(** X3.  The stream of a response is the translation of the upstream run:
    the frames of each message, in upstream order, then the sentinel when
    the iteration returned, or the stream-error frame when it raised a
    value that has a string conversion, the controller closed either way;
    when it raised a value that has none, nothing follows the frames of the
    messages and the stream is errored, not closed. *)
Theorem stream_is_the_translation ep host request c run :
  stream_of (respond ep host request) = Some c ->
  upstream_of ep host request = Some run ->
  queue c
  = (map FrameChunk (flat_map emitted (yielded run))
     ++ match ending run with
        | Returned => [Sentinel]
        | Raised (Convertible _) => [FrameChunk (Error "Stream error occurred")]
        | Raised Inconvertible => []
        end)%list
  /\ match ending run with
     | Raised Inconvertible => closed c = false /\ errored c = true
     | _ => closed c = true /\ errored c = false
     end.
Proof.
  intros Hc Hrun.
  destruct (stream_shape _ _ _ _ Hc) as (run' & Hrun' & Hqueue & [Hclosed Herrored] & _).
  rewrite Hrun in Hrun'. inversion Hrun'; subst run'.
  split; [exact Hqueue|].
  destruct (ending run) as [|[error|]]; simpl in *; auto.
Qed.

Lemma stream_is_the_translation_witness :
  stream_of (respond chat (example_host run_unprintable) (typed_request hello None))
  = Some stream_errored
  /\ upstream_of chat (example_host run_unprintable) (typed_request hello None)
     = Some run_unprintable
  /\ queue stream_errored = map FrameChunk (flat_map emitted (yielded run_unprintable))
  /\ errored stream_errored = true.
Proof.
  split; [vm_compute; reflexivity|].
  split; [vm_compute; reflexivity|].
  destruct (stream_is_the_translation chat (example_host run_unprintable)
              (typed_request hello None) stream_errored run_unprintable)
    as [Hqueue [_ Herrored]];
    [vm_compute; reflexivity | vm_compute; reflexivity |].
  split; [|exact Herrored].
  rewrite Hqueue. apply app_nil_r.
Defined.

Lemma emitted_error_is_generic m message :
  In (Error message) (emitted m) ->
  message = "Query did not complete successfully".
Proof.
  destruct m as [[[[text|]|]|]|[blocks|]|tool elapsed|subtype|]; simpl;
    try tauto.
  - intros [H|[]]; discriminate.
  - intro H. apply in_map_iff in H. destruct H as (name & H & _). discriminate.
  - intros [H|[]]; discriminate.
  - destruct (subtype =? "success"); simpl; intros [H|[]];
      [discriminate|inversion H; reflexivity].
Qed.

(** X4.  Nothing of a failure reaches the client: whatever the subtype of a
    failed completion and whatever value the iteration raises, an [error]
    frame on the stream carries one of the two fixed messages. *)
Theorem error_frames_are_generic ep host request c message :
  stream_of (respond ep host request) = Some c ->
  In (FrameChunk (Error message)) (queue c) ->
  message = "Query did not complete successfully"
  \/ message = "Stream error occurred".
Proof.
  intros Hc Hin.
  destruct (stream_shape _ _ _ _ Hc) as (run & _ & Hqueue & _).
  rewrite Hqueue in Hin. apply in_app_or in Hin. destruct Hin as [Hin|Hin].
  - left. apply in_map_iff in Hin. destruct Hin as (f & Hf & Hin).
    inversion Hf; subst f. apply in_flat_map in Hin.
    destruct Hin as (m & _ & Hin). exact (emitted_error_is_generic m message Hin).
  - right. destruct (ending run) as [|[error|]]; simpl in Hin;
      try (destruct Hin as [Hin|Hin]); try contradiction; inversion Hin; reflexivity.
Qed.

Lemma error_frames_are_generic_witness :
  stream_of (respond chat (example_host run_raised) (typed_request hello None))
  = Some stream_raised
  /\ In (FrameChunk (Error "Stream error occurred")) (queue stream_raised).
Proof.
  split; [vm_compute; reflexivity|].
  destruct (error_frames_are_generic chat (example_host run_raised)
              (typed_request hello None) stream_raised "Stream error occurred")
    as [H|H];
    [vm_compute; reflexivity | simpl; auto | discriminate H | simpl; auto].
Defined.

(** ** The counters of the relay *)

Lemma existsb_eqb_In name s :
  existsb (String.eqb name) s = true <-> In name s.
Proof.
  rewrite existsb_exists. split.
  - intros (x & Hin & Heq). apply String.eqb_eq in Heq. subst. exact Hin.
  - intro Hin. exists name. split; [exact Hin|apply String.eqb_refl].
Qed.

Lemma set_add_NoDup name s : NoDup s -> NoDup (set_add name s).
Proof.
  intro Hs. unfold set_add.
  destruct (existsb (String.eqb name) s) eqn:Hseen; [exact Hs|].
  apply NoDup_app; [exact Hs|repeat constructor; intros []|].
  intros x Hx [Hname|[]]. subst x.
  apply existsb_eqb_In in Hx. congruence.
Qed.

Lemma fold_set_add_NoDup names : forall s,
  NoDup s -> NoDup (fold_left (fun s name => set_add name s) names s).
Proof.
  induction names as [|name names IH]; intros s Hs; [exact Hs|].
  simpl. apply IH. apply set_add_NoDup. exact Hs.
Qed.

(** X5.  When the callback has finished, its counters agree with what it
    sent: [textChunksStreamed] is the number of [text_delta] frames on the
    stream, and [toolsUsed] lists, without repetition and in order of first
    appearance, the tools of the [tool_start] frames. *)
Theorem counters_agree_with_the_stream ep host streamStartTime fullPrompt requested w :
  textChunksStreamed (start ep host streamStartTime fullPrompt requested w)
  = length (text_deltas
              (queue (controller (start ep host streamStartTime fullPrompt requested w))))
  /\ toolsUsed (start ep host streamStartTime fullPrompt requested w)
     = distinct (tool_starts
                   (queue (controller
                             (start ep host streamStartTime fullPrompt requested w))))
  /\ NoDup (toolsUsed (start ep host streamStartTime fullPrompt requested w)).
Proof.
  destruct (start_advance ep host streamStartTime fullPrompt requested w)
    as (Hqueue & _ & Htools & Hchunks & _).
  rewrite Hqueue, text_deltas_app, tool_starts_app,
    text_deltas_emitted, tool_starts_emitted.
  assert (Htail : forall e, text_deltas (closing e) = [] /\ tool_starts (closing e) = []).
  { intros [|[t|]]; split; reflexivity. }
  destruct (Htail (ending (query host
                             {| prompt := fullPrompt;
                                options := query_options ep host requested |})))
    as [Htexts Hstarts].
  rewrite Htexts, Hstarts, !app_nil_r.
  split; [exact Hchunks|]. split; [exact Htools|].
  rewrite Htools. apply fold_set_add_NoDup. constructor.
Qed.

(** ** Messages the relay does not know *)

Lemma on_blocks_without_tool_use ep blocks : forall r,
  tool_use_names blocks = [] -> fold_left (on_block ep) blocks r = r.
Proof.
  induction blocks as [|[name|] blocks IH]; intros r H; simpl in *;
    [reflexivity|discriminate|auto].
Qed.

(** X6.  A message the relay has no frame for (a message of another type, a
    stream event that is not a text delta, an assistant message without a
    tool use) is dropped without a trace: the stream, the counters and the
    telemetry are what they were. *)
Theorem unknown_messages_change_nothing ep host streamStartTime r m :
  emitted m = [] ->
  on_message ep host streamStartTime r m = r.
Proof.
  unfold on_message.
  destruct m as [[[[text|]|]|]|[blocks|]|tool elapsed|subtype|]; simpl;
    try reflexivity; try discriminate.
  - intro H. apply on_blocks_without_tool_use.
    destruct (tool_use_names blocks); [reflexivity|discriminate].
  - destruct (subtype =? "success"); discriminate.
Qed.

Lemma unknown_messages_change_nothing_witness :
  emitted (SDKAssistantMessage (Some [OtherBlock])) = []
  /\ forall r,
       on_message chat (example_host run_success) 0 r
         (SDKAssistantMessage (Some [OtherBlock])) = r.
Proof.
  split; [reflexivity|].
  intro r.
  apply (unknown_messages_change_nothing chat (example_host run_success) 0 r
           (SDKAssistantMessage (Some [OtherBlock]))).
  reflexivity.
Defined.

(** ** Rejections *)

(** X7.  A body that is not [null] and whose [messages] member is missing
    or is anything but an array (a string, a number, an object, [null]) is
    answered 400 with the message that the messages array is required. *)
Theorem non_array_messages_rejected ep host request parsed messages :
  json request = Val parsed ->
  destructure parsed "messages" = Val messages ->
  isArray messages = false ->
  respond ep host request = Val (error_response 400 "Messages array is required")
  /\ queries (aftermath ep host request) = [].
Proof.
  intros Hparsed Hmessages Harray.
  assert (Hrespond : respond ep host request
                     = Val (error_response 400 "Messages array is required")).
  { eapply rejected_without_array; eauto. }
  split; [exact Hrespond|].
  assert (Hq := queries_of_response ep host request).
  rewrite Hrespond in Hq. exact Hq.
Qed.

Lemma non_array_messages_rejected_witness :
  json string_messages_body = Val (JObj [("messages", JStr "hello")])
  /\ destructure (JObj [("messages", JStr "hello")]) "messages" = Val (Some (JStr "hello"))
  /\ isArray (Some (JStr "hello")) = false
  /\ respond chat (example_host run_success) string_messages_body
     = Val (error_response 400 "Messages array is required").
Proof.
  split; [reflexivity|]. split; [reflexivity|]. split; [reflexivity|].
  apply (non_array_messages_rejected chat (example_host run_success)
           string_messages_body (JObj [("messages", JStr "hello")])
           (Some (JStr "hello"))); reflexivity.
Defined.

Lemma filter_user_none items :
  Forall (fun m => m <> JNull /\ role_is_user m = false) items ->
  filter_user items = Val [].
Proof.
  induction 1 as [|m items [Hnull Hrole] _ IH]; [reflexivity|].
  simpl. unfold role_is_user in Hrole.
  destruct (member m "role") as [role|t] eqn:Hm.
  - rewrite IH, Hrole. reflexivity.
  - destruct m; simpl in Hm; try discriminate. congruence.
Qed.

(** X8.  An array in which no turn has the role [user] (the comparison is
    exact: [User] is not [user]) is answered 400 with the message that no
    user message was found, and the SDK is not queried. *)
Theorem no_user_turn_rejected ep host request parsed items :
  json request = Val parsed ->
  destructure parsed "messages" = Val (Some (JArr items)) ->
  Forall (fun m => m <> JNull /\ role_is_user m = false) items ->
  respond ep host request = Val (error_response 400 "No user message found")
  /\ queries (aftermath ep host request) = [].
Proof.
  intros Hparsed Hmessages Hitems.
  assert (Hrespond : respond ep host request
                     = Val (error_response 400 "No user message found")).
  { eapply rejected_without_user; eauto using filter_user_none. }
  split; [exact Hrespond|].
  assert (Hq := queries_of_response ep host request).
  rewrite Hrespond in Hq. exact Hq.
Qed.

Lemma no_user_turn_rejected_witness :
  json capitalised_role_body
  = Val (JObj [("messages",
                JArr [JObj [("role", JStr "User"); ("content", JStr "hi")]])])
  /\ respond competitive_research (example_host run_success) capitalised_role_body
     = Val (error_response 400 "No user message found").
Proof.
  split; [reflexivity|].
  apply (no_user_turn_rejected competitive_research (example_host run_success)
           capitalised_role_body
           (JObj [("messages",
                   JArr [JObj [("role", JStr "User"); ("content", JStr "hi")]])])
           [JObj [("role", JStr "User"); ("content", JStr "hi")]]);
    [reflexivity | reflexivity |].
  repeat constructor; discriminate.
Defined.

(** ** Failures of the setup, by cause *)

Lemma filter_user_null items :
  In JNull items -> exists t, filter_user items = Exn t.
Proof.
  induction items as [|m items IH]; [intros []|].
  intros [Hm|Hin].
  - subst m. simpl. eauto.
  - simpl. destruct (member m "role") as [role|t]; [|eauto].
    destruct (IH Hin) as [t Ht]. rewrite Ht. eauto.
Qed.

Lemma converse_raises ep host items requested w t :
  filter_user items = Exn t ->
  converse ep host items requested w = (Exn t, w).
Proof.
  intro H. unfold converse, bind, lift. rewrite H. reflexivity.
Qed.

(** X9.  A [null] anywhere in the messages array makes the request fail
    with the endpoint's 500, not with a 400, even when a user turn is
    present. *)
Theorem null_turn_fails_the_request ep host request parsed items :
  json request = Val parsed ->
  destructure parsed "messages" = Val (Some (JArr items)) ->
  In JNull items ->
  respond ep host request = Val (error_response 500 (failed_to_process ep)).
Proof.
  intros Hparsed Hmessages Hnull.
  destruct (filter_user_null items Hnull) as [t Ht].
  destruct (attempt_validates ep host request parsed (Some (JArr items))
              (snd (read_clock host World0)) Hparsed Hmessages) as [requested Hattempt].
  eapply respond_of_raise. rewrite Hattempt.
  change (validate ep host (Some (JArr items)) requested)
    with (converse ep host items requested).
  apply converse_raises. exact Ht.
Qed.

Lemma null_turn_fails_the_request_witness :
  json {| json := Val (JObj [("messages",
                              JArr [JObj [("role", JStr "user"); ("content", JStr "hi")];
                                    JNull])]) |}
  = Val (JObj [("messages",
                JArr [JObj [("role", JStr "user"); ("content", JStr "hi")]; JNull])])
  /\ respond chat (example_host run_success)
       {| json := Val (JObj [("messages",
                              JArr [JObj [("role", JStr "user"); ("content", JStr "hi")];
                                    JNull])]) |}
     = Val (error_response 500 (failed_to_process chat)).
Proof.
  split; [reflexivity|].
  apply (null_turn_fails_the_request chat (example_host run_success) _
           (JObj [("messages",
                   JArr [JObj [("role", JStr "user"); ("content", JStr "hi")]; JNull])])
           [JObj [("role", JStr "user"); ("content", JStr "hi")]; JNull]);
    [reflexivity | reflexivity | simpl; auto].
Defined.

Lemma filter_user_total items :
  Forall (fun m => m <> JNull) items -> exists users, filter_user items = Val users.
Proof.
  induction 1 as [|m items Hm _ [users IH]]; [exists []; reflexivity|].
  simpl. rewrite IH.
  destruct (member m "role") as [role|t] eqn:Hrole; [eauto|].
  destruct m; simpl in Hrole; try discriminate. congruence.
Qed.

Lemma filter_user_app l1 l2 u1 u2 :
  filter_user l1 = Val u1 -> filter_user l2 = Val u2 ->
  filter_user (l1 ++ l2) = Val (u1 ++ u2)%list.
Proof.
  revert u1. induction l1 as [|m l1 IH]; intros u1 H1 H2; simpl in *.
  - inversion H1; subst. exact H2.
  - destruct (member m "role") as [role|t]; [|discriminate].
    destruct (filter_user l1) as [users|t]; [|discriminate].
    rewrite (IH users eq_refl H2). inversion H1; subst.
    destruct (is_string role "user"); reflexivity.
Qed.

(** X10.  When the last turn of role [user] has no string content (the
    member is missing, [null], a number, an array or an object), the request
    fails with the endpoint's 500: the turn passes validation and the
    handler then raises on its preview. *)
Theorem unreadable_user_content_fails ep host request parsed before u after :
  json request = Val parsed ->
  destructure parsed "messages" = Val (Some (JArr (before ++ u :: after))) ->
  Forall (fun m => m <> JNull) before ->
  role_is_user u = true ->
  Forall (fun m => m <> JNull /\ role_is_user m = false) after ->
  (forall s, member u "content" <> Val (Some (JStr s))) ->
  respond ep host request = Val (error_response 500 (failed_to_process ep)).
Proof.
  intros Hparsed Hmessages Hbefore Hu Hafter Hcontent.
  destruct (filter_user_total before Hbefore) as [users Husers].
  assert (Hrest : filter_user (u :: after) = Val [u]).
  { simpl. unfold role_is_user in Hu.
    destruct (member u "role") as [role|t]; [|discriminate].
    rewrite (filter_user_none after Hafter), Hu. reflexivity. }
  assert (Hall := filter_user_app _ _ _ _ Husers Hrest).
  assert (Hpreview : exists v t,
            member u "content" = Val v /\ messagePreview v = Exn t).
  { destruct u; simpl in Hu; try discriminate.
    simpl in *. exists (own_property "content" members).
    destruct (own_property "content" members) as [[]|];
      try (eexists; split; reflexivity).
    exfalso. eapply Hcontent. reflexivity. }
  destruct Hpreview as (v & t & Hv & Ht).
  destruct (attempt_validates ep host request parsed _
              (snd (read_clock host World0)) Hparsed Hmessages) as [requested Hattempt].
  eapply respond_of_raise with (t := t). rewrite Hattempt.
  change (validate ep host (Some (JArr (before ++ u :: after))) requested)
    with (converse ep host (before ++ u :: after) requested).
  unfold converse, bind, lift, ret, sentryMetrics_increment, sentryMetrics_gauge.
  rewrite Hall, pop_snoc, Hv, Ht. reflexivity.
Qed.

Lemma unreadable_user_content_fails_witness :
  json missing_content_body
  = Val (JObj [("messages",
                JArr ([] ++ JObj [("role", JStr "user")]
                         :: [JObj [("role", JStr "assistant"); ("content", JStr "hi")]]))])
  /\ respond chat (example_host run_success) missing_content_body
     = Val (error_response 500 (failed_to_process chat)).
Proof.
  split; [reflexivity|].
  apply (unreadable_user_content_fails chat (example_host run_success)
           missing_content_body
           (JObj [("messages",
                   JArr ([] ++ JObj [("role", JStr "user")]
                            :: [JObj [("role", JStr "assistant");
                                      ("content", JStr "hi")]]))])
           [] (JObj [("role", JStr "user")])
           [JObj [("role", JStr "assistant"); ("content", JStr "hi")]]);
    [reflexivity | reflexivity | constructor | reflexivity | |].
  - repeat constructor; discriminate.
  - intros s H. discriminate H.
Defined.

(** ** The prompt of any well-typed conversation *)

Lemma turn_line_nonempty m rest :
  (join (nl ++ nl) (turn_line m :: rest) =? EmptyString) = false.
Proof.
  unfold turn_line. destruct (role m); destruct rest; reflexivity.
Qed.

(** X11.  For every well-typed conversation with a user turn, the query is
    the content of the last user turn, wherever it stands, and the
    transcript is every turn but the last one.  A conversation of a single
    turn has no transcript: the prompt is the system prompt and the query,
    without the [Previous conversation:] heading. *)
Theorem prompt_of_a_typed_conversation ep host request parsed items messages active :
  json request = Val parsed ->
  destructure parsed "messages" = Val (Some (JArr items)) ->
  Forall2 typed_as items messages ->
  last_user_content messages = Some active ->
  exists call,
    queries (aftermath ep host request) = [call]
    /\ prompt call
       = match removelast messages with
         | [] => SYSTEM_PROMPT ep ++ (nl ++ nl) ++ ("User: " ++ active)
         | earlier =>
             SYSTEM_PROMPT ep ++ (nl ++ nl ++ "Previous conversation:" ++ nl)
             ++ join (nl ++ nl) (map turn_line earlier)
             ++ (nl ++ nl) ++ ("User: " ++ active)
         end.
Proof.
  intros Hparsed Hmessages Htyped Hactive.
  destruct (typed_conversation_streams ep host request parsed items messages active
              Hparsed Hmessages Htyped Hactive)
    as [_ [requested Hcall]].
  eexists. split; [exact Hcall|].
  simpl prompt. unfold prompt_of, fullPrompt, transcript.
  destruct (removelast messages) as [|m earlier].
  - reflexivity.
  - cbn [map]. rewrite turn_line_nonempty. simpl negb. cbv iota.
    rewrite !append_assoc. reflexivity.
Qed.

Lemma prompt_of_a_typed_conversation_witness :
  json (typed_request hello None) = Val (body_json hello None)
  /\ last_user_content hello = Some "Hello"
  /\ exists call,
       queries (aftermath chat (example_host run_success) (typed_request hello None))
       = [call]
       /\ prompt call = SYSTEM_PROMPT chat ++ (nl ++ nl) ++ "User: Hello".
Proof.
  split; [reflexivity|]. split; [reflexivity|].
  apply (prompt_of_a_typed_conversation chat (example_host run_success)
           (typed_request hello None) (body_json hello None)
           (map message_json hello) hello "Hello");
    [reflexivity | reflexivity | repeat constructor | reflexivity].
Defined.

(** ** The options of the query *)

Lemma attempt_validates_requested ep host request parsed messages w :
  json request = Val parsed ->
  destructure parsed "messages" = Val messages ->
  attempt ep host request w = validate ep host messages (requested_of ep parsed) w.
Proof.
  intros Hparsed Hmessages.
  destruct (destructure_model_total _ _ Hmessages) as [requested Hmodel].
  unfold attempt, bind, lift, ret, requested_of. rewrite Hparsed, Hmessages, Hmodel.
  destruct (reads_model ep); reflexivity.
Qed.

Lemma converse_queries ep host items requested w o w' :
  converse ep host items requested w = (o, w') ->
  queries w' = queries w
  \/ exists p,
       queries w' = (queries w
                     ++ [{| prompt := p; options := query_options ep host requested |}])%list.
Proof.
  unfold converse, bind, lift, ret, date_now, read_clock,
    sentryMetrics_increment, sentryMetrics_gauge, sentryLogger.
  intro H.
  repeat run_step; simpl in *; auto.
  right.
  match goal with
  | |- context [start ep host ?t0 ?p requested ?w1] =>
      destruct (start_advance ep host t0 p requested w1) as (_ & _ & _ & _ & Hq);
      exists p; rewrite Hq; reflexivity
  end.
Qed.

Lemma validate_queries ep host messages requested w o w' :
  validate ep host messages requested w = (o, w') ->
  queries w' = queries w
  \/ exists p,
       queries w' = (queries w
                     ++ [{| prompt := p; options := query_options ep host requested |}])%list.
Proof.
  unfold validate, bind, ret, sentryMetrics_increment, sentryLogger.
  destruct (negb (truthy messages) || negb (isArray messages)); intro H.
  - inversion H; subst. left. reflexivity.
  - eapply converse_queries. exact H.
Qed.

(** X12.  The options of the one query are fixed but for the model.  The
    chat endpoint passes no model, whatever the body says.  The
    competitive-research endpoint passes the body's [model] member when it
    is truthy, and its default model when the member is missing, [null],
    [false], zero or the empty string. *)
Theorem model_passed_to_the_sdk ep host request parsed call :
  json request = Val parsed ->
  queries (aftermath ep host request) = [call] ->
  options call = query_options ep host (requested_of ep parsed)
  /\ (reads_model ep = false -> model (options call) = None)
  /\ (reads_model ep = true ->
      truthy (requested_of ep parsed) = false ->
      model (options call) = Some (JStr (default_model ep)))
  /\ (reads_model ep = true ->
      forall v, requested_of ep parsed = Some v ->
      truthy (Some v) = true ->
      model (options call) = Some v).
Proof.
  intros Hparsed Hcall.
  assert (Hoptions : options call = query_options ep host (requested_of ep parsed)).
  { revert Hcall. unfold aftermath, POST, bind, try_catch, date_now, read_clock.
    cbv beta iota zeta.
    destruct (destructure parsed "messages") as [messages|t] eqn:Hmessages.
    - rewrite (attempt_validates_requested ep host request parsed messages _
                 Hparsed Hmessages).
      match goal with
      | |- context [validate ep host messages ?req ?w] =>
          destruct (validate ep host messages req w) as [o w1] eqn:Hvalidate
      end.
      apply validate_queries in Hvalidate. simpl in Hvalidate.
      assert (Hafter : forall w2,
                queries w2 = queries w1 -> queries w2 = [call] ->
                options call = query_options ep host (requested_of ep parsed)).
      { intros w2 H2 H. rewrite H2 in H.
        destruct Hvalidate as [Hq|[p Hq]]; rewrite Hq in H;
          [discriminate|inversion H; reflexivity]. }
      destruct o as [response|t]; simpl.
      + apply Hafter. reflexivity.
      + apply Hafter. reflexivity.
    - unfold attempt, bind, lift. rewrite Hparsed, Hmessages. simpl. discriminate. }
  split; [exact Hoptions|].
  rewrite Hoptions. unfold query_options. simpl model.
  split; [intro Hr; rewrite Hr; reflexivity|]. split.
  - intros Hr Hfalse. rewrite Hr. f_equal. unfold or_else.
    destruct (requested_of ep parsed); [rewrite Hfalse|]; reflexivity.
  - intros Hr v Hv Htrue. rewrite Hr, Hv. f_equal. unfold or_else.
    rewrite Htrue. reflexivity.
Qed.

Lemma model_passed_to_the_sdk_witness :
  json (typed_request hello None) = Val (body_json hello None)
  /\ exists call,
       queries (aftermath competitive_research (example_host run_success)
                  (typed_request hello None)) = [call]
       /\ model (options call) = Some (JStr "claude-sonnet-4-5-20250929").
Proof.
  split; [reflexivity|].
  eexists. split; [vm_compute; reflexivity|].
  refine (proj1 (proj2 (proj2
            (model_passed_to_the_sdk competitive_research (example_host run_success)
               (typed_request hello None) (body_json hello None) _ eq_refl _)))
            eq_refl eq_refl).
  vm_compute. reflexivity.
Defined.

(** * Properties of the window manager *)

Module WindowManagerFacts.

Import WindowManager.

Section Facts.

Context {Extra : Type}.

Implicit Types (d : Desktop Extra) (w v : WindowState Extra)
  (l : list (WindowState Extra)).

Lemma consistent_good d : Consistent d <-> Good (topZIndex d) (windows d).
Proof.
  split.
  - intros [H1 H2 H3 H4]. repeat split; assumption.
  - intros (H1 & H2 & H3 & H4). constructor; assumption.
Qed.

Lemma lookup_none name l : lookup name l = None -> ~ In name (map id l).
Proof.
  unfold lookup. intros Hfind Hin.
  apply in_map_iff in Hin. destruct Hin as (w & Hid & Hin).
  apply (find_none _ _ Hfind) in Hin. simpl in Hin.
  rewrite Hid, String.eqb_refl in Hin. discriminate.
Qed.

Lemma lookup_some name l existing :
  lookup name l = Some existing -> In existing l /\ id existing = name.
Proof.
  unfold lookup. intro Hfind. apply find_some in Hfind.
  destruct Hfind as [Hin Heq]. apply String.eqb_eq in Heq. auto.
Qed.

Lemma lookup_absent name l : ~ In name (map id l) -> lookup name l = None.
Proof.
  unfold lookup. intro Hnot.
  destruct (find (fun w => id w =? name) l) as [w|] eqn:Hfind; [|reflexivity].
  apply find_some in Hfind. destruct Hfind as [Hin Heq].
  apply String.eqb_eq in Heq. exfalso. apply Hnot. rewrite <- Heq.
  apply in_map. exact Hin.
Qed.

(** Bringing a window to the front: the target is rewritten by [up], which
    gives it the new z-index and the focus, every other window loses the
    focus. *)
Section Raise.

Variable up : WindowState Extra -> WindowState Extra.
Variable newZ : Z.
Variable name : string.
Hypothesis up_id : forall w, id (up w) = id w.
Hypothesis up_z : forall w, zIndex (up w) = newZ.
Hypothesis up_focus : forall w, isFocused (up w) = true.

Lemma raise_ids l : map id (raise up name l) = map id l.
Proof.
  unfold raise. rewrite map_map. apply map_ext. intro w.
  destruct (id w =? name); [apply up_id|reflexivity].
Qed.

Lemma raise_absent l : ~ In name (map id l) -> raise up name l = map unfocused l.
Proof.
  unfold raise. intro Hnot. apply map_ext_in. intros w Hin.
  destruct (id w =? name) eqn:Heq; [|reflexivity].
  apply String.eqb_eq in Heq. exfalso. apply Hnot. rewrite <- Heq.
  apply in_map. exact Hin.
Qed.

Lemma raise_z_in l z :
  In z (map zIndex (raise up name l)) -> z = newZ \/ In z (map zIndex l).
Proof.
  unfold raise. rewrite map_map. intro Hin. apply in_map_iff in Hin.
  destruct Hin as (w & Hz & Hin).
  destruct (id w =? name).
  - left. rewrite <- Hz. apply up_z.
  - right. rewrite <- Hz. simpl. apply in_map. exact Hin.
Qed.

Lemma unfocused_zs l : map zIndex (map unfocused l) = map zIndex l.
Proof.
  rewrite map_map. reflexivity.
Qed.

Lemma raise_z_distinct top l :
  (top < newZ)%Z ->
  NoDup (map id l) -> NoDup (map zIndex l) ->
  Forall (fun w => (zIndex w <= top)%Z) l ->
  NoDup (map zIndex (raise up name l)).
Proof.
  intros HnewZ Hids Hzs Hbound.
  induction l as [|w l IH]; [constructor|].
  simpl in Hids, Hzs.
  inversion Hids as [|i rest_ids Hid_notin Hids_rest]; subst.
  inversion Hzs as [|z zs Hz_notin Hzs']; subst.
  inversion Hbound as [|w' l' Hw Hl]; subst.
  assert (Hfresh : ~ In newZ (map zIndex l)).
  { intro Hin. apply in_map_iff in Hin. destruct Hin as (v & Hv & Hin).
    rewrite Forall_forall in Hl. apply Hl in Hin. lia. }
  change (raise up name (w :: l))
    with ((if id w =? name then up w else unfocused w) :: raise up name l).
  destruct (id w =? name) eqn:Heq.
  - apply String.eqb_eq in Heq. rewrite Heq in Hid_notin.
    rewrite (raise_absent l Hid_notin). simpl map.
    rewrite unfocused_zs, up_z. constructor; assumption.
  - simpl map. constructor; [|apply IH; assumption].
    intro Hin. apply raise_z_in in Hin. simpl in Hin.
    destruct Hin as [Hin|Hin]; [lia|contradiction].
Qed.

Lemma raise_good top l :
  (top < newZ)%Z -> Good top l -> Good newZ (raise up name l).
Proof.
  intros HnewZ (Hids & Hzs & Hbound & _).
  split; [rewrite raise_ids; exact Hids|].
  split; [eapply raise_z_distinct; eassumption|].
  split.
  - apply Forall_forall. intros v Hin. apply in_map_iff in Hin.
    destruct Hin as (w & Hv & Hin). subst v.
    rewrite Forall_forall in Hbound. apply Hbound in Hin.
    destruct (id w =? name); [rewrite up_z|simpl]; lia.
  - apply Forall_forall. intros v Hin. apply in_map_iff in Hin.
    destruct Hin as (w & Hv & Hin). subst v.
    destruct (id w =? name); [intros _; apply up_z|simpl; discriminate].
Qed.

(** After a raise the target has the focus and the new z-index, and every
    other window is without focus and strictly below. *)
Lemma raise_on_top top l :
  (top < newZ)%Z ->
  Forall (fun w => (zIndex w <= top)%Z) l ->
  Forall (fun w => if id w =? name
                   then isFocused w = true /\ zIndex w = newZ
                   else isFocused w = false /\ (zIndex w < newZ)%Z)
    (raise up name l).
Proof.
  intros HnewZ Hbound.
  apply Forall_forall. intros v Hin. apply in_map_iff in Hin.
  destruct Hin as (w & Hv & Hin). subst v.
  rewrite Forall_forall in Hbound. apply Hbound in Hin.
  destruct (id w =? name) eqn:Heq.
  - rewrite up_id, Heq. auto.
  - simpl. rewrite Heq. split; [reflexivity|lia].
Qed.

End Raise.

(** Rewriting one window in place, without touching its id or z-index and
    without giving it the focus. *)
Lemma rewrite_good (g : WindowState Extra -> WindowState Extra) name top l :
  (forall w, id (g w) = id w) ->
  (forall w, zIndex (g w) = zIndex w) ->
  (forall w, isFocused (g w) = true -> isFocused w = true) ->
  Good top l ->
  Good top (map (fun w => if id w =? name then g w else w) l).
Proof.
  intros Hid Hz Hfocus (Hids & Hzs & Hbound & Htop).
  assert (Hmap_id : map id (map (fun w => if id w =? name then g w else w) l)
                    = map id l).
  { rewrite map_map. apply map_ext. intro w. destruct (id w =? name); auto. }
  assert (Hmap_z : map zIndex (map (fun w => if id w =? name then g w else w) l)
                   = map zIndex l).
  { rewrite map_map. apply map_ext. intro w. destruct (id w =? name); auto. }
  split; [rewrite Hmap_id; exact Hids|].
  split; [rewrite Hmap_z; exact Hzs|].
  split.
  - apply Forall_forall. intros v Hin. apply in_map_iff in Hin.
    destruct Hin as (w & Hv & Hin). subst v.
    rewrite Forall_forall in Hbound. apply Hbound in Hin.
    destruct (id w =? name); [rewrite Hz|]; exact Hin.
  - apply Forall_forall. intros v Hin. apply in_map_iff in Hin.
    destruct Hin as (w & Hv & Hin). subst v.
    rewrite Forall_forall in Htop. assert (Hw := Htop w Hin).
    destruct (id w =? name); [|exact Hw].
    intro Hf. rewrite Hz. apply Hw. apply Hfocus. exact Hf.
Qed.

(** Filtering keeps a key distinct. *)
Lemma filter_keeps_distinct {K : Type} (key : WindowState Extra -> K)
  (keep : WindowState Extra -> bool) l :
  NoDup (map key l) -> NoDup (map key (filter keep l)).
Proof.
  intro Hdistinct.
  induction l as [|w l IH]; simpl in *; [constructor|].
  inversion Hdistinct as [|k ks Hfresh Hrest]; subst.
  destruct (keep w); simpl; [|exact (IH Hrest)].
  constructor; [|exact (IH Hrest)].
  intro Hin. apply Hfresh. apply in_map_iff in Hin.
  destruct Hin as (v & Hv & Hin). apply filter_In in Hin.
  rewrite <- Hv. apply in_map. tauto.
Qed.

Lemma filter_good (p : WindowState Extra -> bool) top l :
  Good top l -> Good top (filter p l).
Proof.
  intros (Hids & Hzs & Hbound & Htop).
  split; [apply filter_keeps_distinct; exact Hids|].
  split; [apply filter_keeps_distinct; exact Hzs|].
  split; apply Forall_forall; intros w Hin; apply filter_In in Hin;
    destruct Hin as [Hin _];
    [rewrite Forall_forall in Hbound|rewrite Forall_forall in Htop]; auto.
Qed.

Lemma created_good top l window :
  Good top l -> lookup (d_id window) l = None ->
  Good (top + 1) (map unfocused l ++ [created (top + 1) window]).
Proof.
  intros (Hids & Hzs & Hbound & _) Hnone.
  apply lookup_none in Hnone.
  assert (Hfresh : ~ In (top + 1)%Z (map zIndex l)).
  { intro Hin. apply in_map_iff in Hin. destruct Hin as (v & Hv & Hin).
    rewrite Forall_forall in Hbound. apply Hbound in Hin. lia. }
  split; [|split; [|split]].
  - rewrite map_app, map_map. simpl.
    apply NoDup_app; [exact Hids|repeat constructor; intros []|].
    intros i Hi [Hname|[]]. subst i. contradiction.
  - rewrite map_app, unfocused_zs. simpl.
    apply NoDup_app; [exact Hzs|repeat constructor; intros []|].
    intros z Hz [Hnew|[]]. subst z. contradiction.
  - apply Forall_app. split.
    + apply Forall_forall. intros v Hin. apply in_map_iff in Hin.
      destruct Hin as (w & Hv & Hin). subst v. simpl.
      rewrite Forall_forall in Hbound. apply Hbound in Hin. lia.
    + repeat constructor. simpl. lia.
  - apply Forall_app. split.
    + apply Forall_forall. intros v Hin. apply in_map_iff in Hin.
      destruct Hin as (w & Hv & Hin). subst v. simpl. discriminate.
    + repeat constructor.
Qed.

(** An updater that returns made every call and gives the state it was
    to give. *)
Lemma reporting_returns sentry calls (after d' : Desktop Extra) :
  reporting sentry calls after = Val d' ->
  windows d' = windows after /\ topZIndex d' = topZIndex after
  /\ journal d' = (journal after ++ calls)%list.
Proof.
  unfold reporting. destruct (first_raise sentry calls); [discriminate|].
  intro H. inversion H. auto.
Qed.

Lemma quiet_first_raise sentry calls : quiet sentry -> first_raise sentry calls = None.
Proof.
  intro Hquiet. induction calls as [|call calls IH]; [reflexivity|].
  simpl. rewrite Hquiet. exact IH.
Qed.

Lemma reporting_quiet sentry calls (after : Desktop Extra) :
  quiet sentry -> exists d', reporting sentry calls after = Val d'.
Proof.
  intro Hquiet. unfold reporting. rewrite (quiet_first_raise _ _ Hquiet). eauto.
Qed.

Lemma reporting_raises sentry call calls (after : Desktop Extra) t :
  raised_by sentry call = Some t -> reporting sentry (call :: calls) after = Exn t.
Proof.
  intro Hraise. unfold reporting. simpl. rewrite Hraise. reflexivity.
Qed.

Lemma perform_quiet sentry d a : quiet sentry -> exists d', perform sentry d a = Val d'.
Proof.
  intro Hquiet.
  destruct a as [window|name|name|name|name|name|name nx ny|name nw nh]; simpl;
    try (eexists; reflexivity);
    unfold openWindow, closeWindow, minimizeWindow, maximizeWindow;
    repeat match goal with
           | |- context [match ?x with _ => _ end] =>
               match x with
               | lookup _ _ => destruct x
               | isMinimized _ => destruct x
               end
           end;
    apply reporting_quiet; exact Hquiet.
Qed.

Lemma good_of (d d' : Desktop Extra) :
  windows d' = windows d -> topZIndex d' = topZIndex d ->
  Good (topZIndex d) (windows d) -> Good (topZIndex d') (windows d').
Proof.
  intros Hw Ht. rewrite Hw, Ht. auto.
Qed.

Lemma perform_consistent sentry d a d' :
  Consistent d -> perform sentry d a = Val d' -> Consistent d'.
Proof.
  rewrite !consistent_good. intros Hgood Hperform.
  destruct a as [window|name|name|name|name|name|name nx ny|name nw nh];
    simpl in Hperform.
  - unfold openWindow in Hperform.
    destruct (lookup (d_id window) (windows d)) as [existing|] eqn:Hlookup;
      [destruct (isMinimized existing)|];
      apply reporting_returns in Hperform; destruct Hperform as (Hw & Ht & _);
      rewrite Hw, Ht; simpl.
    + apply (raise_good (restored (topZIndex d + 1)) (topZIndex d + 1) (d_id window)
               (fun _ => eq_refl) (fun _ => eq_refl) (topZIndex d));
        [lia|exact Hgood].
    + apply (raise_good (focused (topZIndex d + 1)) (topZIndex d + 1) (d_id window)
               (fun _ => eq_refl) (fun _ => eq_refl) (topZIndex d));
        [lia|exact Hgood].
    + apply created_good; assumption.
  - apply reporting_returns in Hperform. destruct Hperform as (Hw & Ht & _).
    rewrite Hw, Ht. simpl. apply filter_good. exact Hgood.
  - apply reporting_returns in Hperform. destruct Hperform as (Hw & Ht & _).
    rewrite Hw, Ht. simpl. apply rewrite_good; auto. simpl. discriminate.
  - apply reporting_returns in Hperform. destruct Hperform as (Hw & Ht & _).
    rewrite Hw, Ht. simpl. apply rewrite_good; auto.
  - inversion Hperform; subst d'.
    apply (raise_good (restored (topZIndex d + 1)) (topZIndex d + 1) name
             (fun _ => eq_refl) (fun _ => eq_refl) (topZIndex d));
      [lia|exact Hgood].
  - inversion Hperform; subst d'.
    apply (raise_good (focused (topZIndex d + 1)) (topZIndex d + 1) name
             (fun _ => eq_refl) (fun _ => eq_refl) (topZIndex d));
      [lia|exact Hgood].
  - inversion Hperform; subst d'. apply rewrite_good; auto.
  - inversion Hperform; subst d'. apply rewrite_good; auto.
Qed.

(** Two windows of a list with a distinct key that agree on the key are
    the same window. *)
Lemma same_key_same_window {K : Type} (key : WindowState Extra -> K) l w v :
  NoDup (map key l) -> In w l -> In v l -> key w = key v -> w = v.
Proof.
  intros Hdistinct Hw Hv Hkey.
  induction l as [|u l IH]; [destruct Hw|].
  simpl in Hdistinct. inversion Hdistinct as [|k ks Hfresh Hrest]; subst.
  destruct Hw as [Hw|Hw], Hv as [Hv|Hv].
  - congruence.
  - subst u. exfalso. apply Hfresh. rewrite Hkey. apply in_map. exact Hv.
  - subst u. exfalso. apply Hfresh. rewrite <- Hkey. apply in_map. exact Hw.
  - exact (IH Hrest Hw Hv).
Qed.

Lemma initial_consistent : Consistent (@initial Extra).
Proof.
  constructor; simpl; constructor.
Qed.

(** X13.  Each operation, run alone on a desktop, keeps it consistent: the
    desktop is consistent at first, and when the windows have distinct ids
    and distinct z-indices, none above the top z-index, and only the window
    on top can have the focus, the same holds of the desktop the operation
    returns, in which at most one window has the focus.  The operation
    returns whenever no call of the SDK raises. *)
Theorem operations_keep_consistency sentry d a :
  Consistent d ->
  Consistent (@initial Extra)
  /\ (quiet sentry -> exists d', perform sentry d a = Val d')
  /\ forall d',
       perform sentry d a = Val d' ->
       Consistent d'
       /\ forall w v,
            In w (windows d') -> In v (windows d') ->
            isFocused w = true -> isFocused v = true ->
            w = v /\ zIndex w = topZIndex d'.
Proof.
  intro Hd. split; [apply initial_consistent|].
  split; [apply perform_quiet|].
  intros d' Hperform.
  assert (Hd' := perform_consistent sentry d a d' Hd Hperform).
  split; [exact Hd'|].
  intros w v Hw Hv Hfw Hfv.
  destruct Hd' as [_ Hzs _ Htop].
  rewrite Forall_forall in Htop.
  assert (Hzw := Htop w Hw Hfw). assert (Hzv := Htop v Hv Hfv).
  split; [|exact Hzw].
  apply (same_key_same_window zIndex _ w v Hzs Hw Hv). congruence.
Qed.

(** X14.  Focusing, restoring or opening a window puts it on top: it has
    the focus and the new top z-index, and every other window is without
    focus and strictly below it.  Opening, when it returns, always leaves a
    window of that id on the desktop, and it returns whenever no call of
    the SDK raises.  When the first call of the SDK raises, as
    [Sentry.metrics.increment] does on a release without it, opening a new
    window raises and gives no desktop. *)
Theorem raised_window_is_on_top sentry d name :
  Consistent d ->
  OnTop name (focusWindow name d)
  /\ OnTop name (restoreWindow name d)
  /\ forall window,
       d_id window = name ->
       (quiet sentry -> exists d', openWindow sentry window d = Val d')
       /\ (forall d',
             openWindow sentry window d = Val d' ->
             OnTop name d' /\ In name (map id (windows d')))
       /\ (forall t,
             lookup name (windows d) = None ->
             raised_by sentry (Increment "window.opened" 1 [("window_type", name)])
             = Some t ->
             openWindow sentry window d = Exn t).
Proof.
  intros [_ _ Hbound _].
  assert (Hfocus : OnTop name (focusWindow name d)).
  { apply (raise_on_top (focused (topZIndex d + 1)) (topZIndex d + 1) name
             (fun _ => eq_refl) (fun _ => eq_refl) (fun _ => eq_refl) (topZIndex d));
      [lia|exact Hbound]. }
  assert (Hrestore : OnTop name (restoreWindow name d)).
  { apply (raise_on_top (restored (topZIndex d + 1)) (topZIndex d + 1) name
             (fun _ => eq_refl) (fun _ => eq_refl) (fun _ => eq_refl) (topZIndex d));
      [lia|exact Hbound]. }
  split; [exact Hfocus|]. split; [exact Hrestore|].
  intros window Hname. subst name.
  split; [exact (perform_quiet sentry d (Open window))|]. split.
  - intros d' Hopen. unfold openWindow in Hopen. unfold OnTop.
    destruct (lookup (d_id window) (windows d)) as [existing|] eqn:Hlookup.
    + apply lookup_some in Hlookup. destruct Hlookup as [Hin Hid].
      assert (Hpresent : forall up, (forall w, id (up w) = id w) ->
                In (d_id window) (map id (raise up (d_id window) (windows d)))).
      { intros up Hup. rewrite (raise_ids up (d_id window) Hup).
        rewrite <- Hid. apply in_map. exact Hin. }
      destruct (isMinimized existing);
        apply reporting_returns in Hopen; destruct Hopen as (Hw & Ht & _);
        rewrite Hw, Ht.
      * split; [exact Hrestore|].
        exact (Hpresent (restored (topZIndex d + 1)) (fun _ => eq_refl)).
      * split; [exact Hfocus|].
        exact (Hpresent (focused (topZIndex d + 1)) (fun _ => eq_refl)).
    + apply reporting_returns in Hopen. destruct Hopen as (Hw & Ht & _).
      rewrite Hw, Ht. split.
      * simpl. apply Forall_app. split.
        -- apply Forall_forall. intros v Hv. apply in_map_iff in Hv.
           destruct Hv as (w & Hwv & Hin). subst v. simpl.
           assert (Hneq : (id w =? d_id window) = false).
           { apply String.eqb_neq. intro Heq. apply (lookup_none _ _ Hlookup).
             rewrite <- Heq. apply in_map. exact Hin. }
           rewrite Hneq. split; [reflexivity|].
           rewrite Forall_forall in Hbound. apply Hbound in Hin. lia.
        -- repeat constructor; simpl; rewrite String.eqb_refl; auto.
      * simpl. rewrite map_app. apply in_or_app. right. simpl. auto.
  - intros t Hlookup Hraise. unfold openWindow. rewrite Hlookup.
    apply reporting_raises. exact Hraise.
Qed.

Lemma filter_all {A : Type} (p : A -> bool) (l : list A) :
  (forall a, In a l -> p a = true) -> filter p l = l.
Proof.
  induction l as [|a l IH]; [reflexivity|].
  intro H. simpl. rewrite (H a (or_introl eq_refl)).
  rewrite IH; [reflexivity|]. intros b Hb. apply H. right. exact Hb.
Qed.

Lemma filter_one_out (p : WindowState Extra -> bool) l w :
  NoDup (map id l) -> In w l ->
  (forall v, p v = negb (id v =? id w)) ->
  length (filter p l) + 1 = length l.
Proof.
  intros Hids Hin Hp.
  induction l as [|v l IH]; [destruct Hin|].
  simpl in Hids. inversion Hids as [|i rest_ids Hnotin Hrest]; subst.
  simpl. rewrite Hp.
  destruct (id v =? id w) eqn:Heq; simpl.
  - apply String.eqb_eq in Heq. rewrite filter_all; [lia|].
    intros u Hu. rewrite Hp. apply negb_true_iff. apply String.eqb_neq.
    intro Hid. apply Hnotin. rewrite Heq, <- Hid. apply in_map. exact Hu.
  - destruct Hin as [Hv|Hin].
    + subst v. rewrite String.eqb_refl in Heq. discriminate.
    + rewrite <- (IH Hrest Hin). lia.
Qed.

(** X15.  Closing, when it returns, removes the window of that id and
    nothing else: the other windows stay as they were and the top z-index
    is kept.  On a consistent desktop the count drops by exactly one, and
    when the closed window had the focus no window has it afterwards.
    Closing returns whenever no call of the SDK raises.  Closing an id that
    is not on the desktop makes no call: whatever the SDK, it returns and
    changes nothing at all. *)
Theorem closing_a_window sentry d name :
  (~ In name (map id (windows d)) -> closeWindow sentry name d = Val d)
  /\ (quiet sentry -> exists d', closeWindow sentry name d = Val d')
  /\ forall d',
       closeWindow sentry name d = Val d' ->
       (forall w, In w (windows d') <-> In w (windows d) /\ id w <> name)
       /\ topZIndex d' = topZIndex d
       /\ (Consistent d -> In name (map id (windows d)) ->
           length (windows d') + 1 = length (windows d)
           /\ forall w, In w (windows d) -> id w = name -> isFocused w = true ->
              Forall (fun v => isFocused v = false) (windows d')).
Proof.
  split; [|split; [exact (perform_quiet sentry d (Close name))|]].
  - intro Habsent. unfold closeWindow, reporting.
    rewrite (lookup_absent _ _ Habsent). simpl. rewrite app_nil_r.
    rewrite filter_all; [destruct d; reflexivity|].
    intros w Hin. apply negb_true_iff. apply String.eqb_neq.
    intro Hid. apply Habsent. rewrite <- Hid. apply in_map. exact Hin.
  - intros d' Hclose. apply reporting_returns in Hclose.
    destruct Hclose as (Hw & Ht & _). rewrite Hw, Ht. simpl.
    split; [|split; [reflexivity|]].
    + intro w. rewrite filter_In. rewrite negb_true_iff, String.eqb_neq.
      reflexivity.
    + intros Hd Hpresent.
      apply in_map_iff in Hpresent. destruct Hpresent as (w & Hid & Hin).
      split.
      * subst name.
        apply (filter_one_out _ _ w (ids_distinct d Hd) Hin). reflexivity.
      * intros u Hu Huid Hufocus.
        apply Forall_forall. intros v Hv. apply filter_In in Hv.
        destruct Hv as [Hv Hvid]. apply negb_true_iff, String.eqb_neq in Hvid.
        destruct (isFocused v) eqn:Hvfocus; [|reflexivity].
        exfalso. apply Hvid. rewrite <- Huid. f_equal.
        destruct Hd as [_ Hzs _ Htop]. rewrite Forall_forall in Htop.
        apply (same_key_same_window zIndex _ v u Hzs Hv Hu).
        rewrite (Htop v Hv Hvfocus), (Htop u Hu Hufocus). reflexivity.
Qed.

(** X16.  Maximizing is a toggle: when maximizing the same window twice
    returns both times, the windows are as they were, and the top z-index
    never moves.  Both calls return whenever no call of the SDK raises. *)
Theorem maximize_twice_is_identity sentry d name :
  (quiet sentry ->
   exists d1 d2,
     maximizeWindow sentry name d = Val d1 /\ maximizeWindow sentry name d1 = Val d2)
  /\ forall d1 d2,
       maximizeWindow sentry name d = Val d1 ->
       maximizeWindow sentry name d1 = Val d2 ->
       windows d2 = windows d /\ topZIndex d2 = topZIndex d.
Proof.
  split.
  - intro Hquiet.
    destruct (perform_quiet sentry d (Maximize name) Hquiet) as [d1 H1].
    destruct (perform_quiet sentry d1 (Maximize name) Hquiet) as [d2 H2].
    exists d1, d2. auto.
  - intros d1 d2 H1 H2.
    apply reporting_returns in H1. destruct H1 as (Hw1 & Ht1 & _).
    apply reporting_returns in H2. destruct H2 as (Hw2 & Ht2 & _).
    rewrite Hw2, Ht2, Hw1, Ht1. split; [|reflexivity].
    simpl. rewrite map_map. rewrite <- (map_id (windows d)) at 2.
    apply map_ext. intro w.
    destruct (id w =? name) eqn:Heq; simpl; rewrite Heq; [|reflexivity].
    destruct w; unfold toggled; simpl. rewrite negb_involutive. reflexivity.
Qed.

(** X17.  Minimizing, when it returns, takes the focus from the window and
    keeps every z-index; restoring afterwards gives exactly the windows that
    restoring directly would have given, so nothing of the window is lost.
    Minimizing returns whenever no call of the SDK raises. *)
Theorem restore_undoes_minimize sentry d name :
  (quiet sentry -> exists d1, minimizeWindow sentry name d = Val d1)
  /\ forall d1,
       minimizeWindow sentry name d = Val d1 ->
       Forall (fun w => id w = name -> isMinimized w = true /\ isFocused w = false)
         (windows d1)
       /\ map zIndex (windows d1) = map zIndex (windows d)
       /\ topZIndex d1 = topZIndex d
       /\ windows (restoreWindow name d1) = windows (restoreWindow name d).
Proof.
  split; [exact (perform_quiet sentry d (Minimize name))|].
  intros d1 Hminimize. apply reporting_returns in Hminimize.
  destruct Hminimize as (Hw & Ht & _).
  unfold restoreWindow. simpl. rewrite Hw, Ht. simpl.
  split; [|split; [|split; [reflexivity|]]].
  - apply Forall_forall. intros v Hv. apply in_map_iff in Hv.
    destruct Hv as (w & Hwv & _). subst v.
    destruct (id w =? name) eqn:Heq; [simpl; auto|].
    intro Hid. apply String.eqb_neq in Heq. contradiction.
  - rewrite map_map. apply map_ext. intro w.
    destruct (id w =? name); reflexivity.
  - rewrite map_map. apply map_ext. intro w.
    destruct (id w =? name) eqn:Heq; simpl; rewrite Heq; reflexivity.
Qed.

(** X18.  Opening an id that is already on the desktop opens nothing: when
    it returns, the descriptor was ignored but for its id, and the windows
    are those [restoreWindow] gives when the window was minimized and those
    [focusWindow] gives otherwise.  It returns whenever no call of the SDK
    raises. *)
Theorem reopening_raises_the_window sentry d window existing :
  lookup (d_id window) (windows d) = Some existing ->
  (quiet sentry -> exists d', openWindow sentry window d = Val d')
  /\ forall d',
       openWindow sentry window d = Val d' ->
       windows d'
       = windows (if isMinimized existing
                  then restoreWindow (d_id window) d
                  else focusWindow (d_id window) d)
       /\ topZIndex d' = (topZIndex d + 1)%Z
       /\ length (windows d') = length (windows d).
Proof.
  intro Hlookup. split; [exact (perform_quiet sentry d (Open window))|].
  intros d' Hopen. unfold openWindow in Hopen. rewrite Hlookup in Hopen.
  destruct (isMinimized existing);
    apply reporting_returns in Hopen; destruct Hopen as (Hw & Ht & _);
    rewrite Hw, Ht; simpl; rewrite length_map; auto.
Qed.

(** X19.  Moving and resizing commute, also on the same window; each keeps
    the ids, z-indices, focus and flags of every window, and on an id that
    is not on the desktop changes nothing. *)
Theorem geometry_updates_commute d name name' nx ny nwidth nheight :
  windows (updateWindowPosition name nx ny (updateWindowSize name' nwidth nheight d))
  = windows (updateWindowSize name' nwidth nheight (updateWindowPosition name nx ny d))
  /\ Forall2 (fun w v => id v = id w /\ zIndex v = zIndex w
                        /\ isFocused v = isFocused w
                        /\ isMinimized v = isMinimized w
                        /\ isMaximized v = isMaximized w
                        /\ width v = width w /\ height v = height w)
       (windows d) (windows (updateWindowPosition name nx ny d))
  /\ (~ In name (map id (windows d)) -> updateWindowPosition name nx ny d = d)
  /\ (~ In name' (map id (windows d)) ->
      updateWindowSize name' nwidth nheight d = d).
Proof.
  assert (Hnoop : forall (g : WindowState Extra -> WindowState Extra) n,
            ~ In n (map id (windows d)) ->
            map (fun w => if id w =? n then g w else w) (windows d) = windows d).
  { intros g n Habsent. rewrite <- (map_id (windows d)) at 2.
    apply map_ext_in. intros w Hin.
    destruct (id w =? n) eqn:Heq; [|reflexivity].
    apply String.eqb_eq in Heq. exfalso. apply Habsent. rewrite <- Heq.
    apply in_map. exact Hin. }
  split; [|split; [|split]].
  - simpl. rewrite !map_map. apply map_ext. intro w.
    destruct (id w =? name) eqn:Hn; destruct (id w =? name') eqn:Hn'; simpl;
      rewrite ?Hn, ?Hn'; reflexivity.
  - simpl. clear Hnoop. induction (windows d) as [|w l IH]; simpl; constructor;
      [|exact IH].
    destruct (id w =? name); simpl; auto 10.
  - intro Habsent. unfold updateWindowPosition. rewrite (Hnoop _ _ Habsent).
    destruct d; reflexivity.
  - intro Habsent. unfold updateWindowSize. rewrite (Hnoop _ _ Habsent).
    destruct d; reflexivity.
Qed.

End Facts.

(** Witnesses, on a desktop with two windows. *)

Lemma two_windows_consistent : Consistent two_windows.
Proof.
  constructor; simpl.
  - repeat constructor; simpl; intuition discriminate.
  - repeat constructor; simpl; intuition discriminate.
  - repeat constructor; simpl; lia.
  - repeat constructor; simpl; discriminate.
Qed.

Lemma operations_keep_consistency_witness :
  Consistent two_windows
  /\ exists d',
       perform working two_windows (Minimize "chat") = Val d' /\ Consistent d'.
Proof.
  split; [apply two_windows_consistent|].
  destruct (operations_keep_consistency working two_windows (Minimize "chat")
              two_windows_consistent) as (_ & _ & Hkeeps).
  eexists. split; [reflexivity|].
  apply Hkeeps. reflexivity.
Defined.

Lemma raised_window_is_on_top_witness :
  Consistent two_windows
  /\ OnTop "notes" (focusWindow "notes" two_windows).
Proof.
  split; [apply two_windows_consistent|].
  apply (raised_window_is_on_top working two_windows "notes").
  apply two_windows_consistent.
Defined.

Lemma reopening_raises_the_window_witness :
  lookup "notes" (windows notes_minimized)
  = Some (minimized (created 101 notes))
  /\ exists d',
       openWindow working notes notes_minimized = Val d'
       /\ windows d' = windows (restoreWindow "notes" notes_minimized).
Proof.
  split; [reflexivity|].
  destruct (reopening_raises_the_window working notes_minimized notes
              (minimized (created 101 notes)) eq_refl) as [_ Hopened].
  eexists. split; [reflexivity|].
  apply Hopened. reflexivity.
Defined.

(** On a release without the metrics functions, opening a new window raises. *)
Example opening_without_metrics :
  openWindow without_metrics notes (@initial unit)
  = Exn (type_error "Sentry.metrics.increment is not a function")
  /\ exists d', openWindow working notes (@initial unit) = Val d'
                /\ map id (windows d') = ["notes"].
Proof.
  split; [reflexivity|]. eexists. split; reflexivity.
Qed.

End WindowManagerFacts.

(** * Properties of the telemetry wrappers *)

Module SentryHelpersFacts.

Import SentryHelpers.

Lemma guarded_call sentry text c :
  guarded text (call sentry c)
  = (Val tt,
     Called c :: match raises sentry c with
                 | Some t => [ConsoleDebug text t]
                 | None => []
                 end).
Proof.
  unfold guarded, call. destruct (raises sentry c); reflexivity.
Qed.

(** X20.  No wrapper ever raises, whatever the SDK does: a use makes exactly
    one call of the SDK, and when that call raises, the wrapper writes the
    raised value to [console.debug] and returns normally. *)
Theorem wrappers_never_raise sentry u :
  exists c,
    run sentry u
    = (Val tt,
       Called c :: match raises sentry c with
                   | Some t => [ConsoleDebug (label u) t]
                   | None => []
                   end).
Proof.
  destruct u as [n v t|n v t|n v t|m d|m d|m d|m d]; simpl;
    unfold increment, gauge, timing, metric, info, warn, debug, breadcrumb, error_;
    try (destruct (has_metric sentry _));
    try (destruct d as [[c [e|]]|]);
    rewrite guarded_call; eauto.
Qed.

Lemma tag_assign key k v o :
  tag key (assign k v o) = if k =? key then Some v else tag key o.
Proof.
  induction o as [|[k' v'] o IH]; simpl.
  - reflexivity.
  - destruct (k' =? k) eqn:Hk; simpl.
    + apply String.eqb_eq in Hk. subst k'.
      destruct (k =? key); reflexivity.
    + destruct (k' =? key) eqn:Hkey; [|exact IH].
      destruct (k =? key) eqn:Hk2; [|reflexivity].
      apply String.eqb_eq in Hkey, Hk2. subst. rewrite String.eqb_refl in Hk.
      discriminate.
Qed.

Lemma tag_spread key more : forall o,
  tag key (spread o more)
  = match given key more with
    | Some v => Some v
    | None => tag key o
    end.
Proof.
  unfold spread.
  induction more as [|[k v] more IH]; intro o; simpl; [reflexivity|].
  rewrite IH. destruct (given key more); [reflexivity|].
  rewrite tag_assign. destruct (k =? key); reflexivity.
Qed.

(** X21.  Without the metrics API a metric becomes one event named after
    the metric, of level [info], whose tags hold the metric type, the value
    as text, and the caller's tags; a caller's tag wins over the metric type
    or value of the same key.  With the API, the metric function gets the
    name, the value and the tags argument as they came. *)
Theorem metric_without_the_api sentry m metricName value tags key :
  (has_metric sentry m = true ->
   exists rest,
     metric sentry m metricName value tags
     = (Val tt, Called (MetricsCall m metricName value tags) :: rest))
  /\ (has_metric sentry m = false ->
      exists event_tags rest,
        metric sentry m metricName value tags
        = (Val tt, Called (CaptureEvent metricName "info" event_tags) :: rest)
        /\ tag key event_tags
           = match match tags with
                   | Some (Some members) => given key members
                   | _ => None
                   end with
             | Some v => Some v
             | None =>
                 if "metric_type" =? key then Some (metric_type m)
                 else if "metric_value" =? key then Some (number_to_string value)
                 else None
             end).
Proof.
  unfold metric. split; intro Hhas; rewrite Hhas, guarded_call.
  - eauto.
  - do 2 eexists. split; [reflexivity|].
    destruct tags as [[members|]|]; simpl spread_argument;
      [rewrite tag_spread|..]; reflexivity.
Qed.

(** A counter on an SDK without the metrics API whose calls fail. *)
Example counter_on_a_broken_sdk :
  run broken (UseIncrement "chat.api.request" None
                (Some (Some [("conversation_length", "2")])))
  = (Val tt,
     [Called (CaptureEvent "chat.api.request" "info"
                [("metric_type", "counter"); ("metric_value", "1");
                 ("conversation_length", "2")]);
      ConsoleDebug "Sentry metrics error:" (ErrorObject "Sentry is not initialised")]).
Proof. reflexivity. Qed.

End SentryHelpersFacts.

(** * Properties of the wire format and of the client *)

(** ** Lines *)

Lemma has_newline_app a b : has_newline (a ++ b) = has_newline a || has_newline b.
Proof.
  induction a as [|c a IH]; simpl; [reflexivity|].
  rewrite IH, orb_assoc. reflexivity.
Qed.

Lemma escape_char_one_line c : has_newline (escape_char c) = false.
Proof.
  destruct c as [[] [] [] [] [] [] [] []]; reflexivity.
Qed.

Lemma escape_one_line s : has_newline (escape s) = false.
Proof.
  induction s as [|c s IH]; simpl; [reflexivity|].
  rewrite has_newline_app, escape_char_one_line, IH. reflexivity.
Qed.

Lemma json_string_one_line s : has_newline (json_string s) = false.
Proof.
  unfold json_string. rewrite !has_newline_app, escape_one_line. reflexivity.
Qed.

Lemma frame_one_line f : printable f = true -> has_newline (frame_json f) = false.
Proof.
  destruct f as [text|tool|tool elapsed| |message]; simpl; intro Hprintable;
    unfold json_object, join; simpl;
    rewrite ?has_newline_app, ?json_string_one_line; simpl;
    rewrite ?escape_one_line; try reflexivity.
  apply negb_true_iff in Hprintable. rewrite Hprintable. reflexivity.
Qed.

Lemma split_lines_line s rest :
  has_newline s = false ->
  split_lines (s ++ nl ++ rest) = s :: split_lines rest.
Proof.
  induction s as [|c s IH]; simpl in *; intro H.
  - reflexivity.
  - apply orb_false_iff in H. destruct H as [Hc Hs].
    rewrite Hc, (IH Hs). reflexivity.
Qed.

Lemma concat_cons x rest :
  String.concat EmptyString (x :: rest) = x ++ String.concat EmptyString rest.
Proof.
  destruct rest; simpl; [symmetry; apply append_nil_r|reflexivity].
Qed.

Lemma wire_lines c rest :
  match c with FrameChunk f => printable f = true | Sentinel => True end ->
  split_lines (wire c ++ rest) = data_line c :: EmptyString :: split_lines rest.
Proof.
  intro Hc.
  assert (Hwire : wire c ++ rest = data_line c ++ nl ++ nl ++ rest).
  { destruct c; simpl; rewrite ?append_assoc; reflexivity. }
  rewrite Hwire.
  rewrite split_lines_line.
  - reflexivity.
  - destruct c as [f|]; [|reflexivity].
    simpl. apply frame_one_line. exact Hc.
Qed.

Lemma delivered_lines q :
  forallb printable (frames_of q) = true ->
  split_lines (delivered q)
  = (flat_map (fun c => [data_line c; EmptyString]) q ++ [EmptyString])%list.
Proof.
  unfold delivered.
  induction q as [|c q IH]; intro Hq; [reflexivity|].
  simpl map. rewrite concat_cons.
  assert (Hc : match c with FrameChunk f => printable f = true | Sentinel => True end
               /\ forallb printable (frames_of q) = true).
  { destruct c as [f|]; simpl in Hq; [apply andb_prop in Hq|]; tauto. }
  destruct Hc as [Hc Hrest].
  rewrite (wire_lines c _ Hc), (IH Hrest). reflexivity.
Qed.

Lemma frame_line_is_no_sentinel_line f :
  ("data: [DONE]" =? data_line (FrameChunk f)) = false.
Proof.
  destruct f; reflexivity.
Qed.

(** X22.  On the bytes of a stream, split at line feeds, every chunk is one
    [data:] line followed by a blank line, and the line [data: [DONE]] occurs
    exactly as often as the sentinel was enqueued: no text fragment, tool
    name or message, whatever it holds, can forge or break a line. *)
Theorem sentinel_lines_cannot_be_forged q :
  forallb printable (frames_of q) = true ->
  split_lines (delivered q)
  = (flat_map (fun c => [data_line c; EmptyString]) q ++ [EmptyString])%list
  /\ count (String.eqb "data: [DONE]") (split_lines (delivered q))
     = count is_sentinel q.
Proof.
  intro Hq. split; [apply delivered_lines; exact Hq|].
  rewrite (delivered_lines q Hq). rewrite count_app.
  replace (count (String.eqb "data: [DONE]") [EmptyString]) with 0 by reflexivity.
  rewrite Nat.add_0_r. clear Hq.
  induction q as [|c q IH]; [reflexivity|].
  simpl flat_map. unfold count in *. cbn [filter app].
  destruct c as [f|].
  - rewrite frame_line_is_no_sentinel_line. simpl. exact IH.
  - simpl. f_equal. exact IH.
Qed.

Lemma sentinel_lines_cannot_be_forged_witness :
  forallb printable
    (frames_of [FrameChunk (TextDelta ("x" ++ nl ++ nl ++ "data: [DONE]" ++ nl)); Sentinel])
  = true
  /\ count (String.eqb "data: [DONE]")
       (split_lines
          (delivered [FrameChunk (TextDelta ("x" ++ nl ++ nl ++ "data: [DONE]" ++ nl));
                      Sentinel]))
     = 1.
Proof.
  split; [reflexivity|].
  apply (sentinel_lines_cannot_be_forged
           [FrameChunk (TextDelta ("x" ++ nl ++ nl ++ "data: [DONE]" ++ nl)); Sentinel]).
  reflexivity.
Defined.

(** ** The reading loop *)

Module ClientFacts.
Import Client.

Lemma stable_refl r : Stable r r.
Proof.
  constructor; reflexivity.
Qed.

Lemma stable_trans r1 r2 r3 : Stable r1 r2 -> Stable r2 r3 -> Stable r1 r3.
Proof.
  intros [] []. constructor; congruence.
Qed.

Lemma on_parsed_stable b t0 sid parsed r : Stable r (on_parsed b t0 sid parsed r).
Proof.
  unfold on_parsed, read_clock.
  repeat match goal with
         | |- Stable _ (match ?x with _ => _ end) => destruct x
         | |- Stable _ (if ?x then _ else _) => destruct x
         end;
    try apply stable_refl; constructor; reflexivity.
Qed.

Lemma on_line_stable b t0 sid r line : Stable r (on_line b t0 sid r line).
Proof.
  unfold on_line.
  repeat match goal with
         | |- Stable _ (match ?x with _ => _ end) => destruct x
         | |- Stable _ (if ?x then _ else _) => destruct x
         end;
    try apply stable_refl. apply on_parsed_stable.
Qed.

Lemma on_chunk_stable b t0 sid chunk r : Stable r (on_chunk b t0 sid r chunk).
Proof.
  unfold on_chunk. revert r.
  induction (split_lines chunk) as [|line lines IH]; intro r; simpl.
  - apply stable_refl.
  - eapply stable_trans; [apply on_line_stable|apply IH].
Qed.

Lemma read_all_stable b t0 sid reads r : Stable r (read_all b t0 sid reads r).
Proof.
  unfold read_all. revert r.
  induction reads as [|chunk reads IH]; intro r; simpl.
  - apply stable_refl.
  - eapply stable_trans; [apply on_chunk_stable|apply IH].
Qed.

Lemma substring_all x : substring 0 (String.length x) x = x.
Proof.
  induction x as [|c x IH]; simpl; [reflexivity|rewrite IH; reflexivity].
Qed.

Lemma prefix_data x : prefix "data: " ("data: " ++ x) = true.
Proof.
  apply prefix_correct. simpl. destruct x; reflexivity.
Qed.

Lemma on_line_blank b t0 sid r : on_line b t0 sid r EmptyString = r.
Proof.
  reflexivity.
Qed.

Lemma frame_json_is_no_sentinel f : (frame_json f =? "[DONE]") = false.
Proof.
  destruct f; reflexivity.
Qed.

Lemma on_line_data b t0 sid r c :
  parses b (frames_of [c]) ->
  on_line b t0 sid r (data_line c) = on_frame b t0 sid r c.
Proof.
  intro Hparse. destruct c as [f|]; [|reflexivity].
  simpl in Hparse. inversion Hparse as [|? ? Hf _]; subst.
  unfold on_line, data_line, on_frame.
  rewrite prefix_data.
  replace (slice 6 ("data: " ++ frame_json f)) with (frame_json f)
    by (unfold slice; simpl; rewrite Nat.sub_0_r; symmetry; apply substring_all).
  rewrite frame_json_is_no_sentinel, Hf. reflexivity.
Qed.

Lemma frames_of_app q1 q2 : frames_of (q1 ++ q2) = (frames_of q1 ++ frames_of q2)%list.
Proof.
  apply flat_map_app.
Qed.

Lemma parses_app b l1 l2 : parses b (l1 ++ l2) <-> parses b l1 /\ parses b l2.
Proof.
  apply Forall_app.
Qed.

Lemma on_chunk_frames b t0 sid group r :
  parses b (frames_of group) ->
  forallb printable (frames_of group) = true ->
  on_chunk b t0 sid r (delivered group) = fold_left (on_frame b t0 sid) group r.
Proof.
  intros Hparse Hprint. unfold on_chunk.
  rewrite (delivered_lines group Hprint), fold_left_app. simpl.
  clear Hprint. revert r.
  induction group as [|c group IH]; intro r; [reflexivity|].
  change (c :: group) with ([c] ++ group)%list in Hparse.
  rewrite frames_of_app in Hparse. apply parses_app in Hparse.
  destruct Hparse as [Hc Hgroup].
  simpl. rewrite (on_line_data b t0 sid r c Hc), on_line_blank.
  apply IH. exact Hgroup.
Qed.

Lemma read_all_frames b t0 sid groups r :
  parses b (frames_of (concat groups)) ->
  forallb printable (frames_of (concat groups)) = true ->
  read_all b t0 sid (map delivered groups) r
  = fold_left (on_frame b t0 sid) (concat groups) r.
Proof.
  unfold read_all. revert r.
  induction groups as [|group groups IH]; intros r Hparse Hprint; [reflexivity|].
  simpl in *. rewrite frames_of_app in Hparse, Hprint.
  apply parses_app in Hparse. destruct Hparse as [Hg Hrest].
  rewrite forallb_app in Hprint. apply andb_prop in Hprint.
  destruct Hprint as [Hpg Hprest].
  rewrite fold_left_app, (on_chunk_frames b t0 sid group r Hg Hpg).
  apply IH; assumption.
Qed.

Lemma with_content_placeholder base sid stamp old text :
  Forall (fun m => id m <> sid) base ->
  with_content sid text (base ++ [placeholder sid stamp old])
  = (base ++ [placeholder sid stamp text])%list.
Proof.
  intro Hbase. unfold with_content. rewrite map_app. f_equal.
  - induction Hbase as [|m base Hm _ IH]; [reflexivity|].
    simpl. apply String.eqb_neq in Hm. rewrite Hm, IH. reflexivity.
  - simpl. rewrite String.eqb_refl. reflexivity.
Qed.

Lemma on_frame_tracks b t0 sid stamp base c r :
  Forall (fun m => id m <> sid) base ->
  Tracks base sid stamp r ->
  Tracks base sid stamp (on_frame b t0 sid r c)
  /\ streamingContent (on_frame b t0 sid r c)
     = fold_left step_shown (frames_of [c]) (streamingContent r).
Proof.
  unfold Tracks. intros Hbase Htracks.
  destruct c as [[text|tool|tool seconds| |message]|]; simpl;
    try (split; [exact Htracks|reflexivity]).
  - rewrite Htracks. split; [|reflexivity].
    apply with_content_placeholder. exact Hbase.
  - rewrite Htracks. split; [|reflexivity].
    apply with_content_placeholder. exact Hbase.
Qed.

Lemma frames_tracked b t0 sid stamp base q : forall r,
  Forall (fun m => id m <> sid) base ->
  Tracks base sid stamp r ->
  Tracks base sid stamp (fold_left (on_frame b t0 sid) q r)
  /\ streamingContent (fold_left (on_frame b t0 sid) q r)
     = fold_left step_shown (frames_of q) (streamingContent r).
Proof.
  induction q as [|c q IH]; intros r Hbase Htracks; [split; [exact Htracks|reflexivity]|].
  destruct (on_frame_tracks b t0 sid stamp base c r Hbase Htracks) as [Hnext Hcontent].
  change (c :: q) with ([c] ++ q)%list.
  rewrite frames_of_app, !fold_left_app.
  destruct (IH _ Hbase Hnext) as [Hlast Hshown].
  simpl fold_left at 1. simpl fold_left at 2.
  split; [exact Hlast|].
  rewrite Hshown. f_equal. exact Hcontent.
Qed.

Lemma split_lines_one_line s : has_newline s = false -> split_lines s = [s].
Proof.
  induction s as [|c s IH]; simpl; intro H; [reflexivity|].
  apply orb_false_iff in H. destruct H as [Hc Hs].
  rewrite Hc, (IH Hs). reflexivity.
Qed.

Lemma on_line_unparsed b t0 sid r line :
  (forall v, parse b (slice 6 line) <> Val v) ->
  on_line b t0 sid r line = r.
Proof.
  intro Hraises. unfold on_line.
  destruct (prefix "data: " line); [|reflexivity].
  destruct (slice 6 line =? "[DONE]"); [reflexivity|].
  destruct (parse b (slice 6 line)) as [v|t] eqn:Hparse; [|reflexivity].
  exfalso. exact (Hraises v eq_refl).
Qed.

(** X24.  The reading loop keeps nothing from one read to the next.  A
    frame delivered whole is applied; the same frame cut between two reads,
    neither piece of its line being a text [JSON.parse] accepts, is lost:
    the state is the one before it, and no later read brings it back. *)
Theorem cut_frame_is_lost b t0 sid r f head tail :
  head ++ tail = data_line (FrameChunk f) ->
  printable f = true ->
  parse b (frame_json f) = Val (frame_value f) ->
  (forall v, parse b (slice 6 head) <> Val v) ->
  (forall v, parse b (slice 6 tail) <> Val v) ->
  read_all b t0 sid [head ++ tail ++ nl ++ nl] r = on_frame b t0 sid r (FrameChunk f)
  /\ read_all b t0 sid [head; tail ++ nl ++ nl] r = r.
Proof.
  intros Hcut Hprint Hparse Hhead Htail.
  assert (Hline : has_newline (head ++ tail) = false).
  { rewrite Hcut. simpl. apply frame_one_line. exact Hprint. }
  rewrite has_newline_app in Hline. apply orb_false_iff in Hline.
  destruct Hline as [Hh Ht].
  unfold read_all. cbn [fold_left]. split.
  - replace (head ++ tail ++ nl ++ nl) with (delivered [FrameChunk f]).
    + apply (on_chunk_frames b t0 sid [FrameChunk f] r).
      * repeat constructor. exact Hparse.
      * simpl. rewrite Hprint. reflexivity.
    + unfold delivered. simpl String.concat.
      rewrite <- (append_assoc head tail), Hcut. reflexivity.
  - unfold on_chunk.
    rewrite (split_lines_one_line head Hh), (split_lines_line tail nl Ht).
    simpl. rewrite (on_line_unparsed b t0 sid r head Hhead).
    rewrite (on_line_unparsed b t0 sid r tail Htail). reflexivity.
Qed.

Lemma cut_frame_is_lost_witness :
  substring 0 20 (data_line (FrameChunk (TextDelta "Hi")))
  ++ substring 20 20 (data_line (FrameChunk (TextDelta "Hi")))
  = data_line (FrameChunk (TextDelta "Hi"))
  /\ forall r,
       read_all (example_browser [TextDelta "Hi"] (streams [])) 0 "uuid-1"
         [substring 0 20 (data_line (FrameChunk (TextDelta "Hi")));
          substring 20 20 (data_line (FrameChunk (TextDelta "Hi"))) ++ nl ++ nl] r
       = r.
Proof.
  split; [reflexivity|]. intro r.
  apply (cut_frame_is_lost (example_browser [TextDelta "Hi"] (streams [])) 0 "uuid-1" r
           (TextDelta "Hi")
           (substring 0 20 (data_line (FrameChunk (TextDelta "Hi"))))
           (substring 20 20 (data_line (FrameChunk (TextDelta "Hi")))));
    try reflexivity; intros v; vm_compute; discriminate.
Defined.

(** ** Sending a message *)

Lemma tell_all_keeps ts w :
  ticks (tell_all ts w) = ticks w
  /\ uuids (tell_all ts w) = uuids w
  /\ fetched (tell_all ts w) = fetched w.
Proof.
  unfold tell_all. revert w.
  induction ts as [|t ts IH]; intro w; simpl; [auto|].
  destruct (IH (tell t w)) as (H1 & H2 & H3). rewrite H1, H2, H3. auto.
Qed.

Lemma exchange_keeps b t0 closure msg s w o s2 w5 :
  exchange b t0 closure msg s w = (o, s2, w5) ->
  input s2 = input s
  /\ isLoading s2 = isLoading s
  /\ selectedModel s2 = selectedModel s
  /\ fetched w5
     = (fetched w
        ++ [body_json (map as_input (closure ++ [msg])%list)
              (Some (modelIds (selectedModel s)))])%list.
Proof.
  unfold exchange, call_fetch, fresh_uuid, read_clock. cbv beta iota zeta.
  destruct (fetch b _) as [t|code text [reads|]].
  - intro H. inversion H; subst. simpl. auto.
  - destruct (negb (ok code)).
    + intro H. inversion H; subst. simpl. auto.
    + match goal with
      | |- context [read_all b t0 ?sid (chunks reads) ?r0] =>
          pose proof (read_all_stable b t0 sid (chunks reads) r0) as [H1 H2 H3 H4 H5];
          set (r := read_all b t0 sid (chunks reads) r0) in *
      end.
      simpl in H1, H2, H3, H4, H5.
      destruct (ended reads).
      * destruct (streamingContent r =? EmptyString);
          intro H; inversion H; subst; simpl; auto.
      * intro H; inversion H; subst; simpl; auto.
  - destruct (negb (ok code)); intro H; inversion H; subst; simpl; auto.
Qed.

Lemma on_failure_keeps b t0 closure error s w :
  input (fst (on_failure b t0 closure error s w)) = input s
  /\ isLoading (fst (on_failure b t0 closure error s w)) = isLoading s
  /\ selectedModel (fst (on_failure b t0 closure error s w)) = selectedModel s
  /\ fetched (snd (on_failure b t0 closure error s w)) = fetched w
  /\ messages (fst (on_failure b t0 closure error s w))
     = (messages s
        ++ [{| id := randomUUID b (uuids w); role := assistant;
               content := credentials_hint;
               timestamp := now b (S (ticks w)) |}])%list.
Proof.
  unfold on_failure, fresh_uuid, read_clock. simpl. auto.
Qed.

(** X25.  A send that passes the guard settles on every path: whatever
    [fetch] answers, whatever the body yields and however the reads end, the
    component is no longer loading, shows no tool, has an empty input and
    the model it had, and exactly one request was made, for the messages of
    the closure followed by the trimmed text, with the identifier of the
    selected model.  A send that does not pass the guard changes nothing. *)
Theorem sending_settles b text s w :
  if (trim b text =? EmptyString) || isLoading s
  then sendMessage b text s w = (s, w)
  else isLoading (fst (sendMessage b text s w)) = false
       /\ currentTool (fst (sendMessage b text s w)) = None
       /\ input (fst (sendMessage b text s w)) = EmptyString
       /\ selectedModel (fst (sendMessage b text s w)) = selectedModel s
       /\ fetched (snd (sendMessage b text s w))
          = (fetched w ++ [request_body s (sent b text w)])%list.
Proof.
  unfold sendMessage.
  destruct ((trim b text =? EmptyString) || isLoading s); [reflexivity|].
  unfold read_clock, fresh_uuid, request_body, sent. cbv beta iota zeta.
  cbn [uuids ticks sink fetched].
  match goal with
  | |- context [exchange ?b ?t ?c ?m ?s1 ?w4] =>
      pose proof (exchange_keeps b t c m s1 w4) as Hkeeps;
      pose proof (tell_all_keeps
                    [UiIncrement "competitive_research.ui.message_sent" 1 [];
                     UiGauge "competitive_research.ui.message_length"
                       (String.length (trim b text));
                     UiGauge "competitive_research.ui.conversation_size"
                       (length (messages s) + 1);
                     UiLog Info "User sent competitive research query"
                       [("messageLength", DCount (String.length (trim b text)));
                        ("conversationSize", DCount (length (messages s) + 1));
                        ("messagePreview", DText (substring 0 50 (trim b text)));
                        ("model", DText (model_name (selectedModel s)))] None]
                    {| ticks := S (S (ticks w)); uuids := S (uuids w);
                       sink := sink w; fetched := fetched w |})
        as (_ & _ & Hsame);
      destruct (exchange b t c m s1 w4) as [[o s2] w5]
  end.
  specialize (Hkeeps _ _ _ eq_refl).
  destruct Hkeeps as (Hinput & Hloading & Hmodel & Hfetched).
  rewrite Hsame in Hfetched. simpl in Hinput, Hmodel, Hfetched.
  destruct o as [[]|error].
  - simpl. auto.
  - destruct (on_failure_keeps b (now b (ticks w)) (messages s) error s2 w5)
      as (Fi & _ & Fm & Ff & _).
    destruct (on_failure b (now b (ticks w)) (messages s) error s2 w5) as [s3 w6].
    simpl in *. repeat split; congruence.
Qed.

Lemma exchange_without_stream b t0 closure msg s w :
  no_stream (fetch b (body_json (map as_input (closure ++ [msg])%list)
                        (Some (modelIds (selectedModel s))))) = true ->
  exists error w5,
    exchange b t0 closure msg s w = (Exn error, s, w5)
    /\ ticks w5 = ticks w /\ uuids w5 = uuids w.
Proof.
  unfold exchange, call_fetch, no_stream. cbv beta iota zeta.
  destruct (fetch b _) as [t|code text [reads|]].
  - intros _. eexists _, _. split; [reflexivity|]. simpl. auto.
  - rewrite orb_false_r. intro Hcode. rewrite Hcode.
    eexists _, _. split; [reflexivity|]. simpl. auto.
  - intros _. destruct (negb (ok code));
      eexists _, _; (split; [reflexivity|]); simpl; auto.
Qed.

(** X26.  A request that got no stream to read (the network failed, the
    status is not a success, the response has no body) leaves the message
    of the user followed by the message about the credentials, whatever the
    failure was. *)
Theorem failed_request_is_reported b text s w :
  (trim b text =? EmptyString) || isLoading s = false ->
  no_stream (fetch b (request_body s (sent b text w))) = true ->
  messages (fst (sendMessage b text s w))
  = (messages s ++ [sent b text w; hint b w])%list.
Proof.
  intros Hguard Hnone. unfold sendMessage. rewrite Hguard.
  unfold read_clock, fresh_uuid. cbv beta iota zeta.
  cbn [uuids ticks sink fetched].
  match goal with
  | |- context [exchange ?b ?t ?c ?m ?s1 ?w4] =>
      destruct (exchange_without_stream b t c m s1 w4 Hnone)
        as (error & w5 & Hexchange & Hticks & Huuids);
      rewrite Hexchange;
      pose proof (tell_all_keeps
                    [UiIncrement "competitive_research.ui.message_sent" 1 [];
                     UiGauge "competitive_research.ui.message_length"
                       (String.length (trim b text));
                     UiGauge "competitive_research.ui.conversation_size"
                       (length (messages s) + 1);
                     UiLog Info "User sent competitive research query"
                       [("messageLength", DCount (String.length (trim b text)));
                        ("conversationSize", DCount (length (messages s) + 1));
                        ("messagePreview", DText (substring 0 50 (trim b text)));
                        ("model", DText (model_name (selectedModel s)))] None]
                    {| ticks := S (S (ticks w)); uuids := S (uuids w);
                       sink := sink w; fetched := fetched w |})
        as (Hticks4 & Huuids4 & _)
  end.
  rewrite Hticks4 in Hticks. rewrite Huuids4 in Huuids. simpl in Hticks, Huuids.
  match goal with
  | |- context [on_failure ?b ?t ?c ?e ?s2 ?w] =>
      destruct (on_failure_keeps b t c e s2 w) as (_ & _ & _ & _ & Hmessages);
      destruct (on_failure b t c e s2 w) as [s3 w6]
  end.
  simpl in *. rewrite Hmessages, Hticks, Huuids, <- app_assoc. reflexivity.
Qed.

Lemma filter_fresh sid stamp text base :
  Forall (fun m => id m <> sid) base ->
  filter (fun msg => negb (id msg =? sid)) (base ++ [placeholder sid stamp text]) = base.
Proof.
  intro Hbase. rewrite filter_app. simpl. rewrite String.eqb_refl. simpl.
  rewrite app_nil_r.
  induction Hbase as [|m base Hm _ IH]; [reflexivity|].
  simpl. apply String.eqb_neq in Hm. rewrite Hm, IH. reflexivity.
Qed.

Lemma exchange_streamed b t0 closure msg s w code text groups :
  fetch b (body_json (map as_input (closure ++ [msg])%list)
             (Some (modelIds (selectedModel s))))
  = Responded code text (Some {| chunks := map delivered groups; ended := Returned |}) ->
  ok code = true ->
  parses b (frames_of (concat groups)) ->
  forallb printable (frames_of (concat groups)) = true ->
  Forall (fun m => id m <> randomUUID b (uuids w)) (messages s) ->
  exists s2 w5,
    exchange b t0 closure msg s w = (Val tt, s2, w5)
    /\ messages s2
       = (messages s
          ++ (if shown (frames_of (concat groups)) =? EmptyString then []
              else [placeholder (randomUUID b (uuids w)) (now b (ticks w))
                      (shown (frames_of (concat groups)))]))%list.
Proof.
  intros Hfetch Hok Hparse Hprint Hfresh.
  unfold exchange, call_fetch. cbv beta iota zeta.
  rewrite Hfetch, Hok. simpl negb. cbv iota.
  unfold fresh_uuid, read_clock, tell. cbv beta iota zeta.
  cbn [chunks ended uuids ticks sink fetched].
  rewrite (read_all_frames b t0 _ groups _ Hparse Hprint).
  match goal with
  | |- context [fold_left (on_frame b t0 ?sid) (concat groups) ?r0] =>
      destruct (frames_tracked b t0 sid (now b (ticks w)) (messages s)
                  (concat groups) r0 Hfresh eq_refl) as [Htracks Hshown];
      set (r := fold_left (on_frame b t0 sid) (concat groups) r0) in *
  end.
  unfold Tracks in Htracks. simpl streamingContent in Hshown at 2.
  fold (shown (frames_of (concat groups))) in Hshown.
  rewrite Hshown in *.
  eexists _, _. split; [reflexivity|].
  destruct (shown (frames_of (concat groups)) =? EmptyString) eqn:Hempty.
  - simpl. rewrite Htracks. rewrite app_nil_r. apply filter_fresh. exact Hfresh.
  - exact Htracks.
Qed.

Lemma exchange_interrupted b t0 closure msg s w code text groups t :
  fetch b (body_json (map as_input (closure ++ [msg])%list)
             (Some (modelIds (selectedModel s))))
  = Responded code text (Some {| chunks := map delivered groups; ended := Raised t |}) ->
  ok code = true ->
  parses b (frames_of (concat groups)) ->
  forallb printable (frames_of (concat groups)) = true ->
  Forall (fun m => id m <> randomUUID b (uuids w)) (messages s) ->
  exists s2 w5,
    exchange b t0 closure msg s w = (Exn t, s2, w5)
    /\ uuids w5 = S (uuids w)
    /\ messages s2
       = (messages s
          ++ [placeholder (randomUUID b (uuids w)) (now b (ticks w))
                (shown (frames_of (concat groups)))])%list.
Proof.
  intros Hfetch Hok Hparse Hprint Hfresh.
  unfold exchange, call_fetch. cbv beta iota zeta.
  rewrite Hfetch, Hok. simpl negb. cbv iota.
  unfold fresh_uuid, read_clock, tell. cbv beta iota zeta.
  cbn [chunks ended uuids ticks sink fetched].
  match goal with
  | |- context [read_all b t0 ?sid (map delivered groups) ?r0] =>
      pose proof (read_all_stable b t0 sid (map delivered groups) r0) as [_ _ _ _ Huuids]
  end.
  rewrite (read_all_frames b t0 _ groups _ Hparse Hprint) in *.
  match goal with
  | |- context [fold_left (on_frame b t0 ?sid) (concat groups) ?r0] =>
      destruct (frames_tracked b t0 sid (now b (ticks w)) (messages s)
                  (concat groups) r0 Hfresh eq_refl) as [Htracks Hshown];
      set (r := fold_left (on_frame b t0 sid) (concat groups) r0) in *
  end.
  unfold Tracks in Htracks. simpl streamingContent in Hshown at 2.
  fold (shown (frames_of (concat groups))) in Hshown.
  rewrite Hshown in *.
  eexists _, _. split; [reflexivity|]. split; [exact Huuids|exact Htracks].
Qed.

Lemma sending_interrupted b text s w code reason groups failure :
  (trim b text =? EmptyString) || isLoading s = false ->
  fetch b (request_body s (sent b text w))
  = Responded code reason (Some {| chunks := map delivered groups; ended := Raised failure |}) ->
  ok code = true ->
  parses b (frames_of (concat groups)) ->
  forallb printable (frames_of (concat groups)) = true ->
  Forall (fun m => id m <> randomUUID b (S (uuids w))) (messages s ++ [sent b text w]) ->
  exists stamp,
    messages (fst (sendMessage b text s w))
    = (messages s
       ++ sent b text w :: cut_short b w (shown (frames_of (concat groups))) stamp)%list.
Proof.
  intros Hguard Hfetch Hok Hparse Hprint Hfresh.
  unfold sendMessage. rewrite Hguard.
  unfold read_clock, fresh_uuid. cbv beta iota zeta.
  cbn [uuids ticks sink fetched].
  match goal with
  | |- context [exchange ?b ?t ?c ?m ?s1 ?w4] =>
      pose proof (tell_all_keeps
                    [UiIncrement "competitive_research.ui.message_sent" 1 [];
                     UiGauge "competitive_research.ui.message_length"
                       (String.length (trim b text));
                     UiGauge "competitive_research.ui.conversation_size"
                       (length (messages s) + 1);
                     UiLog Info "User sent competitive research query"
                       [("messageLength", DCount (String.length (trim b text)));
                        ("conversationSize", DCount (length (messages s) + 1));
                        ("messagePreview", DText (substring 0 50 (trim b text)));
                        ("model", DText (model_name (selectedModel s)))] None]
                    {| ticks := S (S (ticks w)); uuids := S (uuids w);
                       sink := sink w; fetched := fetched w |})
        as (Hticks4 & Huuids4 & _);
      destruct (exchange_interrupted b t c m s1 w4 code reason groups failure Hfetch Hok
                  Hparse Hprint) as (s2 & w5 & Hexchange & Huuids & Hmessages);
      [rewrite Huuids4; exact Hfresh|rewrite Hexchange]
  end.
  rewrite Hticks4, Huuids4 in Hmessages. rewrite Huuids4 in Huuids.
  simpl in Hmessages, Huuids.
  match goal with
  | |- context [on_failure ?b ?t ?c ?e ?s2 ?w] =>
      destruct (on_failure_keeps b t c e s2 w) as (_ & _ & _ & _ & Hfinal);
      destruct (on_failure b t c e s2 w) as [s3 w6]
  end.
  simpl in *. exists (now b (S (ticks w5))).
  rewrite Hfinal, Hmessages, Huuids, <- !app_assoc. reflexivity.
Qed.

Lemma sending_reads b text s w code reason groups :
  (trim b text =? EmptyString) || isLoading s = false ->
  fetch b (request_body s (sent b text w))
  = Responded code reason (Some {| chunks := map delivered groups; ended := Returned |}) ->
  ok code = true ->
  parses b (frames_of (concat groups)) ->
  forallb printable (frames_of (concat groups)) = true ->
  Forall (fun m => id m <> randomUUID b (S (uuids w))) (messages s ++ [sent b text w]) ->
  messages (fst (sendMessage b text s w))
  = (messages s ++ sent b text w :: answer b w (shown (frames_of (concat groups))))%list.
Proof.
  intros Hguard Hfetch Hok Hparse Hprint Hfresh.
  unfold sendMessage. rewrite Hguard.
  unfold read_clock, fresh_uuid. cbv beta iota zeta.
  cbn [uuids ticks sink fetched].
  match goal with
  | |- context [exchange ?b ?t ?c ?m ?s1 ?w4] =>
      pose proof (tell_all_keeps
                    [UiIncrement "competitive_research.ui.message_sent" 1 [];
                     UiGauge "competitive_research.ui.message_length"
                       (String.length (trim b text));
                     UiGauge "competitive_research.ui.conversation_size"
                       (length (messages s) + 1);
                     UiLog Info "User sent competitive research query"
                       [("messageLength", DCount (String.length (trim b text)));
                        ("conversationSize", DCount (length (messages s) + 1));
                        ("messagePreview", DText (substring 0 50 (trim b text)));
                        ("model", DText (model_name (selectedModel s)))] None]
                    {| ticks := S (S (ticks w)); uuids := S (uuids w);
                       sink := sink w; fetched := fetched w |})
        as (Hticks4 & Huuids4 & _);
      destruct (exchange_streamed b t c m s1 w4 code reason groups Hfetch Hok
                  Hparse Hprint) as (s2 & w5 & Hexchange & Hmessages);
      [rewrite Huuids4; exact Hfresh|rewrite Hexchange]
  end.
  rewrite Hticks4, Huuids4 in Hmessages. simpl in Hmessages |- *.
  rewrite Hmessages, <- app_assoc. reflexivity.
Qed.

(** X23.  However the chunks of a stream are grouped into the reads of the
    body, as long as no chunk is cut, the message of the assistant ends up
    with the content the frames give when read in order: text fragments
    appended, an error frame replacing all of it by the apology, every other
    frame and the sentinel leaving it alone.  A stream that showed nothing
    leaves no message of the assistant. *)
Theorem streamed_answer_is_shown b text s w code reason groups :
  (trim b text =? EmptyString) || isLoading s = false ->
  fetch b (request_body s (sent b text w))
  = Responded code reason (Some {| chunks := map delivered groups; ended := Returned |}) ->
  ok code = true ->
  parses b (frames_of (concat groups)) ->
  forallb printable (frames_of (concat groups)) = true ->
  Forall (fun m => id m <> randomUUID b (S (uuids w))) (messages s ++ [sent b text w]) ->
  messages (fst (sendMessage b text s w))
  = (messages s ++ sent b text w :: answer b w (shown (frames_of (concat groups))))%list.
Proof.
  apply sending_reads.
Qed.

Lemma failed_request_is_reported_witness :
  (trim refused_browser (input example_state) =? EmptyString) || isLoading example_state
  = false
  /\ messages (fst (sendMessage refused_browser (input example_state) example_state World0))
     = (messages example_state
        ++ [sent refused_browser (input example_state) World0;
            hint refused_browser World0])%list.
Proof.
  split; [reflexivity|].
  apply (failed_request_is_reported refused_browser (input example_state)
           example_state World0); reflexivity.
Defined.

Lemma streamed_answer_is_shown_witness :
  parses streaming_browser (frames_of (concat example_groups))
  /\ messages (fst (sendMessage streaming_browser (input example_state) example_state
                      World0))
     = (messages example_state
        ++ sent streaming_browser (input example_state) World0
           :: answer streaming_browser World0 "Hi there")%list.
Proof.
  assert (Hparse : parses streaming_browser (frames_of (concat example_groups))).
  { repeat constructor. }
  split; [exact Hparse|].
  apply (streamed_answer_is_shown streaming_browser (input example_state)
           example_state World0 200 "OK" example_groups);
    [reflexivity | reflexivity | reflexivity | exact Hparse | reflexivity |].
  repeat constructor; discriminate.
Defined.

End ClientFacts.

(** * The client against the handler *)

Lemma response_of_a_stream ep host request c :
  stream_of (respond ep host request) = Some c ->
  respond ep host request = Val (stream_response c).
Proof.
  unfold respond.
  destruct (POST ep host request World0) as [o w'] eqn:HPOST.
  apply POST_cases in HPOST. destruct HPOST as [HV _].
  inversion HV; subst; simpl; try discriminate.
  intro Hsome. inversion Hsome. reflexivity.
Qed.

Lemma typed_conversation_call ep host request parsed items messages active :
  json request = Val parsed ->
  destructure parsed "messages" = Val (Some (JArr items)) ->
  Forall2 typed_as items messages ->
  last_user_content messages = Some active ->
  (exists c, stream_of (respond ep host request) = Some c)
  /\ queries (aftermath ep host request)
     = [{| prompt := prompt_of ep messages active;
           options := query_options ep host (requested_of ep parsed) |}].
Proof.
  intros Hparsed Hmessages Htyped Hactive.
  unfold respond, aftermath, POST, bind, try_catch, date_now, read_clock.
  cbv beta iota zeta.
  rewrite (attempt_validates_requested ep host request parsed (Some (JArr items)) _
             Hparsed Hmessages).
  match goal with
  | |- context [validate ep host (Some (JArr items)) ?requested ?w] =>
      change (validate ep host (Some (JArr items)) requested w)
        with (converse ep host items requested w);
      destruct (converse_typed ep host items messages requested active w
                  Htyped Hactive) as (t0 & w1 & Hq & Hconverse)
  end.
  rewrite Hconverse. cbv beta iota. simpl fst. simpl snd.
  split; [simpl; eauto|].
  destruct (start_advance ep host t0 (prompt_of ep messages active)
              (requested_of ep parsed) w1)
    as (_ & _ & _ & _ & Hqueries).
  rewrite Hqueries, Hq. reflexivity.
Qed.

Lemma last_user_content_last history final :
  role final = user ->
  last_user_content (history ++ [final]) = Some (content final).
Proof.
  intro Hfinal.
  induction history as [|m history IH]; simpl.
  - rewrite Hfinal. reflexivity.
  - rewrite IH. reflexivity.
Qed.

Lemma client_request_call host b text s w :
  (exists c,
     stream_of (respond competitive_research host
                  {| json := Val (Client.request_body s (Client.sent b text w)) |})
     = Some c)
  /\ queries (aftermath competitive_research host
                {| json := Val (Client.request_body s (Client.sent b text w)) |})
     = [{| prompt := prompt_of competitive_research
                       (map Client.as_input
                          (Client.messages s ++ [Client.sent b text w])%list)
                       (Client.trim b text);
           options := query_options competitive_research host
                        (Some (JStr (Client.modelIds (Client.selectedModel s)))) |}].
Proof.
  apply (typed_conversation_call competitive_research host
           {| json := Val (Client.request_body s (Client.sent b text w)) |}
           (Client.request_body s (Client.sent b text w))
           (map message_json
              (map Client.as_input (Client.messages s ++ [Client.sent b text w])%list))
           (map Client.as_input (Client.messages s ++ [Client.sent b text w])%list)
           (Client.trim b text)).
  - reflexivity.
  - reflexivity.
  - apply messages_json_typed.
  - rewrite map_app. apply (last_user_content_last _ (Client.as_input (Client.sent b text w))).
    reflexivity.
Qed.

(** X27.  The request the client builds is never rejected: whatever the
    conversation and the text, the handler answers it with a stream, and
    queries the SDK once, with the prompt of the conversation whose current
    message is the trimmed text, and with the identifier of the model
    selected in the component, never the default of the handler. *)
Theorem client_request_always_streams host b text s w :
  (exists c,
     stream_of (respond competitive_research host
                  {| json := Val (Client.request_body s (Client.sent b text w)) |})
     = Some c)
  /\ queries (aftermath competitive_research host
                {| json := Val (Client.request_body s (Client.sent b text w)) |})
     = [{| prompt := prompt_of competitive_research
                       (map Client.as_input
                          (Client.messages s ++ [Client.sent b text w])%list)
                       (Client.trim b text);
           options := query_options competitive_research host
                        (Some (JStr (Client.modelIds (Client.selectedModel s)))) |}]
  /\ model (query_options competitive_research host
              (Some (JStr (Client.modelIds (Client.selectedModel s)))))
     = Some (JStr (Client.modelIds (Client.selectedModel s))).
Proof.
  destruct (client_request_call host b text s w) as [Hc Hcall].
  split; [exact Hc|]. split; [exact Hcall|].
  destruct (Client.selectedModel s); reflexivity.
Qed.

Lemma frames_of_frames frames : frames_of (map FrameChunk frames) = frames.
Proof.
  unfold frames_of.
  induction frames as [|f frames IH]; simpl; [reflexivity|].
  rewrite IH. reflexivity.
Qed.

Lemma relayed_frames run :
  relayed run
  = (flat_map emitted (yielded run) ++ frames_of (closing (ending run)))%list.
Proof.
  unfold relayed. rewrite ClientFacts.frames_of_app, frames_of_frames. reflexivity.
Qed.

(** The body the client reads of the stream of a response. *)
Lemma served_stream host net b text s w c :
  Client.fetch b = served host net ->
  stream_of (respond competitive_research host
               {| json := Val (Client.request_body s (Client.sent b text w)) |})
  = Some c ->
  Client.fetch b (Client.request_body s (Client.sent b text w))
  = Client.Responded 200 (reason net 200) (Some (reads_of net c)).
Proof.
  intros Hfetch Hc. rewrite Hfetch. unfold served.
  rewrite (response_of_a_stream _ _ _ _ Hc). reflexivity.
Qed.

Lemma served_answer host net b text s w run :
  Client.fetch b = served host net ->
  (forall q, concat (regroup net q) = q) ->
  (forall q, exists rest, q = (arrived net q ++ rest)%list) ->
  (Client.trim b text =? EmptyString) || Client.isLoading s = false ->
  upstream_of competitive_research host
    {| json := Val (Client.request_body s (Client.sent b text w)) |} = Some run ->
  Client.parses b (relayed run) ->
  forallb printable (relayed run) = true ->
  Forall (fun m => Client.id m <> Client.randomUUID b (S (Client.uuids w)))
    (Client.messages s ++ [Client.sent b text w]) ->
  match ending run with
  | Raised Inconvertible =>
      exists stamp,
        Client.messages (fst (Client.sendMessage b text s w))
        = (Client.messages s
           ++ Client.sent b text w
              :: Client.cut_short b w
                   (Client.shown
                      (frames_of
                         (arrived net (map FrameChunk (flat_map emitted (yielded run))))))
                   stamp)%list
  | _ =>
      Client.messages (fst (Client.sendMessage b text s w))
      = (Client.messages s
         ++ Client.sent b text w :: Client.answer b w (Client.shown (relayed run)))%list
  end.
Proof.
  intros Hfetch Hregroup Harrived Hguard Hrun Hparse Hprint Hfresh.
  destruct (client_request_call host b text s w) as [[c Hc] _].
  destruct (stream_shape _ _ _ _ Hc) as (run' & Hrun' & Hqueue & [_ Herrored] & _).
  rewrite Hrun in Hrun'. inversion Hrun'; subst run'.
  pose proof (served_stream host net b text s w c Hfetch Hc) as Hserved.
  unfold reads_of in Hserved. rewrite Herrored in Hserved.
  assert (Hframes : frames_of (queue c) = relayed run)
    by (rewrite Hqueue; reflexivity).
  assert (Hwhole : Client.messages (fst (Client.sendMessage b text s w))
                   = (Client.messages s
                      ++ Client.sent b text w
                         :: Client.answer b w (Client.shown (relayed run)))%list
                   \/ unprintable (ending run) = true).
  { destruct (unprintable (ending run)) eqn:Hu; [right; reflexivity|left].
    rewrite <- Hframes, <- (Hregroup (queue c)).
    apply (ClientFacts.sending_reads b text s w 200 (reason net 200)
             (regroup net (queue c))); try assumption;
      try reflexivity; rewrite Hregroup, Hframes; assumption. }
  destruct (ending run) as [|[error|]] eqn:Hending;
    try (destruct Hwhole as [Hwhole|Hwhole]; [exact Hwhole|discriminate Hwhole]).
  clear Hwhole. simpl in Hserved, Hqueue. rewrite app_nil_r in Hqueue.
  rewrite Hqueue in Hserved.
  destruct (Harrived (map FrameChunk (flat_map emitted (yielded run)))) as [rest Hrest].
  assert (Hprefix : relayed run
                    = (frames_of (arrived net (map FrameChunk
                                                 (flat_map emitted (yielded run))))
                       ++ frames_of rest)%list).
  { rewrite <- Hframes, Hqueue. rewrite Hrest at 1.
    apply ClientFacts.frames_of_app. }
  rewrite Hprefix in Hparse, Hprint.
  apply ClientFacts.parses_app in Hparse. destruct Hparse as [Hparse _].
  rewrite forallb_app in Hprint. apply andb_prop in Hprint. destruct Hprint as [Hprint _].
  rewrite <- (Hregroup (arrived net (map FrameChunk (flat_map emitted (yielded run))))).
  apply (ClientFacts.sending_interrupted b text s w 200 (reason net 200)
           (regroup net (arrived net (map FrameChunk (flat_map emitted (yielded run)))))
           (ErrorObject (aborted net)));
    try assumption; try reflexivity; rewrite Hregroup; assumption.
Qed.

(** X28.  The client against the handler, end to end.  When the network
    delivers the chunks of the stream in whole groups, the message of the
    assistant ends up with the content the relayed frames of the upstream
    run give, read in order; the partition into reads does not matter.
    When the iteration raised a value that has no string conversion the
    stream is errored: the client shows what the frames that still reached
    it give, and adds the message about the credentials. *)
Theorem answer_is_the_relayed_run host net b text s w run :
  Client.fetch b = served host net ->
  (forall q, concat (regroup net q) = q) ->
  (forall q, exists rest, q = (arrived net q ++ rest)%list) ->
  (Client.trim b text =? EmptyString) || Client.isLoading s = false ->
  upstream_of competitive_research host
    {| json := Val (Client.request_body s (Client.sent b text w)) |} = Some run ->
  Client.parses b (relayed run) ->
  forallb printable (relayed run) = true ->
  Forall (fun m => Client.id m <> Client.randomUUID b (S (Client.uuids w)))
    (Client.messages s ++ [Client.sent b text w]) ->
  match ending run with
  | Raised Inconvertible =>
      exists stamp,
        Client.messages (fst (Client.sendMessage b text s w))
        = (Client.messages s
           ++ Client.sent b text w
              :: Client.cut_short b w
                   (Client.shown
                      (frames_of
                         (arrived net (map FrameChunk (flat_map emitted (yielded run))))))
                   stamp)%list
  | _ =>
      Client.messages (fst (Client.sendMessage b text s w))
      = (Client.messages s
         ++ Client.sent b text w :: Client.answer b w (Client.shown (relayed run)))%list
  end.
Proof.
  apply served_answer.
Qed.

Lemma answer_is_the_relayed_run_witness :
  upstream_of competitive_research (example_host run_success)
    {| json := Val (Client.request_body example_state
                      (Client.sent (served_browser run_success one_by_one)
                         (Client.input example_state) Client.World0)) |}
  = Some run_success
  /\ Client.parses (served_browser run_success one_by_one) (relayed run_success)
  /\ Client.messages
       (fst (Client.sendMessage (served_browser run_success one_by_one)
               (Client.input example_state) example_state Client.World0))
     = (Client.messages example_state
        ++ Client.sent (served_browser run_success one_by_one)
             (Client.input example_state) Client.World0
           :: Client.answer (served_browser run_success one_by_one) Client.World0
                "Hi there")%list.
Proof.
  assert (Hparse : Client.parses (served_browser run_success one_by_one)
                     (relayed run_success)).
  { repeat constructor. }
  split; [vm_compute; reflexivity|]. split; [exact Hparse|].
  apply (answer_is_the_relayed_run (example_host run_success) one_by_one
           (served_browser run_success one_by_one) (Client.input example_state)
           example_state Client.World0 run_success).
  - reflexivity.
  - intro q. simpl. induction q as [|c q IH]; simpl; [reflexivity|].
    rewrite IH. reflexivity.
  - intro q. exists []. simpl. symmetry. apply app_nil_r.
  - reflexivity.
  - vm_compute. reflexivity.
  - exact Hparse.
  - reflexivity.
  - repeat constructor; discriminate.
Defined.

(** The same against a run that raises a value without a string conversion
    after the text [Hi] and a tool use: both frames reach the client, the
    read of the truncated body rejects, and the component keeps the partial
    answer and adds the message about the credentials. *)
Example unprintable_raise_end_to_end :
  map (fun m => (Client.role m, Client.content m))
    (Client.messages
       (fst (Client.sendMessage (served_browser run_unprintable one_by_one)
               (Client.input example_state) example_state Client.World0)))
  = [(assistant, "Welcome"); (user, "Who competes with Sentry?");
     (assistant, "Hi"); (assistant, Client.credentials_hint)].
Proof.
  vm_compute. reflexivity.
Qed.

(** ** What the user sees of a run *)

Lemma shown_tool_starts names text :
  fold_left Client.step_shown (map ToolStart names) text = text.
Proof.
  induction names as [|name names IH]; simpl; [reflexivity|exact IH].
Qed.

Lemma shown_without_failure messages : forall text,
  existsb completion_failure messages = false ->
  fold_left Client.step_shown (flat_map emitted messages) text
  = text ++ String.concat EmptyString (flat_map stream_delta messages).
Proof.
  induction messages as [|m messages IH]; intros text Hnone.
  - simpl. symmetry. apply append_nil_r.
  - simpl in Hnone. apply orb_false_iff in Hnone. destruct Hnone as [Hm Hrest].
    simpl flat_map. rewrite fold_left_app.
    destruct m as [[[[fragment|]|]|]|[blocks|]|tool elapsed|subtype|];
      simpl stream_delta; cbn [app]; try (simpl emitted; simpl fold_left at 2;
                                          apply IH; exact Hrest).
    + simpl emitted. simpl fold_left at 2. rewrite (IH _ Hrest), concat_cons.
      apply append_assoc.
    + simpl emitted. rewrite shown_tool_starts. apply IH. exact Hrest.
    + simpl in Hm. apply negb_false_iff in Hm. simpl emitted. rewrite Hm.
      simpl fold_left at 2. apply IH. exact Hrest.
Qed.

(** X29.  What the user sees of an upstream run, through the handler and
    the component.  When the iteration returned and no result reported a
    failure, the message of the assistant holds the concatenation of the
    text fragments of the run, in order (no message when that is empty).
    When the iteration raised a value that has a string conversion, the
    message holds the apology alone: the text shown until then is replaced,
    not kept. *)
Theorem upstream_text_reaches_the_user host net b text s w run :
  Client.fetch b = served host net ->
  (forall q, concat (regroup net q) = q) ->
  (forall q, exists rest, q = (arrived net q ++ rest)%list) ->
  (Client.trim b text =? EmptyString) || Client.isLoading s = false ->
  upstream_of competitive_research host
    {| json := Val (Client.request_body s (Client.sent b text w)) |} = Some run ->
  Client.parses b (relayed run) ->
  forallb printable (relayed run) = true ->
  Forall (fun m => Client.id m <> Client.randomUUID b (S (Client.uuids w)))
    (Client.messages s ++ [Client.sent b text w]) ->
  (ending run = Returned ->
   existsb completion_failure (yielded run) = false ->
   Client.messages (fst (Client.sendMessage b text s w))
   = (Client.messages s
      ++ Client.sent b text w
         :: Client.answer b w
              (String.concat EmptyString (flat_map stream_delta (yielded run))))%list)
  /\ (forall error, ending run = Raised (Convertible error) ->
      Client.messages (fst (Client.sendMessage b text s w))
      = (Client.messages s
         ++ [Client.sent b text w;
             Client.placeholder (Client.randomUUID b (S (Client.uuids w)))
               (Client.now b (S (S (Client.ticks w)))) Client.apology])%list).
Proof.
  intros Hfetch Hregroup Harrived Hguard Hrun Hparse Hprint Hfresh.
  pose proof (served_answer host net b text s w run Hfetch Hregroup Harrived Hguard
                Hrun Hparse Hprint Hfresh) as Hanswer.
  rewrite relayed_frames in Hanswer. unfold Client.shown in Hanswer.
  split.
  - intros Hreturned Hnone. rewrite Hreturned in Hanswer. simpl in Hanswer.
    rewrite app_nil_r in Hanswer.
    rewrite (shown_without_failure (yielded run) EmptyString Hnone) in Hanswer.
    exact Hanswer.
  - intros error Hraised. rewrite Hraised in Hanswer. simpl in Hanswer.
    rewrite fold_left_app in Hanswer. exact Hanswer.
Qed.

Lemma upstream_text_reaches_the_user_witness :
  ending run_success = Returned
  /\ existsb completion_failure (yielded run_success) = false
  /\ map Client.content
       (Client.messages
          (fst (Client.sendMessage (served_browser run_success all_at_once)
                  (Client.input example_state) example_state Client.World0)))
     = ["Welcome"; "Who competes with Sentry?"; "Hi there"].
Proof.
  split; [reflexivity|]. split; [reflexivity|].
  destruct (upstream_text_reaches_the_user (example_host run_success) all_at_once
              (served_browser run_success all_at_once) (Client.input example_state)
              example_state Client.World0 run_success) as [Htext _].
  - reflexivity.
  - intro q. simpl. apply app_nil_r.
  - intro q. simpl. destruct q as [|c q]; [exists []; reflexivity|].
    exists [last (c :: q) c]. apply app_removelast_last. discriminate.
  - reflexivity.
  - vm_compute. reflexivity.
  - repeat constructor.
  - reflexivity.
  - repeat constructor; discriminate.
  - rewrite (Htext eq_refl eq_refl). reflexivity.
Defined.
